(** * Shallow embedding of freshservice-category-cleanup

    The Python sources under [src/] are embedded module by module:
    - [Py]: the few pieces of Python's runtime the code relies on
      (exceptions, truthiness, [int(str)]);
    - [RateLimit]: [RateLimitController] of [rate_limit_controller.py];
    - [Client]: [FreshserviceApi._request] of [freshservice_api.py];
    - [TicketObj]: the [Ticket] class of [ticket.py];
    - [Store]: the SQLite tables and the queries of the batch processors;
    - [Worker]: [BaseBatchProcessor.run] and [_worker_loop] with both
      strategies.
    [RateLimitSpec], [ClientTrace], [WorkerTrace] and [StoreSpec] define what
    the theorems observe of runs (traces, logs, claim counts) and the
    readings of the documented behaviour they are compared with. *)

From Stdlib Require Import ZArith QArith String Ascii List Bool Lia Permutation.
Import ListNotations.
Open Scope Z_scope.
Set Warnings "-register-all".

Module Py.

(** Python exceptions raised along the modelled paths. *)
Inductive exc :=
| AttributeError (name : string)
| TypeError
| ValueError
| ZeroDivisionError
| OperationalError
| FreshserviceHTTPError (status : Z)
| FreshserviceRateLimitError.

(** Result of a Python computation: a value or a raised exception. *)
Inductive res (A : Type) :=
| Ok (a : A)
| Raise (e : exc).
Arguments Ok {A} a.
Arguments Raise {A} e.

Definition bind {A B} (m : res A) (k : A -> res B) : res B :=
  match m with Ok a => k a | Raise e => Raise e end.

Notation "x <- m ;; k" := (bind m (fun x => k))
  (at level 61, m at next level, right associativity).

(** Truthiness of a nullable text value ([None] and [""] are falsy). *)
Definition truthy (o : option string) : bool :=
  match o with
  | Some s => negb (String.eqb s "")
  | None => false
  end.

Definition is_none {A} (o : option A) : bool :=
  match o with None => true | Some _ => false end.

(** [int(s)] on a [str] (base 10; latin-1 text, whose only decimal digits
    are the ASCII ones): surrounding whitespace ([str.isspace]) is
    stripped, one optional sign, then digits where single underscores may
    separate two digits. Anything else raises [ValueError]. *)
Definition is_space (c : ascii) : bool :=
  let n := nat_of_ascii c in
  (Nat.eqb n 32 || (Nat.leb 9 n && Nat.leb n 13) || (Nat.leb 28 n && Nat.leb n 31)
   || Nat.eqb n 133 || Nat.eqb n 160)%bool.

Definition digit_val (c : ascii) : option Z :=
  let n := nat_of_ascii c in
  if (Nat.leb 48 n && Nat.leb n 57)%bool then Some (Z.of_nat n - 48) else None.

Fixpoint drop_spaces (l : list ascii) : list ascii :=
  match l with
  | c :: t => if is_space c then drop_spaces t else l
  | [] => []
  end.

Definition strip (l : list ascii) : list ascii :=
  rev (drop_spaces (rev (drop_spaces l))).

(** [after_sep] is true at the start and right after an underscore: a
    digit must follow. *)
Fixpoint digits (l : list ascii) (acc : Z) (after_sep : bool) : option Z :=
  match l with
  | [] => if after_sep then None else Some acc
  | c :: t =>
      if Ascii.eqb c "_"%char then
        if after_sep then None else digits t acc true
      else match digit_val c with
           | Some d => digits t (acc * 10 + d) false
           | None => None
           end
  end.

Definition parse_int (s : string) : option Z :=
  match strip (list_ascii_of_string s) with
  | c :: t =>
      if Ascii.eqb c "-"%char then option_map Z.opp (digits t 0 true)
      else if Ascii.eqb c "+"%char then digits t 0 true
      else digits (c :: t) 0 true
  | [] => None
  end.

Definition py_int (s : string) : res Z :=
  match parse_int s with Some n => Ok n | None => Raise ValueError end.

(** JSON values, as [response.json()] returns them. *)
Inductive json :=
| JNull
| JBool (b : bool)
| JNum (z : Z)
| JStr (s : string)
| JArr (l : list json)
| JObj (kvs : list (string * json)).

(** The header lines of a response, in the order they were received
    (header names and values decoded as latin-1, as [http.client] does). *)
Definition headers := list (string * string).

(** [str.lower] on latin-1 text: [A-Z], [\xc0-\xd6] and [\xd8-\xde]. *)
Definition lower_char (c : ascii) : ascii :=
  let n := nat_of_ascii c in
  if ((Nat.leb 65 n && Nat.leb n 90) ||
      (Nat.leb 192 n && Nat.leb n 222 && negb (Nat.eqb n 215)))%bool
  then ascii_of_nat (n + 32) else c.

Definition lower (s : string) : string :=
  string_of_list_ascii (map lower_char (list_ascii_of_string s)).

(** [sep.join(l)] *)
Fixpoint join (sep : string) (l : list string) : string :=
  match l with
  | [] => ""
  | [x] => x
  | x :: t => String.append x (String.append sep (join sep t))
  end.

(** [response.headers.get(k)]: [requests] wraps urllib3's [HTTPHeaderDict]
    in a [CaseInsensitiveDict], so the name is matched up to case and the
    values of repeated header lines come joined by [", "]. *)
Definition hget (k : string) (h : headers) : option string :=
  match filter (fun kv => String.eqb (lower (fst kv)) (lower k)) h with
  | [] => None
  | vs => Some (join ", " (map snd vs))
  end.

(** Evaluates the header lookups on concrete header lists in the goal. *)
Ltac hget_simpl :=
  repeat match goal with
  | |- context [hget ?k ?h] =>
      let v := eval vm_compute in (hget k h) in change (hget k h) with v
  end.

End Py.

Import Py.

Module RateLimit.

Open Scope Q_scope.

Definition Qltb (a b : Q) : bool := negb (Qle_bool b a).

(** Python's [max(a, b)] keeps [a] unless [b > a]. *)
Definition py_max (a b : Q) : Q := if Qltb a b then b else a.

(** Python's [min(a, b)] keeps [a] unless [b < a]. *)
Definition py_min (a b : Q) : Q := if Qltb b a then b else a.

(** The attributes of [RateLimitController]; times are [time.time()]
    readings, idealised as rationals. *)
Record controller := mkController {
  headroom : Z;
  server_ratelimit_remaining : Z;
  server_ratelimit_total : Z;
  requests_in_flight : Z;
  last_request_timestamp : Q;
  retry_after_timestamp : Q;
  probe_wait_seconds : Q;
  probe_scheduled : bool
}.

Definition init_controller (h : Z) : controller :=
  mkController h 160 160 0 0 0 1 false.

Definition set_probe_wait (s : controller) (w : Q) : controller :=
  mkController (headroom s) (server_ratelimit_remaining s)
    (server_ratelimit_total s) (requests_in_flight s)
    (last_request_timestamp s) (retry_after_timestamp s) w (probe_scheduled s).

Definition set_probe_scheduled (s : controller) (b : bool) : controller :=
  mkController (headroom s) (server_ratelimit_remaining s)
    (server_ratelimit_total s) (requests_in_flight s)
    (last_request_timestamp s) (retry_after_timestamp s) (probe_wait_seconds s) b.

(** [requests_in_flight += 1; last_request_timestamp = now] *)
Definition record_admission (s : controller) (now : Q) : controller :=
  mkController (headroom s) (server_ratelimit_remaining s)
    (server_ratelimit_total s) (requests_in_flight s + 1)%Z
    now (retry_after_timestamp s) (probe_wait_seconds s) (probe_scheduled s).

(** What one pass of the [while True] loop of [block_until_ready] does. *)
Inductive bur_outcome :=
| Proceed (s : controller)
| WaitTimeout (timeout : Q) (s : controller)   (* wait(timeout); continue *)
| WaitNotified (s : controller)                 (* wait(); continue *)
| ProbeWait (timeout : Q) (s : controller)     (* probe: wait, then [probe_resume] *)
| BurRaise (e : exc).

Definition block_until_ready_step (s : controller) (now : Q) : bur_outcome :=
  if Qltb now (retry_after_timestamp s) then
    WaitTimeout (retry_after_timestamp s - now) s
  else if (server_ratelimit_total s =? 0)%Z then BurRaise ZeroDivisionError
  else
    let base_interval_seconds := 60 / inject_Z (server_ratelimit_total s) in
    let ratelimit_remaining :=
      (server_ratelimit_remaining s - requests_in_flight s)%Z in
    if (headroom s <? ratelimit_remaining)%Z then
      let s1 := set_probe_wait s (py_max 1 base_interval_seconds) in
      let braking_threshold := (headroom s * 3)%Z in
      let interval_multiplier :=
        if (braking_threshold <? ratelimit_remaining)%Z then 1
        else inject_Z braking_threshold / inject_Z (Z.max 1 ratelimit_remaining) in
      let required_interval_seconds := base_interval_seconds * interval_multiplier in
      let seconds_since_last_request := now - last_request_timestamp s1 in
      if Qltb seconds_since_last_request required_interval_seconds then
        WaitTimeout (required_interval_seconds - seconds_since_last_request) s1
      else Proceed (record_admission s1 now)
    else if ((0 <? requests_in_flight s)%Z || probe_scheduled s)%bool then
      WaitNotified s
    else ProbeWait (probe_wait_seconds s) (set_probe_scheduled s true).

(** The probe's continuation after its wait: the [finally] clears
    [probe_scheduled]; [now] is the second [time.time()] reading. [None] is
    the final [continue]. *)
Definition probe_resume (s : controller) (now : Q) : option controller :=
  let s0 := set_probe_scheduled s false in
  if (server_ratelimit_remaining s0 - requests_in_flight s0 <=? headroom s0)%Z then
    let s1 := set_probe_wait s0 (py_min (probe_wait_seconds s0 * 2) 60) in
    Some (record_admission s1 now)
  else None.

Inductive wake := NotifyAll | NotifyOne.

Definition set_in_flight (s : controller) (n : Z) : controller :=
  mkController (headroom s) (server_ratelimit_remaining s)
    (server_ratelimit_total s) n
    (last_request_timestamp s) (retry_after_timestamp s) (probe_wait_seconds s)
    (probe_scheduled s).

Definition set_remaining (s : controller) (n : Z) : controller :=
  mkController (headroom s) n
    (server_ratelimit_total s) (requests_in_flight s)
    (last_request_timestamp s) (retry_after_timestamp s) (probe_wait_seconds s)
    (probe_scheduled s).

Definition set_total (s : controller) (n : Z) : controller :=
  mkController (headroom s) (server_ratelimit_remaining s)
    n (requests_in_flight s)
    (last_request_timestamp s) (retry_after_timestamp s) (probe_wait_seconds s)
    (probe_scheduled s).

Definition set_retry_after (s : controller) (t : Q) : controller :=
  mkController (headroom s) (server_ratelimit_remaining s)
    (server_ratelimit_total s) (requests_in_flight s)
    (last_request_timestamp s) t (probe_wait_seconds s)
    (probe_scheduled s).

(** The part of [update_and_notify] after the [Retry-After] test. *)
Definition update_quota (s : controller) (h : headers) : res (controller * wake) :=
  let prev_remaining := server_ratelimit_remaining s in
  s2 <- match hget "x-ratelimit-remaining" h with
        | Some v => n <- py_int v ;; Ok (set_remaining s n)
        | None => Ok s
        end ;;
  s3 <- match hget "x-ratelimit-total" h with
        | Some v => n <- py_int v ;; Ok (set_total s2 n)
        | None => Ok s2
        end ;;
  let effective_remaining :=
    (server_ratelimit_remaining s3 - requests_in_flight s3)%Z in
  if (prev_remaining <? server_ratelimit_remaining s3)%Z then Ok (s3, NotifyAll)
  else if (headroom s3 <? effective_remaining)%Z then Ok (s3, NotifyAll)
  else Ok (s3, NotifyOne).

(** [update_and_notify(headers)], for the [response.headers] it is
    documented to receive; [now] is the [time.time()] reading. *)
Definition update_and_notify (s : controller) (h : headers) (now : Q)
  : res (controller * wake) :=
  let n := (requests_in_flight s - 1)%Z in
  let s1 := set_in_flight s (if (n <? 0)%Z then 0%Z else n) in
  match hget "Retry-After" h with
  | Some v =>
      match py_int v with
      | Ok retry_seconds =>
          Ok (set_remaining (set_retry_after s1 (now + inject_Z retry_seconds)) 0,
              NotifyAll)
      | Raise _ => update_quota s1 h
      end
  | None => update_quota s1 h
  end.

End RateLimit.

Module Client.
Local Open Scope string_scope.
Local Open Scope Z_scope.
Local Open Scope list_scope.

(** The state [FreshserviceApi.__init__] creates and [_request] updates;
    the [requests.Session] is implicit. Datetimes are whole seconds. *)
Record fs_api := mkApi {
  base_url : string;
  rate_limit_total : option Z;
  rate_limit_remaining : option Z;
  rate_limit_hit : bool;
  retry_after_until : option Z
}.

Definition init_api (domain : string) : fs_api :=
  mkApi (String.append "https://" (String.append domain "/api/v2")) None None false None.

(** Names that [getattr] finds on a [FreshserviceApi] instance: the
    instance attributes set by [__init__] and the class's methods. *)
Definition fs_api_attrs : list string :=
  ["api_key"; "api_version"; "base_url"; "session"; "rate_limit_total";
   "rate_limit_remaining"; "rate_limit_hit"; "retry_after_until";
   "__init__"; "_request"; "ticket"; "__dict__"; "__class__"; "__module__";
   "__doc__"; "__weakref__"].

Definition fs_api_getattr (name : string) : res unit :=
  if existsb (String.eqb name) fs_api_attrs then Ok tt
  else Raise (AttributeError name).

Record response := mkResponse {
  status_code : Z;
  resp_headers : headers;
  resp_json : option json   (* [None]: the body is not JSON *)
}.

(** Observable actions of an HTTP call. The first two are the calls a
    client makes on a [RateLimitController]. *)
Inductive event :=
| CallBlockUntilReady
| CallUpdateAndNotify (h : headers)
| Sleep (seconds : Z)
| Send (method url : string) (body : option json).

(** What the world supplies to one attempt: [datetime.now()] at the top of
    the loop, the server's response, [datetime.now()] after a 429. *)
Record attempt := mkAttempt {
  now_before : Z;
  server_response : response;
  now_after : Z
}.

Definition set_hit_until (a : fs_api) (hit : bool) (u : option Z) : fs_api :=
  mkApi (base_url a) (rate_limit_total a) (rate_limit_remaining a) hit u.

Definition set_limits (a : fs_api) (t r : option Z) : fs_api :=
  mkApi (base_url a) t r (rate_limit_hit a) (retry_after_until a).

(** [int(response.headers.get(k, 0))] *)
Definition header_int (k : string) (h : headers) : res Z :=
  match hget k h with Some v => py_int v | None => Ok 0 end.

(** [n or old] for an [int] [n]. *)
Definition or_old (n : Z) (old : option Z) : option Z :=
  if n =? 0 then old else Some n.

Fixpoint lstrip_slash (l : list ascii) : list ascii :=
  match l with
  | c :: t => if Ascii.eqb c "/"%char then lstrip_slash t else l
  | [] => []
  end.

Definition make_url (a : fs_api) (path : string) : string :=
  String.append (base_url a)
    (String.append "/" (string_of_list_ascii (lstrip_slash (list_ascii_of_string path)))).

Section Request.
Variables (method url : string) (body : option json) (max_retries : Z)
          (env : Z -> attempt).

(** The [while attempts <= max_retries] loop; [fuel] bounds the remaining
    passes, and running out of it is the loop's exit. *)
Fixpoint request_loop (fuel : nat) (api : fs_api) (attempts : Z) (tr : list event)
  : fs_api * list event * res json :=
  match fuel with
  | O => (api, tr, Raise FreshserviceRateLimitError)
  | S fuel' =>
    if negb (attempts <=? max_retries) then (api, tr, Raise FreshserviceRateLimitError)
    else
    let a := env attempts in
    let '(api1, tr1) :=
      if (rate_limit_hit api && negb (is_none (retry_after_until api)))%bool then
        let tr' := match retry_after_until api with
                   | Some u => if now_before a <? u then tr ++ [Sleep (u - now_before a)]
                               else tr
                   | None => tr
                   end in
        (set_hit_until api false None, tr')
      else (api, tr) in
    let resp := server_response a in
    let tr2 := tr1 ++ [Send method url body] in
    let h := resp_headers resp in
    match header_int "x-ratelimit-total" h with
    | Raise e => (api1, tr2, Raise e)
    | Ok t =>
    let api2 := set_limits api1 (or_old t (rate_limit_total api1)) (rate_limit_remaining api1) in
    match header_int "x-ratelimit-remaining" h with
    | Raise e => (api2, tr2, Raise e)
    | Ok r =>
    let api3 := set_limits api2 (rate_limit_total api2) (or_old r (rate_limit_remaining api2)) in
    if status_code resp =? 429 then
      let attempts' := attempts + 1 in
      if max_retries <? attempts' then (api3, tr2, Raise FreshserviceRateLimitError)
      else
        let api4 := set_hit_until api3 true (retry_after_until api3) in
        let retry_header := hget "Retry-After" h in
        match (if truthy retry_header
               then match retry_header with Some v => py_int v | None => Ok 0 end
               else Ok (2 ^ attempts')) with
        | Raise e => (api4, tr2, Raise e)
        | Ok wait_time =>
            request_loop fuel' (set_hit_until api4 true (Some (now_after a + wait_time)))
              attempts' tr2
        end
    else if ((400 <=? status_code resp) && (status_code resp <? 600))%bool then
      (api3, tr2, Raise (FreshserviceHTTPError (status_code resp)))
    else if status_code resp =? 204 then (api3, tr2, Ok (JObj []))
    else match resp_json resp with
         | Some j => (api3, tr2, Ok j)
         | None => (api3, tr2, Raise ValueError)
         end
    end end
  end.

End Request.

(** [FreshserviceApi._request(method, path, max_retries, json=body)]. *)
Definition _request (api : fs_api) (method path : string) (max_retries : Z)
  (body : option json) (env : Z -> attempt) : fs_api * list event * res json :=
  request_loop method (make_url api path) body max_retries env
    (Z.to_nat (max_retries + 1)) api 0 [].

End Client.

Module TicketObj.
Import Client.
Local Open Scope string_scope.
Local Open Scope Z_scope.
Local Open Scope list_scope.

(** Values held in a [Ticket]'s attributes. *)
Inductive pyval :=
| PJson (j : json)          (* a value decoded from JSON, or a literal *)
| PClient                   (* the [FreshserviceApi] passed to [__init__] *)
| PDate (iso : string)      (* a [datetime], given by its [isoformat()] text *)
| PClassAttr (name : string). (* a method, property or other class attribute *)

(** The instance [__dict__], in insertion order; keys are distinct. *)
Definition instance := list (string * pyval).

Definition ticket_id_attr (ticket_id : option Z) : pyval :=
  match ticket_id with Some n => PJson (JNum n) | None => PJson JNull end.

(** [Ticket.__init__(client, ticket_id)] with no keyword arguments. *)
Definition init_ticket (ticket_id : option Z) : instance :=
  [("client", PClient); ("id", ticket_id_attr ticket_id)] ++
  map (fun k => (k, PJson JNull))
    ["subject"; "description"; "description_text"; "status"; "priority"; "type";
     "source"; "category"; "sub_category"; "item_category";
     "created_at"; "updated_at"; "due_by"; "fr_due_by";
     "group_id"; "department_id"; "requester_id"; "requested_for_id";
     "responder_id"; "workspace_id"; "sla_policy_id"; "applied_business_hours";
     "fr_escalated"; "is_escalated"; "deleted"; "spam";
     "created_within_business_hours"] ++
  [("fwd_emails", PJson (JArr [])); ("reply_cc_emails", PJson (JArr []));
   ("cc_emails", PJson (JArr [])); ("to_emails", PJson JNull);
   ("bcc_emails", PJson JNull); ("attachments", PJson (JArr []));
   ("custom_fields", PJson (JObj []));
   ("email_config_id", PJson JNull); ("tasks_dependency_type", PJson JNull);
   ("resolution_notes", PJson JNull); ("resolution_notes_html", PJson JNull)].

(** Attributes found on the class [Ticket] and on [object] (CPython 3.13). *)
Definition ticket_class_attrs : list string :=
  ["path"; "create"; "get"; "update"; "delete"; "to_dict"; "__repr__";
   "_to_payload"; "_hydrate"; "_parse_date"; "_format_date"; "__init__";
   "__dict__"; "__weakref__"; "__module__"; "__doc__"; "__firstlineno__";
   "__static_attributes__";
   "__class__"; "__delattr__"; "__dir__"; "__eq__"; "__format__"; "__ge__";
   "__getattribute__"; "__getstate__"; "__gt__"; "__hash__"; "__init_subclass__";
   "__le__"; "__lt__"; "__ne__"; "__new__"; "__reduce__"; "__reduce_ex__";
   "__setattr__"; "__sizeof__"; "__str__"; "__subclasshook__"].

Definition keys (t : instance) : list string := map fst t.

Definition mem (k : string) (l : list string) : bool := existsb (String.eqb k) l.

Definition lookup {A} (k : string) (l : list (string * A)) : option A :=
  option_map snd (find (fun kv => String.eqb (fst kv) k) l).

Definition hasattr (t : instance) (k : string) : bool :=
  mem k (keys t) || mem k ticket_class_attrs.

Definition getattr (t : instance) (k : string) : res pyval :=
  match lookup k t with
  | Some v => Ok v
  | None => if mem k ticket_class_attrs then Ok (PClassAttr k)
            else Raise (AttributeError k)
  end.

Fixpoint dict_set (k : string) (v : pyval) (t : instance) : instance :=
  match t with
  | [] => [(k, v)]
  | (k', v') :: t' => if String.eqb k k' then (k, v) :: t' else (k', v') :: dict_set k v t'
  end.

(** [setattr(ticket, k, v)]: [path] is a property without a setter,
    assigning [__dict__] rebinds the whole instance dictionary (a [dict] is
    required), [__class__] needs a class and [__weakref__] is read-only. *)
Definition setattr (t : instance) (k : string) (v : pyval) : res instance :=
  if String.eqb k "path" then Raise (AttributeError "path")
  else if String.eqb k "__dict__" then
    match v with
    | PJson (JObj kvs) => Ok (map (fun kv => (fst kv, PJson (snd kv))) kvs)
    | _ => Raise TypeError
    end
  else if String.eqb k "__class__" then Raise TypeError
  else if String.eqb k "__weakref__" then Raise (AttributeError "__weakref__")
  else Ok (dict_set k v t).

Definition date_fields : list string := ["created_at"; "updated_at"; "due_by"; "fr_due_by"].

(** [s.startswith(p)]: the rest of [s] after the prefix [p]. *)
Fixpoint strip_prefix (p s : string) : option string :=
  match p, s with
  | EmptyString, _ => Some s
  | String a p', String b s' => if Ascii.eqb a b then strip_prefix p' s' else None
  | _, _ => None
  end.

Fixpoint str_replace_fuel (fuel : nat) (old new s : string) : string :=
  match fuel with
  | O => s
  | S f =>
      match s with
      | EmptyString => EmptyString
      | String c t =>
          match strip_prefix old s with
          | Some rest => String.append new (str_replace_fuel f old new rest)
          | None => String c (str_replace_fuel f old new t)
          end
      end
  end.

(** [s.replace(old, new)] for a non-empty [old]: every occurrence, left to
    right and without overlap; each step consumes a character of [s], so
    [length s] steps reach its end. *)
Definition str_replace (old new s : string) : string :=
  str_replace_fuel (String.length s) old new s.

Section Hydrate.
(** [datetime.fromisoformat(s)], given by the [isoformat()] text of the
    [datetime] it returns, or [None] when it raises [ValueError]; which
    strings it accepts is left open. *)
Variable fromisoformat : string -> option string.

(** [Ticket._parse_date(date_str)] *)
Definition _parse_date (v : json) : res pyval :=
  match v with
  | JStr s =>
      match fromisoformat (str_replace "Z" "+00:00" s) with
      | Some d => Ok (PDate d)
      | None => Raise ValueError
      end
  | _ => Ok (PJson JNull)
  end.

Fixpoint hydrate_items (t : instance) (items : list (string * json)) : res instance :=
  match items with
  | [] => Ok t
  | (k, v) :: rest =>
      if hasattr t k then
        val <- (if mem k date_fields then _parse_date v else Ok (PJson v)) ;;
        t' <- setattr t k val ;;
        hydrate_items t' rest
      else hydrate_items t rest
  end.

(** [data.get("ticket", data)] for a [dict]. *)
Definition unwrap_ticket (data : json) : json :=
  match data with
  | JObj kvs => match lookup "ticket" kvs with Some v => v | None => data end
  | _ => data
  end.

Definition _hydrate (t : instance) (data : json) : res instance :=
  match unwrap_ticket data with
  | JObj kvs => hydrate_items t kvs
  | _ => Ok t
  end.

End Hydrate.

(** Python truthiness of an attribute value. *)
Definition pytruthy (v : pyval) : bool :=
  match v with
  | PJson JNull => false
  | PJson (JBool b) => b
  | PJson (JNum n) => negb (n =? 0)
  | PJson (JStr s) => negb (String.eqb s "")
  | PJson (JArr l) => negb (Nat.eqb (length l) 0)
  | PJson (JObj kvs) => negb (Nat.eqb (length kvs) 0)
  | _ => true
  end.

Definition id_truthy (t : instance) : res bool :=
  v <- getattr t "id" ;; Ok (pytruthy v).

Fixpoint digits_of_pos (fuel : nat) (n : Z) (acc : string) : string :=
  match fuel with
  | O => acc
  | S f =>
      let d := Z.modulo n 10 in
      let c := ascii_of_nat (Z.to_nat (48 + d)) in
      if n <? 10 then String c acc else digits_of_pos f (Z.div n 10) (String c acc)
  end.

(** [str(n)] for an [int]: a positive [n] has at most [log2 n + 1]
    decimal digits. *)
Definition z_to_string (n : Z) : string :=
  if n <? 0 then String "-" (digits_of_pos (S (Z.to_nat (Z.log2 (- n)))) (- n) "")
  else digits_of_pos (S (Z.to_nat (Z.log2 n))) n "".

Definition hex_digit (n : nat) : ascii :=
  if Nat.ltb n 10 then ascii_of_nat (48 + n) else ascii_of_nat (87 + n).

Definition dquote : ascii := ascii_of_nat 34.
Definition squote : ascii := ascii_of_nat 39.
Definition backslash : ascii := ascii_of_nat 92.

Definition has_char (c : ascii) (s : string) : bool :=
  existsb (Ascii.eqb c) (list_ascii_of_string s).

(** One character of [repr(s)] quoted with [q]: the quote and the
    backslash are escaped, tab, newline and carriage return by name, the
    other characters that are not printable (controls, [\x7f], and in
    latin-1 [\x80-\xa0] and the soft hyphen [\xad]) as [\xNN]. *)
Definition repr_char (q c : ascii) : string :=
  let n := nat_of_ascii c in
  if (Ascii.eqb c q || Ascii.eqb c backslash)%bool then String backslash (String c "")
  else if Nat.eqb n 9 then String backslash "t"
  else if Nat.eqb n 10 then String backslash "n"
  else if Nat.eqb n 13 then String backslash "r"
  else if (Nat.ltb n 32 || Nat.eqb n 127 || (Nat.leb 128 n && Nat.leb n 160)
           || Nat.eqb n 173)%bool
  then String backslash (String "x" (String (hex_digit (Nat.div n 16))
                                      (String (hex_digit (Nat.modulo n 16)) "")))
  else String c "".

(** [repr(s)] for a [str]: single quotes, unless [s] holds a single quote
    and no double quote. *)
Definition str_repr (s : string) : string :=
  let q := if (has_char squote s && negb (has_char dquote s))%bool then dquote else squote in
  String q (String.append
              (String.concat "" (map (repr_char q) (list_ascii_of_string s)))
              (String q "")).

(** [repr(v)] of a value decoded from JSON. *)
Fixpoint py_repr (j : json) : string :=
  match j with
  | JNull => "None"
  | JBool true => "True"
  | JBool false => "False"
  | JNum n => z_to_string n
  | JStr s => str_repr s
  | JArr l => String.append "[" (String.append (join ", " (map py_repr l)) "]")
  | JObj kvs =>
      String.append "{"
        (String.append
           (join ", " (map (fun kv => String.append (str_repr (fst kv))
                                        (String.append ": " (py_repr (snd kv)))) kvs))
           "}")
  end.

(** [str(dt)] of a [datetime]: its [isoformat()] with a space for the [T]
    after the ten characters of the date. *)
Definition date_str (iso : string) : string :=
  String.append (substring 0 10 iso)
    (String " " (substring 11 (String.length iso - 11) iso)).

(** [str(v)] of an attribute value. The [repr] of the client or of a
    method names a memory address, which is left out; [id] never holds
    either. *)
Definition py_str (v : pyval) : string :=
  match v with
  | PJson (JStr s) => s
  | PJson j => py_repr j
  | PDate iso => date_str iso
  | PClient => "<freshservice_api.freshservice_api.FreshserviceApi object>"
  | PClassAttr name => String.append "<bound method Ticket." (String.append name ">")
  end.

(** The [path] property: [f"tickets/{self.id}" if self.id else "tickets"]. *)
Definition ticket_path (t : instance) : res string :=
  v <- getattr t "id" ;;
  Ok (if pytruthy v then String.append "tickets/" (py_str v) else "tickets").

(** [dict(payload)]. A key of the resulting [dict] is a JSON value:
    [str], [int], [bool] or [None] ([list] and [dict] are unhashable), with
    [True == 1] and [False == 0]. *)
Definition hashable (k : json) : bool :=
  match k with JArr _ | JObj _ => false | _ => true end.

Definition key_eq (a b : json) : bool :=
  match a, b with
  | JNull, JNull => true
  | JStr x, JStr y => String.eqb x y
  | JNum x, JNum y => x =? y
  | JBool x, JBool y => Bool.eqb x y
  | JNum x, JBool y | JBool y, JNum x => x =? (if y then 1 else 0)
  | _, _ => false
  end.

(** [d[k] = v]: an equal key already present keeps its first object and
    its position and takes the new value. *)
Fixpoint dict_put (k v : json) (d : list (json * json)) : list (json * json) :=
  match d with
  | [] => [(k, v)]
  | (k', v') :: t => if key_eq k' k then (k', v) :: t else (k', v') :: dict_put k v t
  end.

(** An element of the sequence given to [dict]: it must be an iterable
    ([TypeError] otherwise) of exactly two items ([ValueError] otherwise);
    a [str] iterates over its characters, a [dict] over its keys. *)
Definition pair_of (e : json) : res (json * json) :=
  match e with
  | JArr [k; v] => Ok (k, v)
  | JArr _ => Raise ValueError
  | JStr s =>
      match list_ascii_of_string s with
      | [a; b] => Ok (JStr (String a ""), JStr (String b ""))
      | _ => Raise ValueError
      end
  | JObj [(k1, _); (k2, _)] => Ok (JStr k1, JStr k2)
  | JObj _ => Raise ValueError
  | _ => Raise TypeError
  end.

Fixpoint dict_from_seq (d : list (json * json)) (items : list json)
  : res (list (json * json)) :=
  match items with
  | [] => Ok d
  | e :: rest =>
      p <- pair_of e ;;
      if hashable (fst p) then dict_from_seq (dict_put (fst p) (snd p) d) rest
      else Raise TypeError
  end.

Definition py_dict (payload : json) : res (list (json * json)) :=
  match payload with
  | JObj kvs => Ok (map (fun kv => (JStr (fst kv), snd kv)) kvs)
  | JArr items => dict_from_seq [] items
  | JStr s => dict_from_seq [] (map (fun c => JStr (String c "")) (list_ascii_of_string s))
  | _ => Raise TypeError
  end.

(** [json.dumps] of a [dict] body, as [requests] sends [json=body]: [str]
    keys as they are, [int] keys in decimal, [True], [False] and [None] as
    [true], [false] and [null]. *)
Definition json_key (k : json) : string :=
  match k with
  | JStr s => s
  | JNum n => z_to_string n
  | JBool true => "true"
  | JBool false => "false"
  | JNull => "null"
  | _ => ""
  end.

Definition dict_body (d : list (json * json)) : json :=
  JObj (map (fun kv => (json_key (fst kv), snd kv)) d).

Definition payload_exclude : list string :=
  ["applied_business_hours"; "attachments"; "client"; "created_at";
   "created_within_business_hours"; "deleted"; "description_text";
   "fr_escalated"; "fwd_emails"; "id"; "is_escalated"; "reply_cc_emails";
   "sla_policy_id"; "spam"; "tasks_dependency_type"; "updated_at"].

Definition starts_with_underscore (k : string) : bool :=
  match k with String c _ => Ascii.eqb c "_"%char | EmptyString => false end.

(** [Ticket._to_payload()]; a [datetime] [dt] is written back as
    [self._format_date(dt)], that is [dt.isoformat().replace("+00:00", "Z")]. *)
Fixpoint _to_payload (t : instance) : list (string * json) :=
  match t with
  | [] => []
  | (k, v) :: rest =>
      if (mem k payload_exclude || starts_with_underscore k)%bool then _to_payload rest
      else match v with
           | PJson JNull => _to_payload rest
           | PJson j => (k, j) :: _to_payload rest
           | PDate d => (k, JStr (str_replace "+00:00" "Z" d)) :: _to_payload rest
           | _ => _to_payload rest
           end
  end.

(** [dict(payload) if payload is not None else self._to_payload()], as
    the JSON body sent; a JSON [null] stands for [None]. *)
Definition payload_body (t : instance) (payload : json) : res json :=
  match payload with
  | JNull => Ok (JObj (_to_payload t))
  | _ => d <- py_dict payload ;; Ok (dict_body d)
  end.

Section Methods.
Variable fromisoformat : string -> option string.
Variables (api : fs_api) (env : Z -> attempt).

(** [self._hydrate(self.client._request(method, self.path, json=body))] *)
Definition request_then_hydrate (t : instance) (method : string) (body : option json)
  : fs_api * list event * res instance :=
  match ticket_path t with
  | Raise e => (api, [], Raise e)
  | Ok path =>
      let '(api', tr, r) := _request api method path 5 body env in
      (api', tr, data <- r ;; _hydrate fromisoformat t data)
  end.

(** [Ticket.update(self, payload=None)] called with the positional
    arguments [args] (besides [self]). *)
Definition update (t : instance) (args : list json) : fs_api * list event * res instance :=
  match args with
  | _ :: _ :: _ => (api, [], Raise TypeError)
  | _ =>
      match id_truthy t with
      | Raise e => (api, [], Raise e)
      | Ok false => (api, [], Raise ValueError)
      | Ok true =>
          match (match args with
                 | [p] => payload_body t p
                 | _ => payload_body t JNull
                 end) with
          | Raise e => (api, [], Raise e)
          | Ok body => request_then_hydrate t "PUT" (Some body)
          end
      end
  end.

(** [Ticket.create(self, payload)]; [JNull] stands for [None]. *)
Definition create (t : instance) (payload : json) : fs_api * list event * res instance :=
  match id_truthy t with
  | Raise e => (api, [], Raise e)
  | Ok true => (api, [], Raise ValueError)
  | Ok false =>
      match payload_body t payload with
      | Raise e => (api, [], Raise e)
      | Ok body => request_then_hydrate t "POST" (Some body)
      end
  end.

End Methods.

End TicketObj.

Module Store.
Local Open Scope string_scope.
Local Open Scope Z_scope.
Local Open Scope list_scope.

(** SQL [a = b] on nullable text: NULL equals nothing. *)
Definition sql_eq (a b : option string) : bool :=
  match a, b with Some x, Some y => String.eqb x y | _, _ => false end.

(** [NULL] as a JSON value, otherwise the text. *)
Definition jopt (o : option string) : json :=
  match o with Some v => JStr v | None => JNull end.

(** The counters and settings of a [BaseBatchProcessor]; [random_order]
    is [None] while the attribute has never been assigned. *)
Record proc := mkProc {
  iteration_count : Z;
  iteration_limit : option Z;
  success_count : Z;
  failure_count : Z;
  random_order : option bool
}.

(** [BaseBatchProcessor.__init__]: it assigns no [random_order]. *)
Definition init_proc : proc := mkProc 0 None 0 0 None.

(** What the world decides during one claim: [datetime.now()], whether
    [BEGIN IMMEDIATE] fails with [OperationalError] (the file is locked past
    the 30 s timeout), and the row [ORDER BY RANDOM()] picks. *)
Record fetch_env := mkFetchEnv {
  fe_now : Z;
  fe_locked : bool;
  fe_rand : nat
}.

(** [ORDER BY id DESC LIMIT 1] *)
Fixpoint max_by {R} (key : R -> Z) (l : list R) : option R :=
  match l with
  | [] => None
  | r :: t =>
      match max_by key t with
      | None => Some r
      | Some m => if key m <=? key r then Some r else Some m
      end
  end.

(** [ORDER BY RANDOM() LIMIT 1], the choice given by [k]. *)
Definition pick_random {R} (k : nat) (l : list R) : option R :=
  nth_error l (Nat.modulo k (length l)).

(** [UPDATE ... WHERE id = i] *)
Definition update_where_id {R} (key : R -> Z) (i : Z) (f : R -> R) (l : list R) : list R :=
  map (fun r => if key r =? i then f r else r) l.

(** [SELECT ... ORDER BY id DESC] of the rows [l]. *)
Fixpoint insert_desc {R} (key : R -> Z) (r : R) (l : list R) : list R :=
  match l with
  | [] => [r]
  | x :: t => if key x <=? key r then r :: x :: t else x :: insert_desc key r t
  end.

Fixpoint sort_desc {R} (key : R -> Z) (l : list R) : list R :=
  match l with
  | [] => []
  | x :: t => insert_desc key x (sort_desc key t)
  end.

End Store.

Module Updater.
Import Client TicketObj Store.
Local Open Scope string_scope.
Local Open Scope Z_scope.
Local Open Scope list_scope.

(** A row of the [tickets] table of [BatchTicketCategoryUpdater]. *)
Record trow := mkTrow {
  id : Z;
  category : option string;
  sub_category : option string;
  item_category : option string;
  new_category : option string;
  new_sub_category : option string;
  new_item_category : option string;
  update_state : option string;
  request_timestamp : option Z;
  response_status_code : option Z;
  error_message : option string
}.

(** A row of [valid_categories] ([category] is NOT NULL). *)
Record vrow := mkVrow {
  v_category : string;
  v_sub_category : option string;
  v_item_category : option string
}.

(** A row of [category_mappings] ([old_category] is NOT NULL). *)
Record mrow := mkMrow {
  old_category : string;
  old_sub_category : option string;
  old_item_category : option string;
  m_new_category : option string;
  m_new_sub_category : option string;
  m_new_item_category : option string
}.

Record udb := mkUdb {
  tickets : list trow;
  valid_categories : list vrow;
  category_mappings : list mrow
}.

Definition set_state (st : option string) (r : trow) : trow :=
  mkTrow (id r) (category r) (sub_category r) (item_category r)
    (new_category r) (new_sub_category r) (new_item_category r)
    st (request_timestamp r) (response_status_code r) (error_message r).

Definition set_ready (m : mrow) (r : trow) : trow :=
  mkTrow (id r) (category r) (sub_category r) (item_category r)
    (m_new_category m) (m_new_sub_category m) (m_new_item_category m)
    (Some "ready") (request_timestamp r) (response_status_code r) (error_message r).

Definition set_in_progress (now : Z) (r : trow) : trow :=
  mkTrow (id r) (category r) (sub_category r) (item_category r)
    (new_category r) (new_sub_category r) (new_item_category r)
    (Some "in-progress") (Some now) (response_status_code r) (error_message r).

Definition set_outcome (st : string) (status : option Z) (msg : option string) (r : trow) : trow :=
  mkTrow (id r) (category r) (sub_category r) (item_category r)
    (new_category r) (new_sub_category r) (new_item_category r)
    (Some st) (request_timestamp r) status msg.

Definition set_updated (status : option Z) (r : trow) : trow :=
  mkTrow (id r) (category r) (sub_category r) (item_category r)
    (new_category r) (new_sub_category r) (new_item_category r)
    (Some "updated") (request_timestamp r) status (error_message r).

Definition clear_failed (r : trow) : trow :=
  mkTrow (id r) (category r) (sub_category r) (item_category r)
    (new_category r) (new_sub_category r) (new_item_category r)
    None None None None.

(** [validate_category(category, sub_category, item_category)] *)
Definition validate_category (vc : list vrow) (c s i : option string) : bool :=
  if (truthy c && truthy s && truthy i)%bool then
    existsb (fun v => sql_eq (Some (v_category v)) c && sql_eq (v_sub_category v) s
                      && sql_eq (v_item_category v) i)%bool vc
  else if (truthy c && truthy s)%bool then
    existsb (fun v => sql_eq (Some (v_category v)) c && sql_eq (v_sub_category v) s
                      && is_none (v_item_category v))%bool vc
  else if truthy c then
    existsb (fun v => sql_eq (Some (v_category v)) c && is_none (v_sub_category v)
                      && is_none (v_item_category v))%bool vc
  else false.

(** [get_new_category(old_category, old_sub_category, old_item_category)];
    [LIMIT 1] without [ORDER BY] is read as the first match in table
    order. *)
Definition get_new_category (ms : list mrow) (c s i : option string) : option mrow :=
  if (truthy s && truthy i)%bool then
    find (fun m => sql_eq (Some (old_category m)) c && sql_eq (old_sub_category m) s
                   && sql_eq (old_item_category m) i)%bool ms
  else if truthy s then
    find (fun m => sql_eq (Some (old_category m)) c && sql_eq (old_sub_category m) s
                   && is_none (old_item_category m))%bool ms
  else
    find (fun m => sql_eq (Some (old_category m)) c && is_none (old_sub_category m)
                   && is_none (old_item_category m))%bool ms.

(** The [UPDATE] that [prepare] issues for the selected row [t]. *)
Definition prepare_update (vc : list vrow) (ms : list mrow) (t : trow) : trow -> trow :=
  let category_valid := validate_category vc (category t) (sub_category t) (item_category t) in
  let category_empty :=
    (is_none (category t) && is_none (sub_category t) && is_none (item_category t))%bool in
  if (category_valid || category_empty)%bool then set_state (Some "skipped")
  else match get_new_category ms (category t) (sub_category t) (item_category t) with
       | Some m => set_ready m
       | None => set_state (Some "unmapped")
       end.

(** [prepare()]: select the rows with [update_state IS NULL] by descending
    id, then update each one by id. *)
Definition prepare (d : udb) : udb :=
  let selected := sort_desc id (filter (fun r => is_none (update_state r)) (tickets d)) in
  mkUdb
    (fold_left (fun tks t => update_where_id id (id t)
                               (prepare_update (valid_categories d) (category_mappings d) t) tks)
       selected (tickets d))
    (valid_categories d) (category_mappings d).

(** [retry_failed()]: the [UPDATE ... WHERE update_state = 'failed'] and
    its [rowcount]; when it is positive the method then calls [run()]. *)
Definition is_failed (r : trow) : bool := sql_eq (update_state r) (Some "failed").

Definition retry_failed_reset (l : list trow) : list trow * nat :=
  (map (fun r => if is_failed r then clear_failed r else r) l,
   length (filter is_failed l)).

(** The claim predicate of [_fetch_and_lock_next_item]. *)
Definition is_ready (r : trow) : bool := sql_eq (update_state r) (Some "ready").

Definition _fetch_and_lock_next_item (p : proc) (l : list trow) (fe : fetch_env)
  : res (option trow * list trow) :=
  match random_order p with
  | None => Raise (AttributeError "random_order")
  | Some ro =>
      if fe_locked fe then Ok (None, l)
      else
        let ready := filter is_ready l in
        match (if ro then pick_random (fe_rand fe) ready else max_by id ready) with
        | None => Ok (None, l)
        | Some r => Ok (Some r, update_where_id id (id r) (set_in_progress (fe_now fe)) l)
        end
  end.

(** The [ticket_update_payload] of [_perform_api_action]. *)
Definition ticket_update_payload (r : trow) : json :=
  JObj ([("category", jopt (new_category r))] ++
        (if truthy (new_sub_category r) then [("sub_category", jopt (new_sub_category r))] else []) ++
        (if truthy (new_item_category r) then [("item_category", jopt (new_item_category r))] else [])).

(** [self.fs_api.ticket().update(ticket_row['id'], ticket_update_payload)] *)
Definition _perform_api_action (iso : string -> option string) (api : fs_api) (env : Z -> attempt)
  (r : trow) : fs_api * list event * res instance :=
  TicketObj.update iso api env (init_ticket None) [JNum (id r); ticket_update_payload r].

(** Binding an attribute value as an SQL integer parameter; text that is
    not an integer, arrays and objects are outside the column model. *)
Definition sql_int (v : pyval) : res (option Z) :=
  match v with
  | PJson JNull => Ok None
  | PJson (JNum n) => Ok (Some n)
  | PJson (JBool b) => Ok (Some (if b then 1 else 0))
  | PJson (JStr s) => match parse_int s with Some n => Ok (Some n) | None => Raise TypeError end
  | _ => Raise TypeError
  end.

Definition _handle_success (l : list trow) (r : trow) (response : instance) : res (list trow) :=
  st <- getattr response "status_code" ;;
  v <- sql_int st ;;
  Ok (update_where_id id (id r) (set_updated v) l).

Definition _handle_failure (l : list trow) (r : trow) (status : option Z) (msg : option string)
  : list trow :=
  update_where_id id (id r) (set_outcome "failed" status msg) l.

End Updater.

Module Importer.
Import Client TicketObj Store.
Local Open Scope string_scope.
Local Open Scope Z_scope.
Local Open Scope list_scope.

(** A row of the [tickets] table of [BatchTicketImporter]. *)
Record irow := mkIrow {
  id : Z;
  email : option string;
  subject : option string;
  description : option string;
  category : option string;
  sub_category : option string;
  item_category : option string;
  request_timestamp : option Z;
  response_ticket_id : option Z;
  response_status_code : option Z;
  error_message : option string
}.

Definition set_request_timestamp (t : option Z) (r : irow) : irow :=
  mkIrow (id r) (email r) (subject r) (description r) (category r) (sub_category r)
    (item_category r) t (response_ticket_id r) (response_status_code r) (error_message r).

Definition set_response (status : option Z) (msg : option string) (r : irow) : irow :=
  mkIrow (id r) (email r) (subject r) (description r) (category r) (sub_category r)
    (item_category r) (request_timestamp r) (response_ticket_id r) status msg.

Definition clear_response (r : irow) : irow :=
  mkIrow (id r) (email r) (subject r) (description r) (category r) (sub_category r)
    (item_category r) None (response_ticket_id r) None None.

Definition is_unclaimed (r : irow) : bool := is_none (request_timestamp r).

Definition _fetch_and_lock_next_item (p : proc) (l : list irow) (fe : fetch_env)
  : res (option irow * list irow) :=
  match random_order p with
  | None => Raise (AttributeError "random_order")
  | Some ro =>
      if fe_locked fe then Ok (None, l)
      else
        let ready := filter is_unclaimed l in
        match (if ro then pick_random (fe_rand fe) ready else max_by id ready) with
        | None => Ok (None, l)
        | Some r => Ok (Some r, update_where_id id (id r)
                                  (set_request_timestamp (Some (fe_now fe))) l)
        end
  end.

Definition import_payload (r : irow) : json :=
  JObj ([("email", jopt (email r)); ("subject", jopt (subject r));
         ("description", jopt (description r)); ("source", JNum 1002);
         ("category", jopt (category r))] ++
        (if truthy (sub_category r) then [("sub_category", jopt (sub_category r))] else []) ++
        (if truthy (item_category r) then [("item_category", jopt (item_category r))] else [])).

(** [self.fs_api.ticket().create(payload)] *)
Definition _perform_api_action (iso : string -> option string) (api : fs_api) (env : Z -> attempt)
  (r : irow) : fs_api * list event * res instance :=
  TicketObj.create iso api env (init_ticket None) (import_payload r).

(** [_handle_success] first evaluates [response.json()]. No value a
    [Ticket] attribute can hold is callable (JSON data, the client, a
    datetime) and the class defines no [json], so the call raises before
    any [UPDATE]. *)
Definition _handle_success (l : list irow) (r : irow) (response : instance) : res (list irow) :=
  _ <- getattr response "json" ;;
  Raise TypeError.

Definition _handle_failure (l : list irow) (r : irow) (status : option Z) (msg : option string)
  : list irow :=
  update_where_id id (id r) (set_response status msg) l.

(** [BatchTicketImporter.retry_failed]: [WHERE response_status_code IS NOT
    201 AND response_status_code IS NOT NULL], with its [rowcount]. *)
Definition batch_retry_target (r : irow) : bool :=
  match response_status_code r with Some n => negb (n =? 201) | None => false end.

Definition batch_retry_failed_reset (l : list irow) : list irow * nat :=
  (map (fun r => if batch_retry_target r then clear_response r else r) l,
   length (filter batch_retry_target l)).

(** [TicketImporter.retry_failed] of [ticket_importer.py]: [WHERE
    response_status_code IS NOT 201], with its [rowcount] (SQLite counts
    every matched row, changed or not). *)
Definition script_retry_target (r : irow) : bool :=
  match response_status_code r with Some n => negb (n =? 201) | None => true end.

Definition script_retry_failed_reset (l : list irow) : list irow * nat :=
  (map (fun r => if script_retry_target r then clear_response r else r) l,
   length (filter script_retry_target l)).

End Importer.

Module Worker.
Import Client TicketObj Store.
Local Open Scope string_scope.
Local Open Scope Z_scope.
Local Open Scope list_scope.

(** The abstract methods of [BaseBatchProcessor] a strategy implements. *)
Class Strategy (Row : Type) := {
  row_id : Row -> Z;
  fetch_and_lock_next_item : proc -> list Row -> fetch_env -> res (option Row * list Row);
  perform_api_action : fs_api -> (Z -> attempt) -> Row -> fs_api * list event * res instance;
  handle_success : list Row -> Row -> instance -> res (list Row);
  handle_failure : list Row -> Row -> option Z -> option string -> list Row
}.

#[export] Instance updater_strategy (iso : string -> option string) : Strategy Updater.trow := {
  row_id := Updater.id;
  fetch_and_lock_next_item := Updater._fetch_and_lock_next_item;
  perform_api_action := Updater._perform_api_action iso;
  handle_success := Updater._handle_success;
  handle_failure := Updater._handle_failure
}.

#[export] Instance importer_strategy (iso : string -> option string) : Strategy Importer.irow := {
  row_id := Importer.id;
  fetch_and_lock_next_item := Importer._fetch_and_lock_next_item;
  perform_api_action := Importer._perform_api_action iso;
  handle_success := Importer._handle_success;
  handle_failure := Importer._handle_failure
}.

(** Worker-side events, tagged with the worker's index. *)
Inductive wevent :=
| WClaim (worker : nat) (row : Z)
| WHttp (worker : nat) (e : event)
| WHandleSuccess (worker : nat) (row : Z)
| WSucceeded (worker : nat) (row : Z)
| WFailed (worker : nat) (row : Z).

(** Where a worker thread is in [_worker_loop]. *)
Inductive wpc (Row : Type) :=
| AtCheck                                   (* the iteration-limit test *)
| AtFetch                                   (* [_fetch_and_lock_next_item] *)
| AtAct (r : Row)                           (* the [try]/[except] block *)
| AtProgress (r : Row) (status : option Z)  (* [_print_progress] *)
| Finished (outcome : res unit).            (* returned, or raised *)
Arguments AtCheck {Row}.
Arguments AtFetch {Row}.
Arguments AtAct {Row} r.
Arguments AtProgress {Row} r status.
Arguments Finished {Row} outcome.

Record world (Row : Type) := mkWorld {
  w_proc : proc;
  w_db : list Row;
  w_api : fs_api;
  w_log : list wevent
}.
Arguments mkWorld {Row}.
Arguments w_proc {Row}.
Arguments w_db {Row}.
Arguments w_api {Row}.
Arguments w_log {Row}.

(** What the world decides during one step of a worker. *)
Record oracle := mkOracle {
  o_fetch : fetch_env;
  o_http : Z -> attempt
}.

Definition set_count (p : proc) (n : Z) : proc :=
  mkProc n (iteration_limit p) (success_count p) (failure_count p) (random_order p).

Definition bump_success (p : proc) : proc :=
  mkProc (iteration_count p) (iteration_limit p) (success_count p + 1) (failure_count p)
    (random_order p).

Definition bump_failure (p : proc) : proc :=
  mkProc (iteration_count p) (iteration_limit p) (success_count p) (failure_count p + 1)
    (random_order p).

(** [self.iteration_limit and ...]: an [int] limit is truthy unless 0. *)
Definition limit_reached (p : proc) : bool :=
  match iteration_limit p with
  | Some n => negb (n =? 0) && (n <=? iteration_count p)
  | None => false
  end.

(** [e.response.status_code] when the exception carries a response. *)
Definition exc_status (e : exc) : option Z :=
  match e with FreshserviceHTTPError s => Some s | _ => None end.

(** A stand-in for the stored [error_message] ([str(e)] or the response
    body); its text plays no part in the properties below. *)
Definition exc_str (e : exc) : string :=
  match e with
  | AttributeError n => String.append "AttributeError: " n
  | TypeError => "TypeError"
  | ValueError => "ValueError"
  | ZeroDivisionError => "ZeroDivisionError"
  | OperationalError => "OperationalError"
  | FreshserviceHTTPError s => String.append "HTTP " (z_to_string s)
  | FreshserviceRateLimitError => "Max retries reached for 429 errors."
  end.

(** [_print_progress(row_id, status_code)]: it reads
    [self.fs_api.controller.server_ratelimit_remaining]; the rest only
    formats and prints. *)
Definition _print_progress : res unit :=
  _ <- fs_api_getattr "controller" ;; Ok tt.

Section Step.
Context {Row : Type} `{Strat : Strategy Row}.

Definition log_http (i : nat) (tr : list event) : list wevent := map (WHttp i) tr.

(** The [try]/[except] block of one iteration for the claimed row [r]. *)
Definition act (i : nat) (w : world Row) (env : Z -> attempt) (r : Row)
  : world Row * option Z :=
  let '(api', tr, res_resp) := perform_api_action (w_api w) env r in
  let log1 := w_log w ++ log_http i tr in
  let fail (e : exc) (log : list wevent) :=
    (mkWorld (bump_failure (w_proc w))
       (handle_failure (w_db w) r (exc_status e) (Some (exc_str e))) api'
       (log ++ [WFailed i (row_id r)]),
     exc_status e) in
  match res_resp with
  | Raise e => fail e log1
  | Ok response =>
      match getattr response "status_code" with
      | Raise e => fail e log1
      | Ok _ =>
          let log2 := log1 ++ [WHandleSuccess i (row_id r)] in
          match handle_success (w_db w) r response with
          | Raise e => fail e log2
          | Ok db' =>
              (mkWorld (bump_success (w_proc w)) db' api'
                 (log2 ++ [WSucceeded i (row_id r)]),
               match getattr response "status_code" with
               | Ok (PJson (JNum n)) => Some n
               | _ => None
               end)
          end
      end
  end.

(** One atomic step of worker [i]. *)
Definition worker_step (i : nat) (pc : wpc Row) (w : world Row) (o : oracle)
  : wpc Row * world Row :=
  match pc with
  | AtCheck =>
      if limit_reached (w_proc w) then (Finished (Ok tt), w)
      else (AtFetch, mkWorld (set_count (w_proc w) (iteration_count (w_proc w) + 1))
                       (w_db w) (w_api w) (w_log w))
  | AtFetch =>
      match fetch_and_lock_next_item (w_proc w) (w_db w) (o_fetch o) with
      | Raise e => (Finished (Raise e), w)
      | Ok (None, db') => (Finished (Ok tt), mkWorld (w_proc w) db' (w_api w) (w_log w))
      | Ok (Some r, db') =>
          (AtAct r, mkWorld (w_proc w) db' (w_api w) (w_log w ++ [WClaim i (row_id r)]))
      end
  | AtAct r =>
      let '(w', st) := act i w (o_http o) r in (AtProgress r st, w')
  | AtProgress r st =>
      match _print_progress with
      | Raise e => (Finished (Raise e), w)
      | Ok _ => (AtCheck, w)
      end
  | Finished out => (Finished out, w)
  end.

Fixpoint replace_nth {A} (n : nat) (x : A) (l : list A) : list A :=
  match l, n with
  | [], _ => []
  | _ :: t, O => x :: t
  | y :: t, S n' => y :: replace_nth n' x t
  end.

(** Runs the workers along a schedule: each entry names the worker that
    takes the next step and what the world supplies to it. *)
Fixpoint exec (pcs : list (wpc Row)) (w : world Row) (sched : list (nat * oracle))
  : list (wpc Row) * world Row :=
  match sched with
  | [] => (pcs, w)
  | (i, o) :: rest =>
      match nth_error pcs i with
      | Some pc => let '(pc', w') := worker_step i pc w o in
                   exec (replace_nth i pc' pcs) w' rest
      | None => exec pcs w rest
      end
  end.

End Step.

(** The [limit] argument of [run]: [None], an [int], or the [str] the
    command line passes. *)
Inductive limit_arg := LimNone | LimInt (n : Z) | LimStr (s : string).

Definition limit_truthy (l : limit_arg) : bool :=
  match l with
  | LimNone => false
  | LimInt n => negb (n =? 0)
  | LimStr s => negb (String.eqb s "")
  end.

Definition limit_int (l : limit_arg) : res Z :=
  match l with
  | LimNone => Raise TypeError
  | LimInt n => Ok n
  | LimStr s => py_int s
  end.

(** The start of [run(limit, max_workers)]: reset the count, set the
    limit when [limit] is truthy, start [max_workers] workers
    ([ThreadPoolExecutor] refuses 0). *)
Definition run_start {Row} (p : proc) (limit : limit_arg) (max_workers : nat)
  : res (proc * list (wpc Row)) :=
  let p0 := set_count p 0 in
  p1 <- (if limit_truthy limit
         then n <- limit_int limit ;;
              Ok (mkProc (iteration_count p0) (Some n) (success_count p0)
                    (failure_count p0) (random_order p0))
         else Ok p0) ;;
  if Nat.eqb max_workers 0 then Raise ValueError
  else Ok (p1, repeat AtCheck max_workers).

End Worker.

Module RateLimitSpec.
Import RateLimit.
Local Open Scope Q_scope.

(** The admission interval of the normal regime, as the spec states it. *)
Definition spec_required_interval (s : controller) : Q :=
  let eff := (server_ratelimit_remaining s - requests_in_flight s)%Z in
  let multiplier :=
    if (3 * headroom s <? eff)%Z then 1
    else inject_Z (3 * headroom s) / inject_Z (Z.max 1 eff) in
  (60 / inject_Z (server_ratelimit_total s)) * multiplier.

End RateLimitSpec.

Module ClientTrace.
Import Client.
Local Open Scope string_scope.
Local Open Scope Z_scope.
Local Open Scope list_scope.

Definition coordinator_call (e : event) : bool :=
  match e with CallBlockUntilReady | CallUpdateAndNotify _ => true | _ => false end.

Definition is_send (e : event) : bool :=
  match e with Send _ _ _ => true | _ => false end.

Definition count_sends (tr : list event) : nat := length (filter is_send tr).

(** The spec's protocol: every [Send] comes after a [block_until_ready]
    call that no earlier [Send] used up. *)
Fixpoint admitted_before_sends (admitted : bool) (tr : list event) : bool :=
  match tr with
  | [] => true
  | CallBlockUntilReady :: t => admitted_before_sends true t
  | Send _ _ _ :: t => admitted && admitted_before_sends false t
  | _ :: t => admitted_before_sends admitted t
  end.

Definition request_trace (r : fs_api * list event * res json) : list event :=
  snd (fst r).

Definition ok_attempt : attempt :=
  mkAttempt 0 (mkResponse 200 [] (Some (JObj []))) 0.

(** The pause at the top of a pass of [_request]'s loop, taken at time
    [now]: a sleep while the client is marked rate-limited with a
    [retry_after_until] still ahead, nothing otherwise. *)
Definition pending_sleep (api : fs_api) (now : Z) : list event :=
  if rate_limit_hit api then
    match retry_after_until api with
    | Some u => if now <? u then [Sleep (u - now)] else []
    | None => []
    end
  else [].

(** The client state once that pass has cleared the mark. *)
Definition after_pause (api : fs_api) : fs_api :=
  if (rate_limit_hit api && negb (is_none (retry_after_until api)))%bool
  then set_hit_until api false None else api.

End ClientTrace.

Module WorkerTrace.
Import Client TicketObj Store Worker.
Local Open Scope string_scope.
Local Open Scope Z_scope.
Local Open Scope list_scope.

(** Names a fresh [Ticket] can come to hold in its [__dict__] while
    [_hydrate] keeps its own dictionary. *)
Definition hydrate_allowed (k : string) : bool :=
  mem k (keys (init_ticket None)) || mem k ticket_class_attrs.

Definition json_keys (data : json) : list string :=
  match data with JObj kvs => map fst kvs | _ => [] end.

Definition handle_success_entered (l : list wevent) : bool :=
  existsb (fun e => match e with WHandleSuccess _ _ => true | _ => false end) l.

Definition http_sent (l : list wevent) : bool :=
  existsb (fun e => match e with WHttp _ _ => true | _ => false end) l.

Definition default_oracle : oracle :=
  mkOracle (mkFetchEnv 0 false 0)
    (fun _ => mkAttempt 0 (mkResponse 201 [] (Some (JObj []))) 0).

Definition dict_ticket_attempt : attempt :=
  mkAttempt 0
    (mkResponse 201 []
       (Some (JObj [("ticket", JObj [("__dict__", JObj [("status_code", JNum 201)])])])))
    0.

Definition import_row_1 : Importer.irow :=
  Importer.mkIrow 1 (Some "user@example.com") (Some "Printer") (Some "Jammed")
    (Some "Hardware") None None None None None None.

Definition is_claim_of (i : nat) (e : wevent) : bool :=
  match e with WClaim j _ => Nat.eqb i j | _ => false end.

Definition is_claim (e : wevent) : bool :=
  match e with WClaim _ _ => true | _ => false end.

Definition claims_of (i : nat) (l : list wevent) : nat := length (filter (is_claim_of i) l).

Section Generic.
Context {Row : Type}.

(** What a worker's claim count allows at each point of its loop. *)
Definition pc_ok (c : nat) (pc : wpc Row) : Prop :=
  match pc with
  | AtCheck | AtFetch | Finished (Ok _) => c = 0%nat
  | AtAct _ | AtProgress _ _ => c = 1%nat
  | Finished (Raise _) => (c <= 1)%nat
  end.

Definition claims_inv (pcs : list (wpc Row)) (log : list wevent) : Prop :=
  forall i pc, nth_error pcs i = Some pc -> pc_ok (claims_of i log) pc.

End Generic.

End WorkerTrace.

Module StoreSpec.
Import Client TicketObj Store Updater.
Local Open Scope string_scope.
Local Open Scope Z_scope.
Local Open Scope list_scope.

Definition selected (d : udb) : list trow :=
  sort_desc id (filter (fun r => is_none (update_state r)) (tickets d)).

(** NULL-aware equality of nullable text ([IS] in SQLite). *)
Definition opt_eqb (a b : option string) : bool :=
  match a, b with
  | Some x, Some y => String.eqb x y
  | None, None => true
  | _, _ => false
  end.

(** The sub/item part of the key [prepare] looks up: the sub category when
    it is truthy, the item category when both are, NULL otherwise. *)
Definition tail_key (s i : option string) : option string * option string :=
  (if truthy s then s else None, if (truthy s && truthy i)%bool then i else None).

(** Membership of the prefix key in [valid_categories]. *)
Definition valid_by_prefix (vc : list vrow) (c s i : option string) : bool :=
  match c with
  | Some cv =>
      truthy c &&
      existsb (fun v => String.eqb (v_category v) cv
                        && opt_eqb (v_sub_category v) (fst (tail_key s i))
                        && opt_eqb (v_item_category v) (snd (tail_key s i))) vc
  | None => false
  end.

(** The first [category_mappings] row for the prefix key. *)
Definition mapping_by_prefix (ms : list mrow) (c s i : option string) : option mrow :=
  find (fun m => sql_eq (Some (old_category m)) c
                 && opt_eqb (old_sub_category m) (fst (tail_key s i))
                 && opt_eqb (old_item_category m) (snd (tail_key s i))) ms.

(** The classification of one NULL-state row, by prefix keys. *)
Definition classify (vc : list vrow) (ms : list mrow) (r : trow) : trow :=
  if (valid_by_prefix vc (category r) (sub_category r) (item_category r)
      || (is_none (category r) && is_none (sub_category r) && is_none (item_category r)))%bool
  then set_state (Some "skipped") r
  else match mapping_by_prefix ms (category r) (sub_category r) (item_category r) with
       | Some m => set_ready m r
       | None => set_state (Some "unmapped") r
       end.

(** The reading of the claim: the full stored triple is looked up in
    [valid_categories], missing components matched as NULL. *)
Definition triple_valid (vc : list vrow) (c s i : option string) : bool :=
  existsb (fun v => opt_eqb (Some (v_category v)) c && opt_eqb (v_sub_category v) s
                    && opt_eqb (v_item_category v) i) vc.

Definition sample_row (c s i : option string) : trow :=
  mkTrow 1 c s i None None None None None None None.

Definition mapped_to_null_category : udb :=
  mkUdb [sample_row (Some "A") None None] []
    [mkMrow "A" None None None (Some "B") None].

Definition failed_row : trow :=
  mkTrow 1 (Some "A") None None (Some "B") None None (Some "failed")
    (Some 5) (Some 500) (Some "HTTP 500").

Definition claimed_import_row : Importer.irow :=
  Importer.mkIrow 1 (Some "user@example.com") (Some "Printer") (Some "Jammed")
    (Some "Hardware") None None (Some 5) None None None.

End StoreSpec.

Module RateLimitInv.
Import Py RateLimit.
Open Scope Q_scope.

(** The bounds the controller keeps on its counters: no negative number of
    requests in flight, and a probe backoff between 1 and 60 seconds. *)
Definition ctrl_inv (s : controller) : Prop :=
  (0 <= requests_in_flight s)%Z /\ 1 <= probe_wait_seconds s /\
  probe_wait_seconds s <= 60.

(** The controller state a pass of [block_until_ready] continues with. *)
Definition outcome_state (o : bur_outcome) : option controller :=
  match o with
  | Proceed s | WaitTimeout _ s | WaitNotified s | ProbeWait _ s => Some s
  | BurRaise _ => None
  end.

End RateLimitInv.

Module TicketMore.
Import Py Client TicketObj.
Local Open Scope string_scope.
Local Open Scope Z_scope.
Local Open Scope list_scope.

Section Methods.
Variable fromisoformat : string -> option string.
Variables (api : fs_api) (env : Z -> attempt).

(** [Ticket.get()]. *)
Definition get (t : instance) : fs_api * list event * res instance :=
  match id_truthy t with
  | Raise e => (api, [], Raise e)
  | Ok false => (api, [], Raise ValueError)
  | Ok true => request_then_hydrate fromisoformat api env t "GET" None
  end.

(** [Ticket.delete()]: the instance after [self.deleted = True], with the
    decoded response it returns. *)
Definition delete (t : instance) : fs_api * list event * res (instance * json) :=
  match id_truthy t with
  | Raise e => (api, [], Raise e)
  | Ok false => (api, [], Raise ValueError)
  | Ok true =>
      match ticket_path t with
      | Raise e => (api, [], Raise e)
      | Ok path =>
          let '(api', tr, r) := _request api "DELETE" path 5 None env in
          (api', tr,
           response <- r ;;
           t' <- setattr t "deleted" (PJson (JBool true)) ;;
           Ok (t', response))
      end
  end.

End Methods.

(** A ticket whose id came back from the server as the string ["7"]. *)
Definition str_id_ticket : instance :=
  dict_set "id" (PJson (JStr "7")) (init_ticket None).

End TicketMore.

Module WorkerCount.
Import Store Worker WorkerTrace.
Local Open Scope Z_scope.

Definition is_fetching {Row} (pc : wpc Row) : bool :=
  match pc with AtFetch => true | _ => false end.

(** Workers that passed the limit test and have not claimed yet. *)
Definition fetching {Row} (pcs : list (wpc Row)) : nat :=
  length (filter is_fetching pcs).

(** Rows claimed by all workers together. *)
Definition total_claims (l : list wevent) : nat := length (filter is_claim l).

(** The accounting of [iteration_count] under a positive limit [n]: each
    passed limit test is one claim made or one worker about to fetch. *)
Definition limit_inv {Row} (n : Z) (pcs : list (wpc Row)) (w : world Row) : Prop :=
  iteration_limit (w_proc w) = Some n /\ iteration_count (w_proc w) <= n /\
  Z.of_nat (total_claims (w_log w) + fetching pcs) <= iteration_count (w_proc w).

End WorkerCount.

(** The older scripts [ticket_category_updater.py] and [ticket_importer.py]:
    one worker of [TicketCategoryUpdater] or [TicketImporter] running its
    [while True] loop against the table and the client alone. *)
Module Legacy.
Import Client Store Worker.
Local Open Scope Z_scope.
Local Open Scope list_scope.

Record lworld (Row : Type) := mkLWorld {
  lw_proc : proc;
  lw_db : list Row;
  lw_api : fs_api
}.
Arguments mkLWorld {Row}.
Arguments lw_proc {Row}.
Arguments lw_db {Row}.
Arguments lw_api {Row}.

(** How one pass of [while True] ends: [LNext] goes round again, [LBreak]
    leaves the loop, [LRaise] ends the worker with an exception. *)
Inductive lexit := LNext | LBreak | LRaise (e : exc).

(** [self.iteration_limit is not None and self.iteration_count >= self.iteration_limit] *)
Definition legacy_limit_reached (p : proc) : bool :=
  match iteration_limit p with
  | Some n => n <=? iteration_count p
  | None => false
  end.

Section Loop.
Context {Row : Type}.
Variable iteration : lworld Row -> fetch_env -> (Z -> attempt) -> lworld Row * list event * lexit.

(** The [while True] loop, one pass per entry of [os] (what the world
    supplies to that pass); [None] when [os] runs out first. *)
Fixpoint worker_loop (w : lworld Row) (os : list (fetch_env * (Z -> attempt)))
  : lworld Row * list event * option (res unit) :=
  match os with
  | [] => (w, [], None)
  | (fe, env) :: rest =>
      let '(w1, tr1, ex) := iteration w fe env in
      match ex with
      | LBreak => (w1, tr1, Some (Ok tt))
      | LRaise e => (w1, tr1, Some (Raise e))
      | LNext =>
          let '(w2, tr2, out) := worker_loop w1 rest in (w2, tr1 ++ tr2, out)
      end
  end.

End Loop.

End Legacy.

Module LegacyUpdater.
Import Py Client TicketObj Store Updater Worker Legacy.
Local Open Scope string_scope.
Local Open Scope Z_scope.
Local Open Scope list_scope.

(** The first [try] of [_ticket_update_worker]: [BEGIN IMMEDIATE] (it
    raises [OperationalError] when the file stays locked), [SELECT * ...
    WHERE update_state = 'ready' ORDER BY id DESC LIMIT 1], and the claim. *)
Definition claim_next (l : list trow) (fe : fetch_env) : res (option trow * list trow) :=
  if fe_locked fe then Raise OperationalError
  else match max_by id (filter is_ready l) with
       | None => Ok (None, l)
       | Some r => Ok (Some r, update_where_id id (id r) (set_in_progress (fe_now fe)) l)
       end.

(** One pass of the loop of [TicketCategoryUpdater._ticket_update_worker].
    Its [self._print_progress] reads [self.fs_api.controller] first, as the
    batch processor's does: that read is [_print_progress]. *)
Definition worker_iteration (iso : string -> option string) (w : lworld trow) (fe : fetch_env)
  (env : Z -> attempt) : lworld trow * list event * lexit :=
  let p := lw_proc w in
  if legacy_limit_reached p then (w, [], LBreak) else
  let p1 := set_count p (iteration_count p + 1) in
  match claim_next (lw_db w) fe with
  (* [except sqlite3.OperationalError: db.rollback()] leaves [ticket_row]
     at [None], and [ticket_row['new_category']] raises [TypeError]. *)
  | Raise OperationalError => (mkLWorld p1 (lw_db w) (lw_api w), [], LRaise TypeError)
  | Raise e => (mkLWorld p1 (lw_db w) (lw_api w), [], LRaise e)
  | Ok (None, _) => (mkLWorld p1 (lw_db w) (lw_api w), [], LBreak)
  | Ok (Some r, l1) =>
      let '(api', tr, rr) := _perform_api_action iso (lw_api w) env r in
      let fail (e : exc) := (bump_failure p1, _handle_failure l1 r (exc_status e) (Some (exc_str e))) in
      let '(p2, l2) :=
        match rr with
        | Raise e => fail e
        | Ok response =>
            match getattr response "status_code" with
            | Raise e => fail e
            | Ok _ =>
                match _handle_success l1 r response with
                | Raise e => fail e
                | Ok l' => (bump_success p1, l')
                end
            end
        end in
      (mkLWorld p2 l2 api', tr,
       match _print_progress with Raise e => LRaise e | Ok _ => LNext end)
  end.

Definition _ticket_update_worker (iso : string -> option string) :=
  worker_loop (worker_iteration iso).

End LegacyUpdater.

Module LegacyImporter.
Import Py Client TicketObj Store Importer Worker Legacy.
Local Open Scope string_scope.
Local Open Scope Z_scope.
Local Open Scope list_scope.

(** The first [try] of [_ticket_import_worker]: [SELECT * ... WHERE
    request_timestamp IS NULL ORDER BY id DESC LIMIT 1] and the claim. *)
Definition claim_next (l : list irow) (fe : fetch_env) : res (option irow * list irow) :=
  if fe_locked fe then Raise OperationalError
  else match max_by id (filter is_unclaimed l) with
       | None => Ok (None, l)
       | Some r => Ok (Some r, update_where_id id (id r)
                                 (set_request_timestamp (Some (fe_now fe))) l)
       end.

(** One pass of the loop of [TicketImporter._ticket_import_worker]. The
    [try] reads [response.status_code] and then calls [response.json()],
    which is [_handle_success]'s first step. [self._print_progress] reads
    [self.fs_api.controller] first, as in [_ticket_update_worker]. *)
Definition worker_iteration (iso : string -> option string) (w : lworld irow) (fe : fetch_env)
  (env : Z -> attempt) : lworld irow * list event * lexit :=
  let p := lw_proc w in
  if legacy_limit_reached p then (w, [], LBreak) else
  let p1 := set_count p (iteration_count p + 1) in
  match claim_next (lw_db w) fe with
  (* [ticket_row["email"]] on [None] *)
  | Raise OperationalError => (mkLWorld p1 (lw_db w) (lw_api w), [], LRaise TypeError)
  | Raise e => (mkLWorld p1 (lw_db w) (lw_api w), [], LRaise e)
  | Ok (None, _) => (mkLWorld p1 (lw_db w) (lw_api w), [], LBreak)
  | Ok (Some r, l1) =>
      let '(api', tr, rr) := _perform_api_action iso (lw_api w) env r in
      let fail (e : exc) := (bump_failure p1, _handle_failure l1 r (exc_status e) (Some (exc_str e))) in
      let '(p2, l2) :=
        match rr with
        | Raise e => fail e
        | Ok response =>
            match getattr response "status_code" with
            | Raise e => fail e
            | Ok _ =>
                match _handle_success l1 r response with
                | Raise e => fail e
                | Ok l' => (bump_success p1, l')
                end
            end
        end in
      (mkLWorld p2 l2 api', tr,
       match _print_progress with Raise e => LRaise e | Ok _ => LNext end)
  end.

Definition _ticket_import_worker (iso : string -> option string) :=
  worker_loop (worker_iteration iso).

End LegacyImporter.

(** * Theorems *)

Module RateLimitFacts.
Import RateLimit RateLimitSpec.
Open Scope Q_scope.

Lemma Qltb_false_iff (a b : Q) : Qltb a b = false <-> b <= a.
Proof. unfold Qltb. rewrite negb_false_iff. apply Qle_bool_iff. Qed.

Lemma Qltb_true_iff (a b : Q) : Qltb a b = true <-> a < b.
Proof.
  unfold Qltb. rewrite negb_true_iff. split; intro H.
  - apply Qnot_le_lt. intro H'. apply Qle_bool_iff in H'. congruence.
  - destruct (Qle_bool b a) eqn:E; [|reflexivity].
    apply Qle_bool_iff in E. exfalso. apply (Qlt_not_le _ _ H E).
Qed.

(** C8: in the normal regime ([effective_remaining > headroom]) one pass of
    [block_until_ready] admits the caller exactly when no [Retry-After]
    pause is active, the quota total is non-zero, and
    [now - last_request_timestamp >= (60 / limit_total) * multiplier]; on
    admission it increments [requests_in_flight], sets
    [last_request_timestamp] to [now], sets the probe backoff to
    [max(1.0, 60 / limit_total)] and leaves every other field unchanged. *)
Theorem block_until_ready_normal_regime (s : controller) (now : Q)
  (Hnormal : (headroom s < server_ratelimit_remaining s - requests_in_flight s)%Z) :
  (forall s', block_until_ready_step s now = Proceed s' ->
     retry_after_timestamp s <= now /\
     server_ratelimit_total s <> 0%Z /\
     spec_required_interval s <= now - last_request_timestamp s /\
     requests_in_flight s' = (requests_in_flight s + 1)%Z /\
     last_request_timestamp s' = now /\
     probe_wait_seconds s' = py_max 1 (60 / inject_Z (server_ratelimit_total s)) /\
     headroom s' = headroom s /\
     server_ratelimit_remaining s' = server_ratelimit_remaining s /\
     server_ratelimit_total s' = server_ratelimit_total s /\
     retry_after_timestamp s' = retry_after_timestamp s /\
     probe_scheduled s' = probe_scheduled s) /\
  (retry_after_timestamp s <= now ->
   server_ratelimit_total s <> 0%Z ->
   spec_required_interval s <= now - last_request_timestamp s ->
   exists s', block_until_ready_step s now = Proceed s').
Proof.
  unfold block_until_ready_step, spec_required_interval.
  rewrite (Z.mul_comm 3 (headroom s)).
  apply Z.ltb_lt in Hnormal. rewrite Hnormal.
  split.
  - intros s' H.
    destruct (Qltb now (retry_after_timestamp s)) eqn:Ep; [discriminate|].
    destruct (server_ratelimit_total s =? 0)%Z eqn:Et; [discriminate|].
    cbn [last_request_timestamp set_probe_wait] in H.
    match type of H with
    | context [Qltb ?a ?b] => destruct (Qltb a b) eqn:Ei; [discriminate|]
    end.
    injection H as <-.
    apply Qltb_false_iff in Ep. apply Qltb_false_iff in Ei.
    apply Z.eqb_neq in Et.
    repeat split; auto.
  - intros Hp Ht Hi.
    assert (Ep : Qltb now (retry_after_timestamp s) = false)
      by (apply Qltb_false_iff; exact Hp).
    rewrite Ep. apply Z.eqb_neq in Ht. rewrite Ht.
    cbn [last_request_timestamp set_probe_wait].
    match goal with
    | |- context [Qltb ?a ?b] =>
        assert (Ei : Qltb a b = false) by (apply Qltb_false_iff; exact Hi);
        rewrite Ei
    end.
    eexists. reflexivity.
Qed.

(** C7 (code_bug): a malformed [x-ratelimit-remaining] value is not
    ignored: [int()] raises [ValueError] out of [update_and_notify],
    whereas a malformed [Retry-After] is caught and skipped. *)
Theorem update_and_notify_raises_on_bad_remaining :
  update_and_notify (init_controller 10) [("x-ratelimit-remaining", "abc")%string] 0
    = Raise ValueError /\
  update_and_notify (init_controller 10) [("Retry-After", "abc")%string] 0
    = Ok (set_in_flight (init_controller 10) 0, NotifyAll).
Proof. split; vm_compute; reflexivity. Qed.

Lemma block_until_ready_normal_regime_witness :
  (headroom (init_controller 10) <
   server_ratelimit_remaining (init_controller 10) - requests_in_flight (init_controller 10))%Z /\
  exists s', block_until_ready_step (init_controller 10) 10 = Proceed s'.
Proof.
  split; [vm_compute; reflexivity|].
  apply (proj2 (block_until_ready_normal_regime (init_controller 10) 10
                  ltac:(vm_compute; reflexivity))).
  - vm_compute. intros H. discriminate H.
  - vm_compute. intros H. discriminate H.
  - vm_compute. intros H. discriminate H.
Defined.

End RateLimitFacts.

Module ClientFacts.
Import Client ClientTrace.
Local Open Scope string_scope.
Local Open Scope Z_scope.
Local Open Scope list_scope.

Lemma request_loop_trace m u b mr env fuel : forall api attempts tr,
  exists ext,
    request_trace (request_loop m u b mr env fuel api attempts tr) = tr ++ ext /\
    existsb coordinator_call ext = false /\ (count_sends ext <= fuel)%nat.
Proof.
  induction fuel as [|fuel IH]; intros api attempts tr; cbn [request_loop].
  - exists []. rewrite app_nil_r. split; [reflexivity|]. split; [reflexivity|]. cbn; lia.
  - destruct (negb (attempts <=? mr)).
    { exists []. rewrite app_nil_r. split; [reflexivity|]. split; [reflexivity|]. cbn; lia. }
    set (a := env attempts).
    assert (Hpre : exists pre, snd (if (rate_limit_hit api && negb (is_none (retry_after_until api)))%bool then
        (set_hit_until api false None,
          match retry_after_until api with
          | Some u0 => if now_before a <? u0 then tr ++ [Sleep (u0 - now_before a)] else tr
          | None => tr
          end)
        else (api, tr)) = tr ++ pre /\ existsb coordinator_call pre = false /\ count_sends pre = 0%nat).
    { destruct (_ && _)%bool; cbn [snd].
      - destruct (retry_after_until api) as [u0|].
        + destruct (now_before a <? u0).
          * exists [Sleep (u0 - now_before a)]. auto.
          * exists []. rewrite app_nil_r. auto.
        + exists []. rewrite app_nil_r. auto.
      - exists []. rewrite app_nil_r. auto. }
    destruct Hpre as [pre [Hp1 [Hp2 Hp3]]].
    destruct (if (rate_limit_hit api && negb (is_none (retry_after_until api)))%bool then _ else _)
      as [api1 tr1]; cbn [snd] in Hp1; subst tr1.
    set (step := pre ++ [Send m u b]).
    assert (Hs : existsb coordinator_call step = false /\ count_sends step = 1%nat).
    { unfold step, count_sends. rewrite existsb_app, filter_app, length_app.
      unfold count_sends in Hp3. rewrite Hp2, Hp3. auto. }
    destruct Hs as [Hs1 Hs2].
    replace ((tr ++ pre) ++ [Send m u b]) with (tr ++ step)
      by (unfold step; rewrite app_assoc; reflexivity).
    assert (Hdone : forall api' r, exists ext,
      request_trace (api', tr ++ step, r) = tr ++ ext /\
      existsb coordinator_call ext = false /\ (count_sends ext <= S fuel)%nat).
    { intros. exists step. cbn. split; [reflexivity|]. split; [exact Hs1|]. lia. }
    destruct (header_int _ _); [|apply Hdone].
    destruct (header_int _ _); [|apply Hdone].
    destruct (status_code (server_response a) =? 429).
    + destruct (mr <? attempts + 1); [apply Hdone|].
      match goal with
      | |- context [match ?x with Ok _ => _ | Raise _ => _ end] => destruct x
      end; [|apply Hdone].
      match goal with
      | |- context [request_loop _ _ _ _ _ fuel ?ap ?att (tr ++ step)] =>
          destruct (IH ap att (tr ++ step)) as [ext [E1 [E2 E3]]]
      end.
      exists (step ++ ext). rewrite E1, app_assoc. split; [reflexivity|].
      rewrite existsb_app, Hs1, E2. split; [reflexivity|].
      unfold count_sends in *. rewrite filter_app, length_app, Hs2. lia.
    + destruct (_ && _)%bool; [apply Hdone|].
      destruct (_ =? 204); [apply Hdone|].
      destruct (resp_json _); apply Hdone.
Qed.

Lemma pause_eq (api : fs_api) (a : attempt) (tr : list event) :
  (if (rate_limit_hit api && negb (is_none (retry_after_until api)))%bool then
     (set_hit_until api false None,
      match retry_after_until api with
      | Some u => if now_before a <? u then tr ++ [Sleep (u - now_before a)] else tr
      | None => tr
      end)
   else (api, tr)) = (after_pause api, tr ++ pending_sleep api (now_before a)).
Proof.
  unfold after_pause, pending_sleep.
  destruct (rate_limit_hit api), (retry_after_until api) as [u|]; cbn;
    try destruct (now_before a <? u); rewrite ?app_nil_r; reflexivity.
Qed.

Lemma request_loop_extends m u b mr env fuel api attempts tr :
  exists ext, request_trace (request_loop m u b mr env fuel api attempts tr) = tr ++ ext.
Proof.
  destruct (request_loop_trace m u b mr env fuel api attempts tr) as [ext [E _]].
  exists ext. exact E.
Qed.

(** The first pass of the loop always sends, right after the pause. *)
Lemma request_loop_first_send m u b mr env fuel api attempts tr :
  attempts <= mr ->
  exists rest,
    request_trace (request_loop m u b mr env (S fuel) api attempts tr) =
    tr ++ pending_sleep api (now_before (env attempts)) ++ Send m u b :: rest.
Proof.
  intros Ha. cbn [request_loop].
  replace (attempts <=? mr) with true by (symmetry; apply Z.leb_le; exact Ha).
  cbn [negb]. rewrite pause_eq. cbv beta iota.
  set (tr2 := (tr ++ pending_sleep api (now_before (env attempts))) ++ [Send m u b]).
  assert (Hd : forall ext, exists rest, tr2 ++ ext =
     tr ++ pending_sleep api (now_before (env attempts)) ++ Send m u b :: rest).
  { intros ext. exists ext. unfold tr2. rewrite <- !app_assoc. reflexivity. }
  assert (H0 : exists rest, tr2 =
     tr ++ pending_sleep api (now_before (env attempts)) ++ Send m u b :: rest).
  { destruct (Hd []) as [rest E]. rewrite app_nil_r in E. exists rest. exact E. }
  repeat match goal with
         | |- context [match ?x with Ok _ => _ | Raise _ => _ end] => destruct x
         | |- context [match ?x with Some _ => _ | None => _ end] => destruct x
         | |- context [if ?c then _ else _] => destruct c
         end;
    unfold request_trace; cbn [fst snd]; try exact H0;
    match goal with
    | |- context [request_loop _ _ _ _ _ ?f ?ap ?att ?t] =>
        destruct (request_loop_extends m u b mr env f ap att t) as [ext E];
        unfold request_trace in E; rewrite E; apply Hd
    end.
Qed.

(** The first request of [_request] goes out right after the pause. *)
Lemma request_first_send api method path max_retries body env :
  0 <= max_retries ->
  exists rest, request_trace (_request api method path max_retries body env) =
    pending_sleep api (now_before (env 0)) ++ Send method (make_url api path) body :: rest.
Proof.
  intros Hm. unfold _request.
  replace (Z.to_nat (max_retries + 1)) with (S (Z.to_nat max_retries)) by lia.
  exact (request_loop_first_send method (make_url api path) body max_retries env
           (Z.to_nat max_retries) api 0 [] Hm).
Qed.

Lemma admitted_before_sends_unadmitted (tr : list event) :
  existsb coordinator_call tr = false -> (1 <= count_sends tr)%nat ->
  admitted_before_sends false tr = false.
Proof.
  induction tr as [|e tr IH]; [cbn; lia|].
  destruct e; cbn; try discriminate; unfold count_sends in *; cbn; intros H1 H2; auto.
Qed.

(** C1 (code bug): [_request] never calls the rate-limit coordinator
    ([block_until_ready] or [update_and_notify]) on any path. For every
    client state, path, body, server behaviour and [max_retries >= 0], its
    first request goes out right after its own pending [Retry-After] pause
    (if any), and no request it sends was admitted by [block_until_ready]. *)
Theorem request_sends_without_admission api method path max_retries body env
  (Hm : 0 <= max_retries) :
  existsb coordinator_call
    (request_trace (_request api method path max_retries body env)) = false /\
  (exists rest, request_trace (_request api method path max_retries body env) =
     pending_sleep api (now_before (env 0)) ++ Send method (make_url api path) body :: rest) /\
  admitted_before_sends false
    (request_trace (_request api method path max_retries body env)) = false.
Proof.
  destruct (request_first_send api method path max_retries body env Hm) as [rest E3].
  unfold _request in *.
  destruct (request_loop_trace method (make_url api path) body max_retries env
              (Z.to_nat (max_retries + 1)) api 0 []) as [ext [E1 [E2 _]]].
  rewrite E1 in *. cbn [app] in *. rewrite E2.
  split; [reflexivity|]. split; [exists rest; exact E3|].
  apply admitted_before_sends_unadmitted; [exact E2|].
  rewrite E3. unfold count_sends. rewrite filter_app, length_app. cbn. lia.
Qed.

Lemma request_sends_without_admission_witness :
  0 <= 5 /\
  existsb coordinator_call
    (request_trace (_request (init_api "example.freshservice.com") "PUT" "tickets/1" 5
                      (Some (JObj [])) (fun _ => ok_attempt))) = false /\
  (exists rest, request_trace (_request (init_api "example.freshservice.com") "PUT"
                                 "tickets/1" 5 (Some (JObj [])) (fun _ => ok_attempt)) =
     pending_sleep (init_api "example.freshservice.com") (now_before (ok_attempt)) ++
     Send "PUT" (make_url (init_api "example.freshservice.com") "tickets/1")
       (Some (JObj [])) :: rest) /\
  admitted_before_sends false
    (request_trace (_request (init_api "example.freshservice.com") "PUT" "tickets/1" 5
                      (Some (JObj [])) (fun _ => ok_attempt))) = false.
Proof.
  split; [lia|].
  exact (request_sends_without_admission (init_api "example.freshservice.com") "PUT"
           "tickets/1" 5 (Some (JObj [])) (fun _ => ok_attempt) ltac:(lia)).
Defined.

End ClientFacts.

Module WorkerFacts.
Import Client TicketObj Store Worker WorkerTrace.
Local Open Scope string_scope.
Local Open Scope Z_scope.
Local Open Scope list_scope.

Lemma mem_In k l : mem k l = true <-> In k l.
Proof.
  unfold mem. rewrite existsb_exists. split.
  - intros [x [Hx E]]. apply String.eqb_eq in E. subst. exact Hx.
  - intros H. exists k. split; [exact H|]. apply String.eqb_refl.
Qed.

Lemma lookup_keys {A} k (t : list (string * A)) v : lookup k t = Some v -> In k (map fst t).
Proof.
  unfold lookup. destruct (find _ t) as [[k' v']|] eqn:E; [|discriminate].
  intros _. apply find_some in E as [Hin Hk]. cbn in Hk. apply String.eqb_eq in Hk.
  subst. apply (in_map fst) in Hin. exact Hin.
Qed.

Lemma dict_set_keys k v t x : In x (keys (dict_set k v t)) -> x = k \/ In x (keys t).
Proof.
  induction t as [|[k' v'] t IH]; cbn.
  - intros [H|[]]. auto.
  - destruct (String.eqb k k') eqn:E; cbn.
    + apply String.eqb_eq in E. subst. intros [H|H]; auto.
    + intros [H|H]; auto. destruct (IH H); auto.
Qed.

Lemma hydrate_items_keys iso kvs : forall t t',
  existsb (fun k => String.eqb k "__dict__") (map fst kvs) = false ->
  forallb hydrate_allowed (keys t) = true ->
  hydrate_items iso t kvs = Ok t' ->
  forallb hydrate_allowed (keys t') = true.
Proof.
  induction kvs as [|[k v] kvs IH]; intros t t' Hd Ht H.
  - cbn in H. inversion H; subst. exact Ht.
  - cbn [map existsb] in Hd. cbn [hydrate_items] in H.
    apply orb_false_iff in Hd as [Hk Hd]. cbn [fst] in Hk.
    destruct (hasattr t k) eqn:Ha; [|exact (IH _ _ Hd Ht H)].
    destruct (if mem k date_fields then _parse_date iso v else Ok (PJson v)) as [val|e];
      cbn in H; [|discriminate].
    unfold setattr in H.
    destruct (String.eqb k "path"); [discriminate|].
    rewrite Hk in H.
    destruct (String.eqb k "__class__"); [discriminate|].
    destruct (String.eqb k "__weakref__"); [discriminate|].
    cbn in H. apply (IH (dict_set k val t) t' Hd); [|exact H].
    apply forallb_forall. intros x Hx.
    destruct (dict_set_keys _ _ _ _ Hx) as [->|Hx'].
    + unfold hasattr in Ha. unfold hydrate_allowed.
      apply orb_true_iff in Ha as [Ha|Ha].
      * apply mem_In in Ha. apply forallb_forall with (x := k) in Ht; [exact Ht|exact Ha].
      * rewrite Ha. apply orb_true_r.
    + apply forallb_forall with (x := x) in Ht; [exact Ht|exact Hx'].
Qed.

(** After [_hydrate] on a fresh [Ticket], [status_code] is found only if
    the ticket data carried a [__dict__] key. *)
Lemma hydrate_status_code_missing iso data t :
  existsb (fun k => String.eqb k "__dict__") (json_keys (unwrap_ticket data)) = false ->
  _hydrate iso (init_ticket None) data = Ok t ->
  getattr t "status_code" = Raise (AttributeError "status_code").
Proof.
  intros Hd H.
  assert (Hk : forallb hydrate_allowed (keys t) = true).
  { unfold _hydrate in H. destruct (unwrap_ticket data) eqn:E; cbn in Hd;
      try (injection H as <-; reflexivity).
    apply (hydrate_items_keys iso kvs (init_ticket None)); auto. }
  unfold getattr.
  destruct (lookup "status_code" t) eqn:E.
  - apply lookup_keys in E. apply forallb_forall with (x := "status_code") in Hk;
      [|exact E].
    vm_compute in Hk. discriminate.
  - reflexivity.
Qed.

(** C2 (amended): for a claimed row, in both strategies, the iteration
    ends in the [except] branch: [failure_count] goes up by one and
    [success_count] stays. The updater's [_perform_api_action] raises
    [TypeError] before any request ([Ticket.update] receives two positional
    arguments); the importer's returns the hydrated [Ticket], on which
    [status_code] is missing unless the server's ticket data carries a
    [__dict__] key. *)
Theorem worker_iteration_always_fails (iso : string -> option string) (i : nat) :
  (forall (w : world Updater.trow) env r,
     let '(w', st) := act (Strat := updater_strategy iso) i w env r in
     w_log w' = w_log w ++ [WFailed i (Updater.id r)] /\
     failure_count (w_proc w') = failure_count (w_proc w) + 1 /\
     success_count (w_proc w') = success_count (w_proc w) /\
     w_db w' = Updater._handle_failure (w_db w) r None (Some (exc_str TypeError)) /\
     st = None) /\
  (forall (w : world Importer.irow) env r,
     let '(w', st) := act (Strat := importer_strategy iso) i w env r in
     failure_count (w_proc w') = failure_count (w_proc w) + 1 /\
     success_count (w_proc w') = success_count (w_proc w)) /\
  (forall data t,
     existsb (fun k => String.eqb k "__dict__") (json_keys (unwrap_ticket data)) = false ->
     _hydrate iso (init_ticket None) data = Ok t ->
     getattr t "status_code" = Raise (AttributeError "status_code")).
Proof.
  split; [|split].
  - intros w env r. cbn. rewrite app_nil_r. repeat split.
  - intros w env r. unfold act. cbn [perform_api_action importer_strategy].
    destruct (Importer._perform_api_action iso (w_api w) env r) as [[api' tr] rr].
    destruct rr as [response|e]; [|cbn; split; reflexivity].
    destruct (getattr response "status_code"); [|cbn; split; reflexivity].
    change (handle_success (w_db w) r response)
      with (Importer._handle_success (w_db w) r response).
    unfold Importer._handle_success.
    destruct (getattr response "json"); cbn; split; reflexivity.
  - exact (hydrate_status_code_missing iso).
Qed.

(** C2 (counterexample): when the server's ticket data is
    [{"__dict__": {"status_code": 201}}], [_hydrate] rebinds the ticket's
    attribute dictionary, [response.status_code] is found and
    [_handle_success] is entered (where [response.json()] then raises). *)
Lemma importer_enters_handle_success :
  handle_success_entered
    (w_log (fst (act (Strat := importer_strategy (fun s => Some s)) 0
                   (mkWorld init_proc [import_row_1] (init_api "example.freshservice.com") [])
                   (fun _ => dict_ticket_attempt) import_row_1))) = true.
Proof. vm_compute. reflexivity. Qed.

Lemma nth_error_replace_same {A} (l : list A) i x :
  (i < length l)%nat -> nth_error (replace_nth i x l) i = Some x.
Proof.
  revert i. induction l as [|y l IH]; intros [|i] H; cbn in *; try lia; auto.
  apply IH. lia.
Qed.

Lemma nth_error_replace_other {A} (l : list A) i j x :
  i <> j -> nth_error (replace_nth i x l) j = nth_error l j.
Proof.
  revert i j. induction l as [|y l IH]; intros [|i] [|j] H; cbn; auto; try lia.
Qed.

Lemma length_replace_nth {A} (l : list A) i x : length (replace_nth i x l) = length l.
Proof. revert i. induction l; intros [|i]; cbn; auto. Qed.

Lemma claims_of_app i l1 l2 : claims_of i (l1 ++ l2) = (claims_of i l1 + claims_of i l2)%nat.
Proof. unfold claims_of. rewrite filter_app, length_app. reflexivity. Qed.

Lemma claims_of_quiet i l : forallb (fun e => negb (is_claim e)) l = true -> claims_of i l = 0%nat.
Proof.
  induction l as [|e l IH]; cbn; auto. intros H. apply andb_true_iff in H as [He Hl].
  destruct e; cbn in *; try discriminate; auto.
Qed.

Section Generic.
Context {Row : Type} `{Strat : Strategy Row}.

Lemma act_log i w env r :
  exists ext, w_log (fst (act i w env r)) = w_log w ++ ext /\
              forallb (fun e => negb (is_claim e)) ext = true.
Proof.
  unfold act. destruct (perform_api_action (w_api w) env r) as [[api' tr] rr].
  assert (Hh : forallb (fun e => negb (is_claim e)) (log_http i tr) = true).
  { unfold log_http. induction tr; cbn; auto. }
  destruct rr as [response|e].
  2:{ eexists. cbn. rewrite <- app_assoc. split; [reflexivity|].
      rewrite forallb_app, Hh. reflexivity. }
  destruct (getattr response "status_code").
  2:{ eexists. cbn. rewrite <- app_assoc. split; [reflexivity|].
      rewrite forallb_app, Hh. reflexivity. }
  destruct (handle_success (w_db w) r response);
    (eexists; cbn; rewrite <- !app_assoc; split; [reflexivity|];
     rewrite !forallb_app, Hh; reflexivity).
Qed.

Lemma worker_step_claims i pc w o :
  pc_ok (claims_of i (w_log w)) pc ->
  let '(pc', w') := worker_step i pc w o in
  pc_ok (claims_of i (w_log w')) pc' /\
  forall j, j <> i -> claims_of j (w_log w') = claims_of j (w_log w).
Proof.
  intros Hok. destruct pc as [| |r|r st|out]; cbn [worker_step].
  - destruct (limit_reached (w_proc w)); cbn; auto.
  - destruct (fetch_and_lock_next_item (w_proc w) (w_db w) (o_fetch o))
      as [[[r|] db']|e]; cbn [pc_ok w_log] in *.
    + split.
      { rewrite claims_of_app. unfold claims_of at 2. cbn. rewrite Nat.eqb_refl.
        cbn. lia. }
      intros j Hj. rewrite claims_of_app. cbn.
      destruct (Nat.eqb j i) eqn:E; [apply Nat.eqb_eq in E; contradiction|].
      cbn. lia.
    + auto.
    + split; [cbn; lia|auto].
  - destruct (act i w (o_http o) r) as [w' st'] eqn:Ea.
    destruct (act_log i w (o_http o) r) as [ext [E1 E2]].
    rewrite Ea in E1. cbn in E1. cbn. rewrite E1.
    split.
    + rewrite claims_of_app, (claims_of_quiet i ext E2). cbn in Hok. lia.
    + intros j _. rewrite claims_of_app, (claims_of_quiet j ext E2). lia.
  - cbn. cbn in Hok. split; [lia|auto].
  - auto.
Qed.

Lemma exec_claims_inv sched : forall pcs w,
  claims_inv pcs (w_log w) ->
  let '(pcs', w') := exec pcs w sched in claims_inv pcs' (w_log w').
Proof.
  induction sched as [|[i o] sched IH]; intros pcs w Hinv; cbn [exec]; [exact Hinv|].
  destruct (nth_error pcs i) as [pc|] eqn:Ei; [|apply IH, Hinv].
  pose proof (worker_step_claims i pc w o (Hinv i pc Ei)) as Hs.
  destruct (worker_step i pc w o) as [pc' w'].
  destruct Hs as [Hs1 Hs2].
  apply IH. intros j pcj Hj.
  destruct (Nat.eq_dec j i) as [->|Hne].
  - rewrite nth_error_replace_same in Hj.
    + injection Hj as <-. exact Hs1.
    + apply nth_error_Some. congruence.
  - rewrite nth_error_replace_other in Hj by congruence.
    rewrite Hs2 by exact Hne. exact (Hinv j pcj Hj).
Qed.

End Generic.

(** C3 (amended): [_print_progress] always raises [AttributeError] on the
    missing [controller] attribute, and since it runs outside the
    [try]/[except], a worker stops for good after its first row. For any
    strategy, any number of workers, any processor, database and schedule,
    after running the workers each worker has claimed at most one row; a
    worker that ended normally (iteration cap reached or nothing left to
    claim) has claimed none; and a worker that claimed a row is processing
    it, is about to print progress, or has died with an exception. *)
Theorem worker_stops_after_first_row :
  _print_progress = Raise (AttributeError "controller") /\
  forall (Row : Type) (Strat : Strategy Row) (n : nat) (p : proc) (db : list Row)
         (api : fs_api) (sched : list (nat * oracle)),
  let '(pcs', w') := exec (repeat AtCheck n) (mkWorld p db api []) sched in
  forall i pc, nth_error pcs' i = Some pc ->
    (claims_of i (w_log w') <= 1)%nat /\
    (pc = Finished (Ok tt) -> claims_of i (w_log w') = 0%nat) /\
    (claims_of i (w_log w') = 1%nat ->
     match pc with AtAct _ | AtProgress _ _ | Finished (Raise _) => True | _ => False end).
Proof.
  split; [reflexivity|].
  intros Row Strat n p db api sched.
  assert (H0 : claims_inv (Row := Row) (repeat AtCheck n) (w_log (mkWorld p db api []))).
  { intros i pc Hi. apply nth_error_In, repeat_spec in Hi. subst. reflexivity. }
  pose proof (exec_claims_inv sched _ _ H0) as Hinv.
  destruct (exec (repeat AtCheck n) (mkWorld p db api []) sched) as [pcs' w'].
  intros i pc Hi. specialize (Hinv i pc Hi).
  destruct pc as [| |r|r st|[u|e]]; cbn in Hinv; repeat split; intros; try lia;
    try discriminate; auto.
Qed.

(** C3 (counterexample): with a limit of one row and two workers, the
    second worker finds the cap reached and ends normally, without
    processing a row: not every worker thread terminates with an exception. *)
Lemma second_worker_ends_normally :
  match run_start (Row := Updater.trow) init_proc (LimInt 1) 2 with
  | Ok (p1, pcs) =>
      fst (exec (Strat := updater_strategy (fun s => Some s)) pcs
             (mkWorld p1 [] (init_api "example.freshservice.com") [])
             [(0%nat, default_oracle); (1%nat, default_oracle)])
      = [AtFetch; Finished (Ok tt)]
  | Raise _ => False
  end.
Proof. vm_compute. reflexivity. Qed.

(** C5: for a processor as [BaseBatchProcessor.__init__] builds it, the
    claim primitive of both strategies reads the never assigned
    [self.random_order] and raises [AttributeError] before [BEGIN IMMEDIATE]
    for every database state and every outcome of the clock, lock and
    random choice: it neither claims a row nor returns [None], and its
    [except sqlite3.OperationalError] does not catch the error. *)
Theorem fetch_and_lock_raises_on_init_proc :
  (forall db fe, Updater._fetch_and_lock_next_item init_proc db fe
                 = Raise (AttributeError "random_order")) /\
  (forall db fe, Importer._fetch_and_lock_next_item init_proc db fe
                 = Raise (AttributeError "random_order")).
Proof. split; intros db fe; reflexivity. Qed.

End WorkerFacts.

Module StoreFacts.
Import Client TicketObj Store Updater StoreSpec.
Local Open Scope string_scope.
Local Open Scope Z_scope.
Local Open Scope list_scope.

Lemma find_none_not_in (sel : list trow) (x : Z) :
  ~ In x (map id sel) -> find (fun t => id t =? x) sel = None.
Proof.
  induction sel as [|t sel IH]; cbn; auto. intros H.
  destruct (id t =? x) eqn:E; [apply Z.eqb_eq in E; tauto|]. apply IH. tauto.
Qed.

(** Updating by id once per selected row, when the selected ids are
    distinct and the updates keep the id, touches each row with the update
    of the selected row of the same id. *)
Lemma fold_update_where_id (g : trow -> trow -> trow)
  (Hg : forall t r, id (g t r) = id r) :
  forall sel l, NoDup (map id sel) ->
  fold_left (fun tks t => update_where_id id (id t) (g t) tks) sel l =
  map (fun r => match find (fun t => id t =? id r) sel with
                | Some t => g t r | None => r end) l.
Proof.
  induction sel as [|t sel IH]; intros l Hnd; cbn.
  - rewrite map_id. reflexivity.
  - inversion Hnd as [|? ? Hni Hnd']; subst.
    rewrite IH by exact Hnd'. unfold update_where_id. rewrite map_map.
    apply map_ext. intros r.
    destruct (id r =? id t) eqn:E.
    + apply Z.eqb_eq in E. rewrite Hg, E, Z.eqb_refl.
      rewrite find_none_not_in by exact Hni. reflexivity.
    + rewrite Z.eqb_sym, E. reflexivity.
Qed.

Lemma insert_desc_perm {R} (key : R -> Z) r l : Permutation (insert_desc key r l) (r :: l).
Proof.
  induction l as [|x l IH]; cbn; auto.
  destruct (key x <=? key r); auto.
  eapply perm_trans; [apply perm_skip, IH|apply perm_swap].
Qed.

Lemma sort_desc_perm {R} (key : R -> Z) l : Permutation (sort_desc key l) l.
Proof.
  induction l as [|x l IH]; cbn; auto.
  eapply perm_trans; [apply insert_desc_perm|]. auto.
Qed.

Lemma NoDup_map_inj {A B} (f : A -> B) l a b :
  NoDup (map f l) -> In a l -> In b l -> f a = f b -> a = b.
Proof.
  induction l as [|x l IH]; cbn; [tauto|]. intros Hnd Ha Hb Hf.
  inversion Hnd as [|? ? Hni Hnd']; subst.
  destruct Ha as [<-|Ha], Hb as [<-|Hb]; auto.
  - exfalso. apply Hni. rewrite Hf. apply in_map, Hb.
  - exfalso. apply Hni. rewrite <- Hf. apply in_map, Ha.
Qed.

Lemma NoDup_map_filter {A B} (f : A -> B) (P : A -> bool) l :
  NoDup (map f l) -> NoDup (map f (filter P l)).
Proof.
  induction l as [|x l IH]; cbn; auto. intros Hnd.
  inversion Hnd as [|? ? Hni Hnd']; subst.
  destruct (P x); cbn; auto. constructor; auto.
  intros Hin. apply Hni. apply in_map_iff in Hin as [y [Hy Hin]].
  apply filter_In in Hin as [Hin _]. rewrite <- Hy. apply in_map, Hin.
Qed.

Lemma prepare_update_id vc ms t r : id (prepare_update vc ms t r) = id r.
Proof.
  unfold prepare_update.
  destruct (_ || _)%bool; [reflexivity|].
  destruct (get_new_category _ _ _ _); reflexivity.
Qed.

Lemma find_selected (d : udb) r :
  NoDup (map id (tickets d)) -> In r (tickets d) ->
  find (fun t => id t =? id r) (selected d) =
  if is_none (update_state r) then Some r else None.
Proof.
  intros Hnd Hr.
  assert (Hsel : forall t, In t (selected d) <->
                 In t (tickets d) /\ is_none (update_state t) = true).
  { intros t. unfold selected. split; intros H.
    - apply (filter_In (fun r => is_none (update_state r))).
      eapply Permutation_in; [apply sort_desc_perm|exact H].
    - eapply Permutation_in; [apply Permutation_sym, sort_desc_perm|].
      apply filter_In. exact H. }
  destruct (find (fun t => id t =? id r) (selected d)) as [t|] eqn:Ef.
  - apply find_some in Ef as [Ht Hid]. apply Z.eqb_eq in Hid.
    apply Hsel in Ht as [Ht Hn].
    assert (t = r) as -> by (eapply NoDup_map_inj; eauto).
    rewrite Hn. reflexivity.
  - destruct (is_none (update_state r)) eqn:Hn; [|reflexivity].
    exfalso. pose proof (find_none _ _ Ef r (proj2 (Hsel r) (conj Hr Hn))) as H.
    cbn in H. rewrite Z.eqb_refl in H. discriminate.
Qed.

(** [prepare] updates each row whose [update_state] is NULL by
    [prepare_update] of that row, and leaves the others as they are
    ([id] is the primary key). *)
Lemma prepare_tickets (d : udb) :
  NoDup (map id (tickets d)) ->
  tickets (prepare d) =
  map (fun r => if is_none (update_state r)
                then prepare_update (valid_categories d) (category_mappings d) r r
                else r) (tickets d).
Proof.
  intros Hnd. unfold prepare. cbn [tickets].
  rewrite (fold_update_where_id (fun t => prepare_update (valid_categories d) (category_mappings d) t)).
  - apply map_ext_in. intros r Hr. fold (selected d).
    rewrite (find_selected d r Hnd Hr). destruct (is_none (update_state r)); reflexivity.
  - intros. apply prepare_update_id.
  - eapply Permutation_NoDup; [apply Permutation_map, Permutation_sym, sort_desc_perm|].
    apply NoDup_map_filter, Hnd.
Qed.

Lemma existsb_ext {A} (f g : A -> bool) l :
  (forall x, f x = g x) -> existsb f l = existsb g l.
Proof. intros H. induction l as [|x l IH]; cbn; [reflexivity|]. rewrite H, IH. reflexivity. Qed.

Lemma find_ext {A} (f g : A -> bool) l :
  (forall x, f x = g x) -> find f l = find g l.
Proof. intros H. induction l as [|x l IH]; cbn; [reflexivity|]. rewrite H, IH. reflexivity. Qed.

Lemma validate_category_prefix vc c s i :
  validate_category vc c s i = valid_by_prefix vc c s i.
Proof.
  unfold validate_category, valid_by_prefix, tail_key.
  destruct c as [cv|]; [|destruct (truthy s), (truthy i); reflexivity].
  destruct (truthy (Some cv)) eqn:Hc; cbn [andb];
    [|destruct (truthy s), (truthy i); reflexivity].
  destruct (truthy s) eqn:Hs; destruct (truthy i) eqn:Hi; cbn [andb fst snd];
    apply existsb_ext; intros v; cbn [sql_eq];
    destruct s as [sv|]; try discriminate; destruct i as [iv|]; try discriminate;
    destruct (v_sub_category v), (v_item_category v); reflexivity.
Qed.

Lemma get_new_category_prefix ms c s i :
  get_new_category ms c s i = mapping_by_prefix ms c s i.
Proof.
  unfold get_new_category, mapping_by_prefix, tail_key.
  destruct (truthy s) eqn:Hs; destruct (truthy i) eqn:Hi; cbn [andb fst snd];
    apply find_ext; intros m;
    destruct s as [sv|]; try discriminate; destruct i as [iv|]; try discriminate;
    destruct (old_sub_category m), (old_item_category m); reflexivity.
Qed.

Lemma prepare_update_classify vc ms r : prepare_update vc ms r r = classify vc ms r.
Proof.
  unfold prepare_update, classify.
  rewrite validate_category_prefix, get_new_category_prefix.
  destruct (_ || _)%bool; [reflexivity|]. destruct (mapping_by_prefix _ _ _ _); reflexivity.
Qed.

(** C10 (amended): [prepare] rewrites exactly the rows whose
    [update_state] is NULL, each by [classify]. The prefix key is the
    category; then the sub category if it is truthy; then the item category
    if both are truthy; NULL for the rest. A row is [skipped] when all three
    stored components are NULL, or when its category is a non-empty string
    and its prefix key is in [valid_categories]; an empty category is never
    valid. Otherwise it is [ready] with the targets of the first
    [category_mappings] row whose old category equals the stored category
    (the empty string included; a NULL category equals none) and whose old
    sub and item categories match the prefix key. Otherwise it is
    [unmapped]. *)
Theorem prepare_classifies_by_prefix_key (d : udb) (Hnd : NoDup (map id (tickets d))) :
  tickets (prepare d) =
  map (fun r => if is_none (update_state r)
                then classify (valid_categories d) (category_mappings d) r
                else r) (tickets d).
Proof.
  rewrite (prepare_tickets d Hnd). apply map_ext. intros r.
  rewrite prepare_update_classify. reflexivity.
Qed.

Lemma prepare_classifies_by_prefix_key_witness :
  NoDup (map id (tickets (mkUdb [sample_row (Some "A") None (Some "C")]
                                [mkVrow "A" None None] []))) /\
  tickets (prepare (mkUdb [sample_row (Some "A") None (Some "C")] [mkVrow "A" None None] [])) =
  map (fun r => if is_none (update_state r)
                then classify [mkVrow "A" None None] [] r else r)
    [sample_row (Some "A") None (Some "C")].
Proof.
  assert (H : NoDup (map id (tickets (mkUdb [sample_row (Some "A") None (Some "C")]
                                            [mkVrow "A" None None] [])))).
  { simpl. constructor; [simpl; tauto|constructor]. }
  split; [exact H|].
  exact (prepare_classifies_by_prefix_key _ H).
Defined.

(** C10 (counterexample): a row (A, NULL, C) whose triple is not in
    [valid_categories] = [(A, NULL, NULL)], which is not empty and has no
    mapping, is marked [skipped], not [unmapped]. *)
Lemma prepare_skips_row_outside_valid_categories :
  map update_state (tickets (prepare (mkUdb [sample_row (Some "A") None (Some "C")]
                                            [mkVrow "A" None None] [])))
  = [Some "skipped"] /\
  triple_valid [mkVrow "A" None None] (Some "A") None (Some "C") = false.
Proof. vm_compute. split; reflexivity. Qed.

(** C6 (amended): for a row that [prepare] marked [ready] from a NULL
    state, the targets come from the first matching mapping [m], and the
    body that [_perform_api_action] builds always has the key [category]
    with [m]'s new category, NULL included; it has [sub_category] and
    [item_category] exactly when those targets are non-NULL and non-empty;
    it has no other key. *)
Theorem prepared_ready_payload (d : udb) (Hnd : NoDup (map id (tickets d))) (r : trow)
  (Hr : In r (tickets d)) (Hnull : update_state r = None) :
  let r' := prepare_update (valid_categories d) (category_mappings d) r r in
  In r' (tickets (prepare d)) /\ id r' = id r /\
  (update_state r' = Some "ready" ->
   exists m, get_new_category (category_mappings d) (category r) (sub_category r)
               (item_category r) = Some m /\
   ticket_update_payload r' =
   JObj ([("category", jopt (m_new_category m))] ++
         (if truthy (m_new_sub_category m)
          then [("sub_category", jopt (m_new_sub_category m))] else []) ++
         (if truthy (m_new_item_category m)
          then [("item_category", jopt (m_new_item_category m))] else []))).
Proof.
  cbv zeta. split; [|split].
  - rewrite (prepare_tickets d Hnd). apply in_map_iff. exists r.
    rewrite Hnull. split; [reflexivity|exact Hr].
  - apply prepare_update_id.
  - unfold prepare_update.
    destruct (_ || _)%bool; [cbn; discriminate|].
    destruct (get_new_category _ _ _ _) as [m|]; [|cbn; discriminate].
    intros _. exists m. split; reflexivity.
Qed.

Lemma prepared_ready_payload_witness :
  NoDup (map id (tickets mapped_to_null_category)) /\
  In (sample_row (Some "A") None None) (tickets mapped_to_null_category) /\
  update_state (sample_row (Some "A") None None) = None /\
  In (prepare_update [] [mkMrow "A" None None None (Some "B") None]
        (sample_row (Some "A") None None) (sample_row (Some "A") None None))
     (tickets (prepare mapped_to_null_category)).
Proof.
  assert (H1 : NoDup (map id (tickets mapped_to_null_category))).
  { simpl. constructor; [simpl; tauto|constructor]. }
  assert (H2 : In (sample_row (Some "A") None None) (tickets mapped_to_null_category)).
  { simpl. left. reflexivity. }
  split; [exact H1|]. split; [exact H2|]. split; [reflexivity|].
  exact (proj1 (prepared_ready_payload mapped_to_null_category H1 _ H2 eq_refl)).
Defined.

(** C6 (counterexample): a mapping to (NULL, B, NULL) marks the row
    [ready], and the body is [{"category": null, "sub_category": "B"}]:
    the NULL new category is sent. *)
Lemma payload_sends_null_category :
  map update_state (tickets (prepare mapped_to_null_category)) = [Some "ready"] /\
  map ticket_update_payload (tickets (prepare mapped_to_null_category)) =
  [JObj [("category", JNull); ("sub_category", JStr "B")]].
Proof. vm_compute. split; reflexivity. Qed.

(** C9: the updater's [retry_failed] clears exactly the failed rows and
    counts them, but it sets their [update_state] to NULL, which the claim
    predicate of the [run] it then starts never selects ([update_state =
    'ready']): a reset row is not picked again, whatever the order or lock
    outcome. The [retry_failed] of [ticket_importer.py] ([WHERE
    response_status_code IS NOT 201]) also matches a claimed row still
    waiting for its response (status NULL): it clears that row's
    [request_timestamp] and counts it, where the batch importer's version
    leaves it alone and counts nothing. *)
Theorem retry_failed_divergences :
  (forall l, snd (retry_failed_reset l) = length (filter is_failed l) /\
             fst (retry_failed_reset l) =
             map (fun r => if is_failed r then clear_failed r else r) l) /\
  (forall r, is_failed r = true ->
             update_state (clear_failed r) = None /\ is_ready (clear_failed r) = false) /\
  (forall ro fe,
     Updater._fetch_and_lock_next_item (mkProc 0 None 0 0 (Some ro))
       (fst (retry_failed_reset [failed_row])) fe
     = Ok (None, fst (retry_failed_reset [failed_row]))) /\
  Importer.script_retry_failed_reset [claimed_import_row]
    = ([Importer.clear_response claimed_import_row], 1%nat) /\
  Importer.clear_response claimed_import_row <> claimed_import_row /\
  Importer.batch_retry_failed_reset [claimed_import_row] = ([claimed_import_row], 0%nat).
Proof.
  split; [intros l; split; reflexivity|].
  split; [intros r _; split; reflexivity|].
  split; [intros [|] [now locked [|rnd]]; destruct locked; reflexivity|].
  split; [reflexivity|].
  split; [cbn; discriminate|reflexivity].
Qed.

End StoreFacts.

Module RateLimitMore.
Import Py RateLimit RateLimitInv RateLimitFacts.
Open Scope string_scope.
Open Scope Q_scope.

Lemma py_max_1_bounds (x : Q) :
  x <= 60 -> 1 <= py_max 1 x /\ py_max 1 x <= 60.
Proof.
  intro H. unfold py_max. destruct (Qltb 1 x) eqn:E.
  - apply Qltb_true_iff in E. split; [apply Qlt_le_weak; exact E | exact H].
  - split; [apply Qle_refl | unfold Qle; simpl; lia].
Qed.

Lemma base_interval_le (t : Z) : t <> 0%Z -> 60 / inject_Z t <= 60.
Proof.
  intro H. destruct t as [|p|p]; [congruence| |];
    unfold Qle, Qdiv, Qmult, Qinv, inject_Z; simpl; lia.
Qed.

Lemma py_min_double_bounds (w : Q) :
  1 <= w -> 1 <= py_min (w * 2) 60 /\ py_min (w * 2) 60 <= 60.
Proof.
  intro H. unfold py_min. destruct (Qltb 60 (w * 2)) eqn:E.
  - split; unfold Qle; simpl; lia.
  - apply Qltb_false_iff in E. split; [|exact E].
    destruct w as [a b]. unfold Qle, Qmult in *. simpl in *. lia.
Qed.

Lemma update_quota_keeps (s s' : controller) (h : headers) (w : wake) :
  update_quota s h = Ok (s', w) ->
  requests_in_flight s' = requests_in_flight s /\
  probe_wait_seconds s' = probe_wait_seconds s /\
  retry_after_timestamp s' = retry_after_timestamp s /\
  headroom s' = headroom s /\ probe_scheduled s' = probe_scheduled s.
Proof.
  unfold update_quota.
  destruct (hget "x-ratelimit-remaining" h) as [v|];
    [destruct (py_int v) as [n|e]; cbn; [|discriminate]|cbn];
  destruct (hget "x-ratelimit-total" h) as [v'|];
    try (destruct (py_int v') as [n'|e']; cbn; [|discriminate]);
  intro E; cbn in E;
  repeat (match type of E with context [if ?b then _ else _] => destruct b end);
  inversion E; subst; cbn; auto.
Qed.

Lemma in_flight_decrement_nonneg (n : Z) :
  (0 <= (if (n - 1 <? 0)%Z then 0%Z else (n - 1)%Z))%Z.
Proof. destruct (Z.ltb_spec (n - 1) 0); lia. Qed.

(** The controller keeps its bounds: from a state with no negative count of
    requests in flight and a probe backoff between 1 and 60 seconds, every
    pass of [block_until_ready], the probe's resumption after its wait and
    every [update_and_notify] lead to a state within the same bounds. *)
Theorem controller_bounds_preserved (s : controller) (H : ctrl_inv s) :
  (forall now s', outcome_state (block_until_ready_step s now) = Some s' ->
     ctrl_inv s') /\
  (forall now s', probe_resume s now = Some s' -> ctrl_inv s') /\
  (forall h now s' w, update_and_notify s h now = Ok (s', w) -> ctrl_inv s').
Proof.
  destruct H as (H1 & H2 & H3). split; [|split].
  - intros now s'. unfold block_until_ready_step.
    destruct (Qltb now (retry_after_timestamp s)).
    { intro E. inversion E. subst. repeat split; assumption. }
    destruct (server_ratelimit_total s =? 0)%Z eqn:Et; [discriminate|].
    apply Z.eqb_neq in Et.
    destruct (py_max_1_bounds _ (base_interval_le _ Et)) as [B1 B2].
    cbv zeta.
    destruct (headroom s <? _)%Z.
    + destruct (Qltb _ _); intro E; inversion E; subst;
        unfold ctrl_inv; simpl requests_in_flight; simpl probe_wait_seconds;
        (split; [lia | split; assumption]).
    + destruct (_ || _)%bool; intro E; inversion E; subst;
        repeat split; assumption.
  - intros now s'. unfold probe_resume.
    destruct (_ <=? _)%Z; intro E; [|discriminate].
    inversion E; subst.
    unfold ctrl_inv; simpl requests_in_flight; simpl probe_wait_seconds.
    split; [lia|]. apply py_min_double_bounds; exact H2.
  - intros h now s' w. unfold update_and_notify.
    assert (K : ctrl_inv (set_in_flight s
                  (if (requests_in_flight s - 1 <? 0)%Z then 0%Z
                   else (requests_in_flight s - 1)%Z))).
    { split; [apply in_flight_decrement_nonneg | split; assumption]. }
    destruct (hget "Retry-After" h) as [v|];
      [destruct (py_int v) as [n|e]|].
    + intro E. inversion E. subst. exact K.
    + intro E. destruct (update_quota_keeps _ _ _ _ E) as (A & B & _).
      unfold ctrl_inv in *. rewrite A, B. exact K.
    + intro E. destruct (update_quota_keeps _ _ _ _ E) as (A & B & _).
      unfold ctrl_inv in *. rewrite A, B. exact K.
Qed.

Lemma controller_bounds_preserved_witness :
  ctrl_inv (init_controller 5) /\
  (forall now s', outcome_state (block_until_ready_step (init_controller 5) now)
     = Some s' -> ctrl_inv s').
Proof.
  assert (H : ctrl_inv (init_controller 5))
    by (unfold ctrl_inv, init_controller, Qle; simpl; lia).
  split; [exact H|].
  exact (proj1 (controller_bounds_preserved (init_controller 5) H)).
Defined.

(** A response whose [Retry-After] header holds an integer [n] pauses the
    fresh passes of [block_until_ready], but not a probe already waiting:
    whatever the [x-ratelimit-*] headers say, [update_and_notify] sets the
    remaining quota to 0 and the pause to [now + n] and wakes every waiter;
    every pass of the loop of [block_until_ready] that starts before
    [now + n] waits out the rest of the pause; but a probe that resumes
    from its wait (woken by this [notify_all]), with a non-negative
    headroom, is admitted at any time [t], pause or not, because its
    re-check reads only the quota and the requests in flight. *)
Theorem retry_after_pauses_admission (s : controller) (h : headers) (now : Q)
    (v : string) (n : Z) :
  hget "Retry-After" h = Some v -> py_int v = Ok n ->
  exists s', update_and_notify s h now = Ok (s', NotifyAll) /\
    server_ratelimit_remaining s' = 0%Z /\
    retry_after_timestamp s' = now + inject_Z n /\
    (forall t, t < now + inject_Z n ->
      block_until_ready_step s' t = WaitTimeout (now + inject_Z n - t) s') /\
    ((0 <= headroom s)%Z -> forall t, exists s'',
      probe_resume s' t = Some s'' /\
      requests_in_flight s'' = (requests_in_flight s' + 1)%Z /\
      retry_after_timestamp s'' = now + inject_Z n).
Proof.
  intros Hh Hv. unfold update_and_notify. rewrite Hh, Hv.
  eexists. split; [reflexivity|]. split; [reflexivity|]. split; [reflexivity|].
  split.
  2:{ intros Hr t. unfold probe_resume. cbn.
      match goal with
      | |- context [if (?a <=? ?b)%Z then _ else _] =>
          replace (a <=? b)%Z with true
            by (symmetry; apply Z.leb_le; destruct (Z.ltb_spec (requests_in_flight s - 1) 0); cbn; lia)
      end.
      eexists. split; [reflexivity|]. split; reflexivity. }
  intros t Ht. unfold block_until_ready_step at 1.
  match goal with
  | |- context [Qltb t (retry_after_timestamp ?S)] =>
      assert (E : Qltb t (retry_after_timestamp S) = true)
        by (apply Qltb_true_iff; exact Ht)
  end.
  rewrite E. reflexivity.
Qed.

Lemma retry_after_pauses_admission_witness :
  exists s', update_and_notify (init_controller 5)
    [("x-ratelimit-remaining", "abc"); ("retry-after", "30")] 100
    = Ok (s', NotifyAll) /\
  server_ratelimit_remaining s' = 0%Z /\
  retry_after_timestamp s' = 100 + inject_Z 30 /\
  (forall t, t < 100 + inject_Z 30 ->
    block_until_ready_step s' t = WaitTimeout (100 + inject_Z 30 - t) s') /\
  ((0 <= headroom (init_controller 5))%Z -> forall t, exists s'',
    probe_resume s' t = Some s'' /\
    requests_in_flight s'' = (requests_in_flight s' + 1)%Z /\
    retry_after_timestamp s'' = 100 + inject_Z 30).
Proof.
  apply (retry_after_pauses_admission (init_controller 5)
           [("x-ratelimit-remaining", "abc"); ("retry-after", "30")] 100 "30" 30);
    vm_compute; reflexivity.
Defined.

(** A response carrying [x-ratelimit-total: 0] stores a quota total of 0;
    from then on, once any [Retry-After] pause is over, every pass of
    [block_until_ready] raises [ZeroDivisionError] (until a later response
    sets a non-zero total). *)
Theorem zero_total_header_stops_admission (s : controller) (now : Q) :
  exists s' w,
    update_and_notify s [("x-ratelimit-total", "0")] now = Ok (s', w) /\
    server_ratelimit_total s' = 0%Z /\
    forall t, retry_after_timestamp s <= t ->
      block_until_ready_step s' t = BurRaise ZeroDivisionError.
Proof.
  unfold update_and_notify, update_quota.
  hget_simpl. cbn. change (py_int "0") with (@Ok Z 0%Z). cbn.
  repeat (match goal with |- context [if ?b then _ else _] => destruct b end);
  (eexists _, _; split; [reflexivity|]; split; [reflexivity|]);
  intros t Ht; unfold block_until_ready_step; cbn;
  apply Qltb_false_iff in Ht; rewrite Ht; reflexivity.
Qed.

(** At most one caller probes: a pass of [block_until_ready] that makes its
    caller the probe (in the low-quota regime) waits [probe_wait_seconds] and
    marks the probe as scheduled; from that state every other caller either
    waits for a notification or waits out a [Retry-After] pause, and none is
    admitted. *)
Theorem single_probe (s : controller) (now w : Q) (s1 : controller) :
  block_until_ready_step s now = ProbeWait w s1 ->
  w = probe_wait_seconds s /\ probe_scheduled s1 = true /\
  forall t, block_until_ready_step s1 t = WaitNotified s1 \/
            exists d, block_until_ready_step s1 t = WaitTimeout d s1.
Proof.
  unfold block_until_ready_step at 1.
  destruct (Qltb now (retry_after_timestamp s)); [discriminate|].
  destruct (server_ratelimit_total s =? 0)%Z eqn:Et; [discriminate|].
  cbv zeta.
  destruct (headroom s <? _)%Z eqn:Eh.
  { destruct (Qltb _ _); discriminate. }
  destruct (_ || _)%bool; [discriminate|].
  intro E; inversion E; subst. split; [reflexivity|]. split; [reflexivity|].
  intro t. unfold block_until_ready_step.
  destruct (Qltb t _); [right; eexists; reflexivity|].
  left. cbn. rewrite Et, Eh, orb_true_r. reflexivity.
Qed.

Lemma single_probe_witness :
  block_until_ready_step (set_remaining (init_controller 5) 3) 0 = ProbeWait 1 (set_probe_scheduled (set_remaining (init_controller 5) 3) true) /\
  (1 = probe_wait_seconds (set_remaining (init_controller 5) 3) /\
   probe_scheduled (set_probe_scheduled (set_remaining (init_controller 5) 3) true) = true /\
   forall t, block_until_ready_step (set_probe_scheduled (set_remaining (init_controller 5) 3) true) t = WaitNotified (set_probe_scheduled (set_remaining (init_controller 5) 3) true) \/
             exists d, block_until_ready_step (set_probe_scheduled (set_remaining (init_controller 5) 3) true) t = WaitTimeout d (set_probe_scheduled (set_remaining (init_controller 5) 3) true)).
Proof.
  assert (H : block_until_ready_step (set_remaining (init_controller 5) 3) 0 = ProbeWait 1 (set_probe_scheduled (set_remaining (init_controller 5) 3) true))
    by (vm_compute; reflexivity).
  split; [exact H|].
  exact (single_probe (set_remaining (init_controller 5) 3) 0 1 (set_probe_scheduled (set_remaining (init_controller 5) 3) true) H).
Defined.

End RateLimitMore.

Module ClientMore.
Import Py Client ClientTrace ClientFacts.
Local Open Scope string_scope.
Local Open Scope Z_scope.
Local Open Scope list_scope.

Lemma count_sends_app (a b : list event) :
  count_sends (a ++ b) = (count_sends a + count_sends b)%nat.
Proof. unfold count_sends. rewrite filter_app, length_app. reflexivity. Qed.

Lemma request_loop_all_429 (method url : string) (body : option json) (mr : Z)
    (env : Z -> attempt) :
  (forall k, status_code (server_response (env k)) = 429 /\
             resp_headers (server_response (env k)) = []) ->
  forall fuel api attempts tr api' tr' r,
  Z.of_nat fuel = mr + 1 - attempts ->
  request_loop method url body mr env fuel api attempts tr = (api', tr', r) ->
  r = Raise FreshserviceRateLimitError /\
  count_sends tr' = (count_sends tr + fuel)%nat.
Proof.
  intros H fuel. induction fuel as [|f IH]; intros api attempts tr api' tr' r Hf E.
  - cbn in E. inversion E; subst. split; [reflexivity | lia].
  - simpl in E. destruct (H attempts) as [Hs Hh]. rewrite Hs, Hh in E.
    assert (Hle : (attempts <=? mr) = true) by (apply Z.leb_le; lia).
    rewrite Hle in E. simpl in E.
    destruct (retry_after_until api) as [u|];
    repeat (match type of E with context [if ?b then _ else _] => destruct b eqn:? end);
    repeat match goal with
           | Hb : (_ <? _) = true |- _ => apply Z.ltb_lt in Hb
           | Hb : (_ <? _) = false |- _ => apply Z.ltb_ge in Hb
           end;
    (match type of E with
     | (_, _, _) = _ =>
         inversion E; subst; split; [reflexivity|];
         rewrite ?count_sends_app; cbn; lia
     | _ =>
         apply IH in E; [|lia];
         destruct E as [E1 E2]; split; [exact E1|];
         rewrite E2, ?count_sends_app; cbn; lia
     end).
Qed.

Lemma header_int_raise (k : string) (h : headers) (e : exc) :
  header_int k h = Raise e -> e = ValueError.
Proof.
  unfold header_int, py_int. destruct (hget k h); [|discriminate].
  destruct (parse_int s); congruence.
Qed.

Lemma py_int_truthy (v : string) (n : Z) : py_int v = Ok n -> truthy (Some v) = true.
Proof. intro H. destruct v; [discriminate|reflexivity]. Qed.

(** When every response is a 429 without headers, [_request] gives up with
    [FreshserviceRateLimitError] after sending the request exactly
    [max_retries + 1] times (and never, for a negative [max_retries]). *)
Theorem request_gives_up_after_retries (api : fs_api) (method path : string)
    (max_retries : Z) (body : option json) (env : Z -> attempt) :
  (forall k, status_code (server_response (env k)) = 429 /\
             resp_headers (server_response (env k)) = []) ->
  let '(_, tr, r) := _request api method path max_retries body env in
  r = Raise FreshserviceRateLimitError /\
  count_sends tr = Z.to_nat (max_retries + 1).
Proof.
  intro H. unfold _request.
  destruct (request_loop _ _ _ _ _ _ _ _ _) as [[api' tr'] r] eqn:E.
  destruct (Z_lt_le_dec (max_retries + 1) 0) as [Hn|Hn].
  - replace (Z.to_nat (max_retries + 1)) with 0%nat in * by lia.
    cbn in E. inversion E; subst. split; reflexivity.
  - apply (request_loop_all_429 _ _ _ _ _ H) in E; [|rewrite Z2Nat.id; lia].
    destruct E as [E1 E2]. split; [exact E1|]. rewrite E2. reflexivity.
Qed.

Lemma request_gives_up_after_retries_witness :
  (forall k, status_code (server_response
       ((fun _ : Z => mkAttempt 0 (mkResponse 429 [] None) 0) k)) = 429 /\
     resp_headers (server_response
       ((fun _ : Z => mkAttempt 0 (mkResponse 429 [] None) 0) k)) = []) /\
  let '(_, tr, r) := _request (init_api "acme.freshservice.com") "GET" "tickets/1"
                       2 None (fun _ : Z => mkAttempt 0 (mkResponse 429 [] None) 0) in
  r = Raise FreshserviceRateLimitError /\ count_sends tr = Z.to_nat (2 + 1).
Proof.
  assert (H : forall k, status_code (server_response
       ((fun _ : Z => mkAttempt 0 (mkResponse 429 [] None) 0) k)) = 429 /\
     resp_headers (server_response
       ((fun _ : Z => mkAttempt 0 (mkResponse 429 [] None) 0) k)) = [])
    by (intro k; split; reflexivity).
  split; [exact H|].
  exact (request_gives_up_after_retries (init_api "acme.freshservice.com") "GET"
           "tickets/1" 2 None _ H).
Defined.

Lemma after_pause_marked (a : fs_api) (u : Z) :
  after_pause (set_hit_until a true (Some u)) =
  set_hit_until (set_hit_until a true (Some u)) false None.
Proof. reflexivity. Qed.

Lemma pending_sleep_marked (a : fs_api) (u now : Z) :
  pending_sleep (set_hit_until a true (Some u)) now =
  if now <? u then [Sleep (u - now)] else [].
Proof. reflexivity. Qed.

(** A client or server error other than 429 is not retried: when the first
    response has a status in [400, 600) other than 429 and well-formed quota
    headers, [_request] sends the request once (after the pause still
    pending from an earlier 429, if any) and raises [FreshserviceHTTPError]
    with that status. *)
Theorem request_http_error_not_retried (api : fs_api) (method path : string)
    (max_retries : Z) (body : option json) (env : Z -> attempt) (t r : Z) :
  0 <= max_retries ->
  400 <= status_code (server_response (env 0)) < 600 ->
  status_code (server_response (env 0)) <> 429 ->
  header_int "x-ratelimit-total" (resp_headers (server_response (env 0))) = Ok t ->
  header_int "x-ratelimit-remaining" (resp_headers (server_response (env 0))) = Ok r ->
  let '(_, tr, res) := _request api method path max_retries body env in
  res = Raise (FreshserviceHTTPError (status_code (server_response (env 0)))) /\
  tr = pending_sleep api (now_before (env 0)) ++ [Send method (make_url api path) body].
Proof.
  intros Hm Hs H429 Ht Hr. unfold _request.
  replace (Z.to_nat (max_retries + 1)) with (S (Z.to_nat max_retries)) by lia.
  cbn [request_loop].
  replace (0 <=? max_retries) with true by (symmetry; apply Z.leb_le; lia).
  cbn [negb]. rewrite pause_eq. cbv beta iota. rewrite Ht, Hr.
  replace (status_code (server_response (env 0)) =? 429) with false
    by (symmetry; apply Z.eqb_neq; exact H429).
  replace ((400 <=? status_code (server_response (env 0))) &&
           (status_code (server_response (env 0)) <? 600))%bool with true
    by (symmetry; apply andb_true_iff; split; [apply Z.leb_le | apply Z.ltb_lt]; lia).
  split; reflexivity.
Qed.

Lemma request_http_error_not_retried_witness :
  let api := mkApi "https://acme.freshservice.com/api/v2" None None true (Some 20) in
  let env := fun _ : Z =>
    mkAttempt 10 (mkResponse 404 [("X-RateLimit-Total", "160")] None) 10 in
  let '(_, tr, res) := _request api "PUT" "tickets/7" 5 None env in
  res = Raise (FreshserviceHTTPError 404) /\
  tr = [Sleep 10; Send "PUT" "https://acme.freshservice.com/api/v2/tickets/7" None].
Proof.
  intros api env.
  exact (request_http_error_not_retried api "PUT" "tickets/7" 5 None env 160 0
    ltac:(lia) ltac:(cbn; lia) ltac:(cbn; lia)
    ltac:(vm_compute; reflexivity) ltac:(vm_compute; reflexivity)).
Defined.

(** A malformed [x-ratelimit-total] or [x-ratelimit-remaining] header makes
    [_request] raise [ValueError] right after the first request was sent
    (after the pause still pending from an earlier 429, if any), whatever
    the status of the response, even a success. *)
Theorem request_malformed_quota_header (api : fs_api) (method path : string)
    (max_retries : Z) (body : option json) (env : Z -> attempt) :
  0 <= max_retries ->
  header_int "x-ratelimit-total" (resp_headers (server_response (env 0))) = Raise ValueError \/
  header_int "x-ratelimit-remaining" (resp_headers (server_response (env 0))) = Raise ValueError ->
  let '(_, tr, res) := _request api method path max_retries body env in
  res = Raise ValueError /\
  tr = pending_sleep api (now_before (env 0)) ++ [Send method (make_url api path) body].
Proof.
  intros Hm Hbad. unfold _request.
  replace (Z.to_nat (max_retries + 1)) with (S (Z.to_nat max_retries)) by lia.
  cbn [request_loop].
  replace (0 <=? max_retries) with true by (symmetry; apply Z.leb_le; lia).
  cbn [negb]. rewrite pause_eq. cbv beta iota.
  destruct (header_int "x-ratelimit-total" _) as [t|e] eqn:Et.
  - destruct Hbad as [Hbad|Hbad]; [discriminate|]. rewrite Hbad. split; reflexivity.
  - apply header_int_raise in Et. subst e. split; reflexivity.
Qed.

Lemma request_malformed_quota_header_witness :
  let api := mkApi "https://acme.freshservice.com/api/v2" None None true (Some 20) in
  let env := fun _ : Z => mkAttempt 10
    (mkResponse 200 [("X-RateLimit-Remaining", "n/a")] (Some (JObj []))) 10 in
  let '(_, tr, res) := _request api "GET" "tickets/7" 5 None env in
  res = Raise ValueError /\
  tr = [Sleep 10; Send "GET" "https://acme.freshservice.com/api/v2/tickets/7" None].
Proof.
  intros api env.
  exact (request_malformed_quota_header api "GET" "tickets/7" 5 None env
    ltac:(lia) ltac:(right; vm_compute; reflexivity)).
Defined.

(** A 429 carrying [Retry-After: n] is retried after the pause: when the
    429 and the next response have well-formed quota headers and the next
    response is a success with a JSON body, [_request] sends the request
    (after the pause still pending from an earlier 429, if any), sleeps
    until [n] seconds after the 429 arrived, sends it again and returns the
    body, and it leaves the client no longer marked as rate-limited. *)
Theorem request_honours_retry_after (api : fs_api) (method path : string)
    (max_retries : Z) (body : option json) (env : Z -> attempt)
    (v : string) (n : Z) (j : json) (t0 r0 t1 r1 : Z) :
  1 <= max_retries ->
  status_code (server_response (env 0)) = 429 ->
  header_int "x-ratelimit-total" (resp_headers (server_response (env 0))) = Ok t0 ->
  header_int "x-ratelimit-remaining" (resp_headers (server_response (env 0))) = Ok r0 ->
  hget "Retry-After" (resp_headers (server_response (env 0))) = Some v ->
  py_int v = Ok n ->
  status_code (server_response (env 1)) <> 429 ->
  ~ (400 <= status_code (server_response (env 1)) < 600) ->
  status_code (server_response (env 1)) <> 204 ->
  header_int "x-ratelimit-total" (resp_headers (server_response (env 1))) = Ok t1 ->
  header_int "x-ratelimit-remaining" (resp_headers (server_response (env 1))) = Ok r1 ->
  resp_json (server_response (env 1)) = Some j ->
  now_before (env 1) < now_after (env 0) + n ->
  let '(api', tr, r) := _request api method path max_retries body env in
  r = Ok j /\
  tr = pending_sleep api (now_before (env 0)) ++
       [Send method (make_url api path) body;
        Sleep (now_after (env 0) + n - now_before (env 1));
        Send method (make_url api path) body] /\
  rate_limit_hit api' = false /\ retry_after_until api' = None.
Proof.
  intros Hm S0 T0 R0 Hv Hn S1 E1 N1 T1 R1 J1 Hlt. unfold _request.
  replace (Z.to_nat (max_retries + 1)) with (S (S (Z.to_nat (max_retries - 1)))) by lia.
  cbn [request_loop].
  replace (0 <=? max_retries) with true by (symmetry; apply Z.leb_le; lia).
  cbn [negb]. rewrite pause_eq. cbv beta iota. rewrite T0, R0, S0. cbn [Z.eqb Pos.eqb].
  replace (max_retries <? 0 + 1) with false by (symmetry; apply Z.ltb_ge; lia).
  rewrite Hv. rewrite (py_int_truthy _ _ Hn). rewrite Hn.
  replace (0 + 1 <=? max_retries) with true by (symmetry; apply Z.leb_le; lia).
  cbn [negb]. rewrite pause_eq. cbv beta iota. change (0 + 1) with 1.
  rewrite after_pause_marked, pending_sleep_marked.
  replace (now_before (env 1) <? now_after (env 0) + n) with true
    by (symmetry; apply Z.ltb_lt; exact Hlt).
  rewrite T1, R1.
  replace (status_code (server_response (env 1)) =? 429) with false
    by (symmetry; apply Z.eqb_neq; exact S1).
  replace ((400 <=? status_code (server_response (env 1))) &&
           (status_code (server_response (env 1)) <? 600))%bool with false
    by (symmetry; apply andb_false_iff;
        destruct (Z_lt_le_dec (status_code (server_response (env 1))) 400);
        [left; apply Z.leb_gt; lia | right; apply Z.ltb_ge; lia]).
  replace (status_code (server_response (env 1)) =? 204) with false
    by (symmetry; apply Z.eqb_neq; exact N1).
  rewrite J1. cbn -[pending_sleep]. rewrite <- !app_assoc. repeat split.
Qed.

Lemma request_honours_retry_after_witness :
  let env := fun k : Z =>
    if k =? 0 then mkAttempt 0 (mkResponse 429 [("retry-after", "30");
                                                 ("X-RateLimit-Remaining", "0")] None) 10
    else mkAttempt 12 (mkResponse 200 [("X-RateLimit-Total", "160")] (Some (JObj []))) 12 in
  let '(api', tr, r) :=
    _request (init_api "acme.freshservice.com") "GET" "tickets/7" 5 None env in
  r = Ok (JObj []) /\
  tr = [Send "GET" "https://acme.freshservice.com/api/v2/tickets/7" None;
        Sleep 28;
        Send "GET" "https://acme.freshservice.com/api/v2/tickets/7" None] /\
  rate_limit_hit api' = false /\ retry_after_until api' = None.
Proof.
  intro env.
  exact (request_honours_retry_after (init_api "acme.freshservice.com") "GET"
           "tickets/7" 5 None env "30" 30 (JObj []) 0 0 160 0
           ltac:(lia) eq_refl ltac:(vm_compute; reflexivity) ltac:(vm_compute; reflexivity)
           ltac:(vm_compute; reflexivity) ltac:(vm_compute; reflexivity)
           ltac:(cbn; lia) ltac:(cbn; lia) ltac:(cbn; lia)
           ltac:(vm_compute; reflexivity) ltac:(vm_compute; reflexivity) eq_refl
           ltac:(cbn; lia)).
Defined.

End ClientMore.

Module TicketFacts.
Import Py Client ClientTrace TicketObj TicketMore WorkerFacts.
Local Open Scope string_scope.
Local Open Scope Z_scope.
Local Open Scope list_scope.

(** What [_to_payload] never sends: every entry of the payload comes from
    an attribute of the instance, and none has an excluded key, a key
    starting with an underscore or a [None] value. *)
Theorem to_payload_filters (t : instance) :
  Forall (fun kj => mem (fst kj) payload_exclude = false /\
                    starts_with_underscore (fst kj) = false /\
                    snd kj <> JNull /\ In (fst kj) (keys t))
         (_to_payload t).
Proof.
  induction t as [|[k v] t IH]; [constructor|].
  change (keys ((k, v) :: t)) with (k :: keys t). cbn [_to_payload].
  assert (W : Forall (fun kj => mem (fst kj) payload_exclude = false /\
                    starts_with_underscore (fst kj) = false /\
                    snd kj <> JNull /\ (k = fst kj \/ In (fst kj) (keys t)))
                (_to_payload t)).
  { eapply Forall_impl; [|exact IH]. cbn. intros kj (A & B & C & D). auto. }
  destruct (mem k payload_exclude || starts_with_underscore k)%bool eqn:E; [exact W|].
  apply orb_false_iff in E as [E1 E2].
  destruct v as [j| |s|n]; [destruct j| | |]; try exact W;
    constructor; cbn; auto; repeat split; auto; discriminate.
Qed.

Lemma lookup_payload_absent (t : instance) (k : string) :
  ~ In k (keys t) -> lookup k (_to_payload t) = None.
Proof.
  intro H. unfold lookup.
  destruct (find _ (_to_payload t)) as [[k' j]|] eqn:E; [|reflexivity].
  apply find_some in E as [Hin Hk]. cbn in Hk. apply String.eqb_eq in Hk. subst k'.
  pose proof (to_payload_filters t) as F. rewrite Forall_forall in F.
  destruct (F _ Hin) as (_ & _ & _ & Hk). contradiction.
Qed.

Lemma lookup_cons_other {A} (k k' : string) (a : A) (l : list (string * A)) :
  String.eqb k k' = false -> lookup k ((k', a) :: l) = lookup k l.
Proof.
  intro H. unfold lookup. cbn. rewrite String.eqb_sym, H. reflexivity.
Qed.

Lemma lookup_payload_dict_set (t : instance) (k : string) (v : json) :
  NoDup (keys t) -> mem k payload_exclude = false ->
  starts_with_underscore k = false ->
  lookup k (_to_payload (dict_set k (PJson v) t)) =
    match v with JNull => None | _ => Some v end.
Proof.
  intros Hnd Hx Hu. induction t as [|[k' v'] t IH]; cbn [dict_set _to_payload].
  - rewrite Hx, Hu. cbn [orb].
    destruct v; try reflexivity; unfold lookup; cbn; rewrite String.eqb_refl; reflexivity.
  - inversion Hnd as [|? ? Hnot Hnd']; subst.
    destruct (String.eqb k k') eqn:Ek.
    + apply String.eqb_eq in Ek. subst k'. cbn [_to_payload]. rewrite Hx, Hu. cbn [orb].
      destruct v; try (apply lookup_payload_absent; exact Hnot);
        unfold lookup; cbn; rewrite String.eqb_refl; reflexivity.
    + cbn [_to_payload]. specialize (IH Hnd').
      destruct (mem k' payload_exclude || starts_with_underscore k')%bool; [exact IH|].
      destruct v' as [j| |s|n]; [destruct j| | |]; try exact IH;
        rewrite lookup_cons_other; assumption.
Qed.

(** Hydrating then serialising round-trips a field: when a response sets
    one existing, non-date attribute [k] that [_to_payload] does not exclude,
    the next payload carries the received value under [k] (and no entry for
    [k] when the value is [null]). *)
Theorem hydrate_then_payload (fromisoformat : string -> option string) (t : instance)
    (k : string) (v : json) :
  NoDup (keys t) -> In k (keys t) -> k <> "ticket" -> k <> "path" ->
  mem k date_fields = false -> mem k payload_exclude = false ->
  starts_with_underscore k = false ->
  exists t', _hydrate fromisoformat t (JObj [(k, v)]) = Ok t' /\
    lookup k (_to_payload t') = match v with JNull => None | _ => Some v end.
Proof.
  intros Hnd Hin Ht Hp Hd Hx Hu.
  exists (dict_set k (PJson v) t). split; [|apply lookup_payload_dict_set; assumption].
  assert (Hsa : setattr t k (PJson v) = Ok (dict_set k (PJson v) t)).
  { unfold setattr. apply String.eqb_neq in Hp. rewrite Hp.
    destruct (String.eqb_spec k "__dict__"); [subst; discriminate|].
    destruct (String.eqb_spec k "__class__"); [subst; discriminate|].
    destruct (String.eqb_spec k "__weakref__"); [subst; discriminate|].
    reflexivity. }
  unfold _hydrate, unwrap_ticket.
  replace (lookup "ticket" [(k, v)]) with (@None json)
    by (unfold lookup; cbn; apply String.eqb_neq in Ht; rewrite Ht; reflexivity).
  cbn [hydrate_items]. unfold hasattr.
  rewrite (proj2 (mem_In _ _) Hin). cbn [orb]. rewrite Hd. cbn [bind].
  rewrite Hsa. reflexivity.
Qed.

Lemma hydrate_then_payload_witness :
  exists t', _hydrate (fun s => Some s) (init_ticket (Some 7))
               (JObj [("subject", JStr "Printer jam")]) = Ok t' /\
    lookup "subject" (_to_payload t') = Some (JStr "Printer jam").
Proof.
  apply (hydrate_then_payload (fun s => Some s) (init_ticket (Some 7)) "subject"
           (JStr "Printer jam")).
  - vm_compute. repeat constructor; cbn; intuition discriminate.
  - apply mem_In. reflexivity.
  - discriminate.
  - discriminate.
  - reflexivity.
  - reflexivity.
  - reflexivity.
Defined.

Lemma unsaved_id_falsy (tid : option Z) :
  tid = None \/ tid = Some 0 -> id_truthy (init_ticket tid) = Ok false.
Proof. intros [-> | ->]; reflexivity. Qed.

Lemma dict_body_obj (kvs : list (string * json)) :
  dict_body (map (fun kv => (JStr (fst kv), snd kv)) kvs) = JObj kvs.
Proof.
  unfold dict_body. f_equal. rewrite map_map. cbn.
  induction kvs as [|[k v] kvs IH]; cbn; congruence.
Qed.

Lemma payload_body_obj (t : instance) (kvs : list (string * json)) :
  payload_body t (JObj kvs) = Ok (JObj kvs).
Proof. cbn [payload_body py_dict bind]. rewrite dict_body_obj. reflexivity. Qed.

(** A ticket that was never saved (as [FreshserviceApi.ticket()] makes it,
    with no id, or with id 0) cannot be fetched, updated or deleted: [get],
    [update] (with at most one payload) and [delete] raise [ValueError]
    without any request. [create] with a dict payload sends a POST of that
    dict to [tickets] as its first request (after the pause still pending in
    the client from an earlier 429, if any). *)
Theorem unsaved_ticket_requests (fromisoformat : string -> option string) (api : fs_api)
    (env : Z -> attempt) (tid : option Z) (args : list json)
    (kvs : list (string * json)) :
  tid = None \/ tid = Some 0 -> (length args <= 1)%nat ->
  get fromisoformat api env (init_ticket tid) = (api, [], Raise ValueError) /\
  update fromisoformat api env (init_ticket tid) args = (api, [], Raise ValueError) /\
  delete api env (init_ticket tid) = (api, [], Raise ValueError) /\
  exists rest,
    snd (fst (create fromisoformat api env (init_ticket tid) (JObj kvs))) =
    pending_sleep api (now_before (env 0)) ++
    Send "POST" (make_url api "tickets") (Some (JObj kvs)) :: rest.
Proof.
  intros Htid Hlen. pose proof (unsaved_id_falsy _ Htid) as Hid.
  split; [unfold get; rewrite Hid; reflexivity|].
  split.
  { destruct args as [|a [|b l]]; [| |cbn in Hlen; lia];
      unfold update; rewrite Hid; reflexivity. }
  split; [unfold delete; rewrite Hid; reflexivity|].
  unfold create. rewrite Hid. rewrite payload_body_obj.
  unfold request_then_hydrate.
  replace (ticket_path (init_ticket tid)) with (@Ok string "tickets")
    by (destruct Htid as [-> | ->]; reflexivity).
  destruct (ClientFacts.request_first_send api "POST" "tickets" 5 (Some (JObj kvs)) env
              ltac:(lia)) as [rest E].
  destruct (_request api "POST" "tickets" 5 (Some (JObj kvs)) env) as [[api' tr] r].
  exists rest. exact E.
Qed.

Lemma unsaved_ticket_requests_witness :
  get (fun s => Some s) (init_api "acme.freshservice.com") (fun _ => ok_attempt)
    (init_ticket None) = (init_api "acme.freshservice.com", [], Raise ValueError) /\
  update (fun s => Some s) (init_api "acme.freshservice.com") (fun _ => ok_attempt)
    (init_ticket None) [JObj [("category", JStr "Hardware")]]
    = (init_api "acme.freshservice.com", [], Raise ValueError) /\
  delete (init_api "acme.freshservice.com") (fun _ => ok_attempt) (init_ticket None)
    = (init_api "acme.freshservice.com", [], Raise ValueError) /\
  exists rest,
    snd (fst (create (fun s => Some s) (init_api "acme.freshservice.com")
                (fun _ => ok_attempt) (init_ticket None)
                (JObj [("subject", JStr "Printer jam")]))) =
    pending_sleep (init_api "acme.freshservice.com") (now_before ok_attempt) ++
    Send "POST" (make_url (init_api "acme.freshservice.com") "tickets")
      (Some (JObj [("subject", JStr "Printer jam")])) :: rest.
Proof.
  apply (unsaved_ticket_requests (fun s => Some s) (init_api "acme.freshservice.com")
           (fun _ => ok_attempt) None [JObj [("category", JStr "Hardware")]]
           [("subject", JStr "Printer jam")]);
    [left; reflexivity | cbn; lia].
Defined.

Lemma lookup_dict_set_same (k : string) (v : pyval) (t : instance) :
  lookup k (dict_set k v t) = Some v.
Proof.
  induction t as [|[k' v'] t IH]; cbn [dict_set].
  - unfold lookup. cbn. rewrite String.eqb_refl. reflexivity.
  - destruct (String.eqb k k') eqn:E.
    + unfold lookup. cbn. rewrite String.eqb_refl. reflexivity.
    + rewrite lookup_cons_other; [exact IH | exact E].
Qed.

Lemma lookup_dict_set_other (k k' : string) (v : pyval) (t : instance) :
  k' <> k -> lookup k' (dict_set k v t) = lookup k' t.
Proof.
  intro Hne. apply String.eqb_neq in Hne.
  induction t as [|[k0 v0] t IH]; cbn [dict_set].
  - unfold lookup. cbn. rewrite String.eqb_sym, Hne. reflexivity.
  - destruct (String.eqb k k0) eqn:E.
    + apply String.eqb_eq in E. subst k0.
      rewrite !lookup_cons_other; [reflexivity | exact Hne | exact Hne].
    + destruct (String.eqb k' k0) eqn:E'.
      * apply String.eqb_eq in E'. subst k0.
        unfold lookup. cbn. rewrite String.eqb_refl. reflexivity.
      * rewrite !lookup_cons_other; [exact IH | exact E' | exact E'].
Qed.

(** [delete] on a saved ticket (its [id] attribute holds a truthy value
    [v]) sends one [DELETE] request exchange, the trace of [_request] on
    the path [tickets/{str(v)}], and marks the ticket deleted only when the
    request returned: then [deleted] is [True] and every other attribute is
    unchanged; when the request raises, the exception is all that comes
    back. *)
Theorem delete_marks_deleted (api : fs_api) (env : Z -> attempt) (t : instance)
    (v : pyval) :
  getattr t "id" = Ok v -> pytruthy v = true ->
  let '(api', tr, r) := delete api env t in
  let '(api0, tr0, r0) :=
    _request api "DELETE" (String.append "tickets/" (py_str v)) 5 None env in
  api' = api0 /\ tr = tr0 /\
  match r0 with
  | Raise e => r = Raise e
  | Ok resp =>
      exists t', r = Ok (t', resp) /\
        lookup "deleted" t' = Some (PJson (JBool true)) /\
        forall k, k <> "deleted" -> lookup k t' = lookup k t
  end.
Proof.
  intros Hv Ht. unfold delete, id_truthy, ticket_path. rewrite Hv. cbn [bind]. rewrite Ht.
  destruct (_request api "DELETE" _ 5 None env) as [[api0 tr0] r0].
  split; [reflexivity|]. split; [reflexivity|].
  destruct r0 as [resp|e]; [|reflexivity].
  exists (dict_set "deleted" (PJson (JBool true)) t). split; [reflexivity|].
  split; [apply lookup_dict_set_same|].
  intros k Hk. apply lookup_dict_set_other. exact Hk.
Qed.

Lemma delete_marks_deleted_witness :
  let '(api', tr, r) := delete (init_api "acme.freshservice.com") (fun _ => ok_attempt)
                          str_id_ticket in
  let '(api0, tr0, r0) := _request (init_api "acme.freshservice.com") "DELETE"
                            "tickets/7" 5 None (fun _ => ok_attempt) in
  api' = api0 /\ tr = tr0 /\
  match r0 with
  | Raise e => r = Raise e
  | Ok resp =>
      exists t', r = Ok (t', resp) /\
        lookup "deleted" t' = Some (PJson (JBool true)) /\
        forall k, k <> "deleted" -> lookup k t' = lookup k str_id_ticket
  end.
Proof.
  exact (delete_marks_deleted (init_api "acme.freshservice.com") (fun _ => ok_attempt)
           str_id_ticket (PJson (JStr "7")) eq_refl eq_refl).
Defined.

End TicketFacts.

Module WorkerMore.
Import Py Client TicketObj Store Worker WorkerTrace WorkerCount WorkerFacts.
Local Open Scope Z_scope.
Local Open Scope list_scope.

Lemma fetching_replace {Row} (pcs : list (wpc Row)) (i : nat) (old x : wpc Row) :
  nth_error pcs i = Some old ->
  (fetching (replace_nth i x pcs) + (if is_fetching old then 1 else 0) =
   fetching pcs + (if is_fetching x then 1 else 0))%nat.
Proof.
  unfold fetching. revert i. induction pcs as [|y pcs IH]; intros [|i] H; cbn in H;
    try discriminate.
  - inversion H; subst. cbn. destruct (is_fetching old), (is_fetching x); cbn; lia.
  - cbn. specialize (IH i H). destruct (is_fetching y); cbn; lia.
Qed.

Lemma total_claims_app (a b : list wevent) :
  total_claims (a ++ b) = (total_claims a + total_claims b)%nat.
Proof. unfold total_claims. rewrite filter_app, length_app. reflexivity. Qed.

Lemma total_claims_quiet (l : list wevent) :
  forallb (fun e => negb (is_claim e)) l = true -> total_claims l = 0%nat.
Proof.
  induction l as [|e l IH]; cbn; auto. intros H. apply andb_true_iff in H as [He Hl].
  destruct e; cbn in *; try discriminate; auto.
Qed.

Section Generic.
Context {Row : Type} `{Strat : Strategy Row}.

Lemma act_proc i w env r :
  iteration_count (w_proc (fst (act i w env r))) = iteration_count (w_proc w) /\
  iteration_limit (w_proc (fst (act i w env r))) = iteration_limit (w_proc w).
Proof.
  unfold act. destruct (perform_api_action (w_api w) env r) as [[api' tr] rr].
  destruct rr as [response|e]; [|split; reflexivity].
  destruct (getattr response "status_code"); [|split; reflexivity].
  destruct (handle_success (w_db w) r response); split; reflexivity.
Qed.

Lemma worker_step_limit_inv n i pcs pc w o :
  0 < n -> nth_error pcs i = Some pc -> limit_inv n pcs w ->
  let '(pc', w') := worker_step i pc w o in limit_inv n (replace_nth i pc' pcs) w'.
Proof.
  intros Hn Hi (Hl & Hc & Hs).
  destruct pc as [| |r|r st|out]; cbn [worker_step].
  - unfold limit_reached. rewrite Hl.
    replace (negb (n =? 0)) with true by (symmetry; apply negb_true_iff, Z.eqb_neq; lia).
    cbn [andb]. destruct (n <=? iteration_count (w_proc w)) eqn:E.
    + pose proof (fetching_replace pcs i _ (@Finished Row (Ok tt)) Hi) as F.
      cbn in F. repeat split; auto. lia.
    + apply Z.leb_gt in E.
      pose proof (fetching_replace pcs i _ (@AtFetch Row) Hi) as F.
      cbn in F. unfold limit_inv. cbn [w_proc w_log set_count iteration_count iteration_limit].
      repeat split; auto; lia.
  - pose proof (fetching_replace pcs i _ (@AtFetch Row) Hi) as F0. cbn in F0.
    destruct (fetch_and_lock_next_item (w_proc w) (w_db w) (o_fetch o))
      as [[[r|] db']|e].
    + pose proof (fetching_replace pcs i _ (AtAct r) Hi) as F. cbn in F.
      unfold limit_inv. cbn [w_proc w_log]. rewrite total_claims_app.
      unfold total_claims at 2. cbn. repeat split; auto; lia.
    + pose proof (fetching_replace pcs i _ (@Finished Row (Ok tt)) Hi) as F. cbn in F.
      unfold limit_inv. cbn [w_proc w_log]. repeat split; auto; lia.
    + pose proof (fetching_replace pcs i _ (@Finished Row (Raise e)) Hi) as F. cbn in F.
      unfold limit_inv. repeat split; auto; lia.
  - destruct (act i w (o_http o) r) as [w' st'] eqn:Ea.
    pose proof (fetching_replace pcs i _ (AtProgress r st') Hi) as F. cbn in F.
    destruct (act_proc i w (o_http o) r) as [P1 P2].
    destruct (act_log i w (o_http o) r) as [ext [L1 L2]].
    rewrite Ea in P1, P2, L1. cbn [fst] in *.
    unfold limit_inv. rewrite P1, P2, L1, total_claims_app, (total_claims_quiet _ L2).
    repeat split; auto; lia.
  - pose proof (fetching_replace pcs i _ (@AtCheck Row) Hi) as F0. cbn in F0.
    destruct _print_progress as [u|e].
    + unfold limit_inv. repeat split; auto; lia.
    + pose proof (fetching_replace pcs i _ (@Finished Row (Raise e)) Hi) as F. cbn in F.
      unfold limit_inv. repeat split; auto; lia.
  - pose proof (fetching_replace pcs i _ (Finished out) Hi) as F. cbn in F.
    unfold limit_inv. repeat split; auto; lia.
Qed.

Lemma exec_limit_inv n sched : forall (pcs : list (wpc Row)) w,
  0 < n -> limit_inv n pcs w ->
  let '(pcs', w') := exec pcs w sched in limit_inv n pcs' w'.
Proof.
  induction sched as [|[i o] sched IH]; intros pcs w Hn H; cbn [exec]; [exact H|].
  destruct (nth_error pcs i) as [pc|] eqn:Hi; [|apply IH; assumption].
  pose proof (worker_step_limit_inv n i pcs pc w o Hn Hi H) as S.
  destruct (worker_step i pc w o) as [pc' w']. apply IH; assumption.
Qed.

End Generic.

Lemma fetching_repeat_check {Row} (k : nat) : fetching (@repeat (wpc Row) AtCheck k) = 0%nat.
Proof. unfold fetching. induction k; cbn; auto. Qed.

(** With a positive iteration limit [n] (an [int], or the text of one),
    [run] lets all its workers together claim at most [n] rows, for every
    interleaving of the workers and whatever the database, the server and
    the lock do. *)
Theorem run_claims_at_most_limit {Row} `{Strat : Strategy Row} (p : proc)
    (lim : limit_arg) (n : Z) (k : nat) (p1 : proc) (pcs : list (wpc Row))
    (db : list Row) (api : fs_api) (sched : list (nat * oracle)) :
  limit_int lim = Ok n -> 0 < n -> run_start p lim k = Ok (p1, pcs) ->
  let '(_, w') := exec pcs (mkWorld p1 db api []) sched in
  (total_claims (w_log w') <= Z.to_nat n)%nat.
Proof.
  intros Hlim Hn Hrun.
  assert (Ht : limit_truthy lim = true).
  { destruct lim as [|m|s]; cbn in Hlim |- *; [discriminate| |].
    - inversion Hlim; subst. apply negb_true_iff, Z.eqb_neq. lia.
    - destruct s; [discriminate|reflexivity]. }
  unfold run_start in Hrun. rewrite Ht, Hlim in Hrun. cbn [bind] in Hrun.
  destruct (Nat.eqb k 0); [discriminate|]. inversion Hrun; subst p1 pcs.
  assert (H0 : limit_inv n (@repeat (wpc Row) AtCheck k)
                 (mkWorld (mkProc (iteration_count (set_count p 0)) (Some n)
                    (success_count (set_count p 0)) (failure_count (set_count p 0))
                    (random_order (set_count p 0))) db api [])).
  { unfold limit_inv. cbn. rewrite fetching_repeat_check. repeat split; lia. }
  pose proof (exec_limit_inv n sched _ _ Hn H0) as E.
  destruct (exec _ _ sched) as [pcs' w']. destruct E as (_ & E1 & E2). lia.
Qed.

Lemma run_claims_at_most_limit_witness :
  let '(_, w') := exec (Strat := updater_strategy (fun s => Some s))
                    (repeat AtCheck 2)
                    (mkWorld (mkProc 0 (Some 3) 0 0 None) [] (init_api "acme.freshservice.com") [])
                    [(0%nat, default_oracle); (1%nat, default_oracle)] in
  (total_claims (w_log w') <= Z.to_nat 3)%nat.
Proof.
  apply (run_claims_at_most_limit (Strat := updater_strategy (fun s => Some s))
           init_proc (LimStr "3") 3 2 (mkProc 0 (Some 3) 0 0 None) (repeat AtCheck 2)
           [] (init_api "acme.freshservice.com")
           [(0%nat, default_oracle); (1%nat, default_oracle)]);
    [vm_compute; reflexivity | lia | reflexivity].
Defined.

End WorkerMore.

Module StoreMore.
Import Py Store StoreSpec.
Local Open Scope string_scope.
Local Open Scope Z_scope.
Local Open Scope list_scope.

Lemma max_by_spec {R} (key : R -> Z) (l : list R) :
  match max_by key l with
  | None => l = []
  | Some m => In m l /\ forall x, In x l -> key x <= key m
  end.
Proof.
  induction l as [|r t IH]; cbn; [reflexivity|].
  destruct (max_by key t) as [m|].
  - destruct IH as [Hm Hmax]. destruct (Z.leb_spec (key m) (key r)).
    + split; [left; reflexivity|]. intros x [<-|Hx]; [lia|].
      specialize (Hmax x Hx). lia.
    + split; [right; exact Hm|]. intros x [<-|Hx]; [lia|auto].
  - subst t. split; [left; reflexivity|]. intros x [<-|[]]. lia.
Qed.

Lemma pick_random_spec {R} (k : nat) (l : list R) :
  match pick_random k l with None => l = [] | Some r => In r l end.
Proof.
  unfold pick_random. destruct l as [|a t]; [rewrite nth_error_nil; reflexivity|].
  destruct (nth_error (a :: t) (Nat.modulo k (length (a :: t)))) eqn:E.
  - eapply nth_error_In. exact E.
  - apply nth_error_None in E. exfalso.
    assert (Nat.modulo k (length (a :: t)) < length (a :: t))%nat
      by (apply Nat.mod_upper_bound; cbn; discriminate).
    lia.
Qed.

Lemma claim_choice {R} (key : R -> Z) (pred : R -> bool) (ro : bool) (k : nat)
    (l : list R) :
  match (if ro then pick_random k (filter pred l) else max_by key (filter pred l)) with
  | None => forall x, In x l -> pred x = false
  | Some r => In r l /\ pred r = true /\
              (ro = false -> forall x, In x l -> pred x = true -> key x <= key r)
  end.
Proof.
  assert (Hnone : filter pred l = [] -> forall x, In x l -> pred x = false).
  { intros E x Hx. destruct (pred x) eqn:Px; [|reflexivity].
    assert (Hf : In x (filter pred l)) by (apply filter_In; auto).
    rewrite E in Hf. destruct Hf. }
  destruct ro.
  - pose proof (pick_random_spec k (filter pred l)) as P.
    destruct (pick_random k (filter pred l)) as [r|]; [|exact (Hnone P)].
    apply filter_In in P as [P1 P2]. split; [exact P1|]. split; [exact P2|].
    discriminate.
  - pose proof (max_by_spec key (filter pred l)) as P.
    destruct (max_by key (filter pred l)) as [r|]; [|exact (Hnone P)].
    destruct P as [P1 P2]. apply filter_In in P1 as [P1 P3].
    split; [exact P1|]. split; [exact P3|].
    intros _ x Hx Px. apply P2. apply filter_In. auto.
Qed.

(** Once [random_order] is set, the updater's claim is sound: a lock
    failure or the absence of a ready row claims nothing and leaves the
    table as it was; otherwise the claimed row is a ready row of the table
    (the ready row of greatest id unless the order is random), and only the
    rows with its id are marked in-progress with the claim time. *)
Theorem updater_fetch_claims_ready_row (p : proc) (l : list Updater.trow)
    (fe : fetch_env) (ro : bool) :
  random_order p = Some ro ->
  match Updater._fetch_and_lock_next_item p l fe with
  | Ok (None, l') =>
      l' = l /\ (fe_locked fe = true \/ forall x, In x l -> Updater.is_ready x = false)
  | Ok (Some r, l') =>
      fe_locked fe = false /\ In r l /\ Updater.is_ready r = true /\
      (ro = false -> forall x, In x l -> Updater.is_ready x = true ->
                     Updater.id x <= Updater.id r) /\
      l' = map (fun x => if Updater.id x =? Updater.id r
                         then Updater.set_in_progress (fe_now fe) x else x) l
  | Raise _ => False
  end.
Proof.
  intro H. unfold Updater._fetch_and_lock_next_item. rewrite H.
  destruct (fe_locked fe) eqn:El; [split; auto|]. cbv zeta.
  pose proof (claim_choice Updater.id Updater.is_ready ro (fe_rand fe) l) as C.
  destruct (if ro then _ else _) as [r|]; [|split; auto].
  destruct C as (C1 & C2 & C3). repeat split; auto.
Qed.

Lemma updater_fetch_claims_ready_row_witness :
  random_order (mkProc 1 None 0 0 (Some false)) = Some false /\
  match Updater._fetch_and_lock_next_item (mkProc 1 None 0 0 (Some false))
          [sample_row (Some "Hardware") None None] (mkFetchEnv 5 false 0) with
  | Ok (None, l') =>
      l' = [sample_row (Some "Hardware") None None] /\
      (fe_locked (mkFetchEnv 5 false 0) = true \/
       forall x, In x [sample_row (Some "Hardware") None None] ->
                 Updater.is_ready x = false)
  | Ok (Some r, l') =>
      fe_locked (mkFetchEnv 5 false 0) = false /\
      In r [sample_row (Some "Hardware") None None] /\ Updater.is_ready r = true /\
      (false = false -> forall x, In x [sample_row (Some "Hardware") None None] ->
                       Updater.is_ready x = true -> Updater.id x <= Updater.id r) /\
      l' = map (fun x => if Updater.id x =? Updater.id r
                         then Updater.set_in_progress (fe_now (mkFetchEnv 5 false 0)) x
                         else x) [sample_row (Some "Hardware") None None]
  | Raise _ => False
  end.
Proof.
  split; [reflexivity|].
  exact (updater_fetch_claims_ready_row (mkProc 1 None 0 0 (Some false))
           [sample_row (Some "Hardware") None None] (mkFetchEnv 5 false 0) false
           eq_refl).
Defined.

(** Once [random_order] is set, the importer's claim is sound: a lock
    failure or the absence of an unclaimed row (one with no
    [request_timestamp]) claims nothing and leaves the table as it was;
    otherwise the claimed row is an unclaimed row of the table (the one of
    greatest id unless the order is random), and only the rows with its id
    get the claim time as [request_timestamp]. *)
Theorem importer_fetch_claims_unclaimed_row (p : proc) (l : list Importer.irow)
    (fe : fetch_env) (ro : bool) :
  random_order p = Some ro ->
  match Importer._fetch_and_lock_next_item p l fe with
  | Ok (None, l') =>
      l' = l /\ (fe_locked fe = true \/ forall x, In x l -> Importer.is_unclaimed x = false)
  | Ok (Some r, l') =>
      fe_locked fe = false /\ In r l /\ Importer.is_unclaimed r = true /\
      (ro = false -> forall x, In x l -> Importer.is_unclaimed x = true ->
                     Importer.id x <= Importer.id r) /\
      l' = map (fun x => if Importer.id x =? Importer.id r
                         then Importer.set_request_timestamp (Some (fe_now fe)) x else x) l
  | Raise _ => False
  end.
Proof.
  intro H. unfold Importer._fetch_and_lock_next_item. rewrite H.
  destruct (fe_locked fe) eqn:El; [split; auto|]. cbv zeta.
  pose proof (claim_choice Importer.id Importer.is_unclaimed ro (fe_rand fe) l) as C.
  destruct (if ro then _ else _) as [r|]; [|split; auto].
  destruct C as (C1 & C2 & C3). repeat split; auto.
Qed.

Lemma importer_fetch_claims_unclaimed_row_witness :
  random_order (mkProc 1 None 0 0 (Some true)) = Some true /\
  match Importer._fetch_and_lock_next_item (mkProc 1 None 0 0 (Some true))
          [WorkerTrace.import_row_1] (mkFetchEnv 5 false 3) with
  | Ok (None, l') =>
      l' = [WorkerTrace.import_row_1] /\
      (fe_locked (mkFetchEnv 5 false 3) = true \/
       forall x, In x [WorkerTrace.import_row_1] -> Importer.is_unclaimed x = false)
  | Ok (Some r, l') =>
      fe_locked (mkFetchEnv 5 false 3) = false /\
      In r [WorkerTrace.import_row_1] /\ Importer.is_unclaimed r = true /\
      (true = false -> forall x, In x [WorkerTrace.import_row_1] ->
                      Importer.is_unclaimed x = true -> Importer.id x <= Importer.id r) /\
      l' = map (fun x => if Importer.id x =? Importer.id r
                         then Importer.set_request_timestamp
                                (Some (fe_now (mkFetchEnv 5 false 3))) x
                         else x) [WorkerTrace.import_row_1]
  | Raise _ => False
  end.
Proof.
  split; [reflexivity|].
  exact (importer_fetch_claims_unclaimed_row (mkProc 1 None 0 0 (Some true))
           [WorkerTrace.import_row_1] (mkFetchEnv 5 false 3) true eq_refl).
Defined.

Import Updater StoreFacts.

Lemma prepare_update_state (vc : list vrow) (ms : list mrow) (t r : trow) :
  is_none (update_state (prepare_update vc ms t r)) = false.
Proof.
  unfold prepare_update.
  destruct (_ || _)%bool; [reflexivity|].
  destruct (get_new_category _ _ _ _); reflexivity.
Qed.

(** Running [prepare] twice is the same as running it once: the first pass
    gives every row with a NULL [update_state] a state ([skipped], [ready]
    or [unmapped]), so the second pass selects nothing and changes
    nothing. *)
Theorem prepare_idempotent (d : udb) :
  NoDup (map id (tickets d)) -> prepare (prepare d) = prepare d.
Proof.
  intro Hnd.
  assert (E : forall d', prepare d' =
             mkUdb (tickets (prepare d')) (valid_categories d') (category_mappings d'))
    by reflexivity.
  assert (Hnd' : NoDup (map id (tickets (prepare d)))).
  { rewrite (prepare_tickets d Hnd), map_map.
    erewrite map_ext; [exact Hnd|]. intro r.
    destruct (is_none (update_state r)); [apply prepare_update_id|reflexivity]. }
  rewrite (E (prepare d)). rewrite (prepare_tickets (prepare d) Hnd').
  replace (map _ (tickets (prepare d))) with (tickets (prepare d)).
  - reflexivity.
  - rewrite <- map_id at 1. apply map_ext_in. intros r Hr.
    rewrite (prepare_tickets d Hnd) in Hr. apply in_map_iff in Hr as [r0 [<- _]].
    destruct (is_none (update_state r0)) eqn:Hs.
    + rewrite prepare_update_state. reflexivity.
    + rewrite Hs. reflexivity.
Qed.

Lemma prepare_idempotent_witness :
  NoDup (map id (tickets mapped_to_null_category)) /\
  prepare (prepare mapped_to_null_category) = prepare mapped_to_null_category.
Proof.
  assert (H : NoDup (map id (tickets mapped_to_null_category)))
    by (vm_compute; repeat constructor; intros []).
  split; [exact H|]. exact (prepare_idempotent mapped_to_null_category H).
Defined.

End StoreMore.

Module LegacyFacts.
Import Py Client TicketObj Store Worker Legacy.
Local Open Scope string_scope.
Local Open Scope Z_scope.
Local Open Scope list_scope.

Lemma print_progress_raises : _print_progress = Raise (AttributeError "controller").
Proof. vm_compute. reflexivity. Qed.

Lemma worker_loop_one_pass {Row} iteration (w : lworld Row) fe env os :
  (forall w fe env, snd (iteration w fe env) <> LNext) ->
  worker_loop iteration w ((fe, env) :: os) = worker_loop iteration w [(fe, env)].
Proof.
  intros H. cbn [worker_loop].
  specialize (H w fe env).
  destruct (iteration w fe env) as [[w1 tr1] ex]. cbn in H.
  destruct ex; [congruence | reflexivity | reflexivity].
Qed.

End LegacyFacts.

Module LegacyUpdaterFacts.
Import Py Client TicketObj Store Updater Worker Legacy LegacyUpdater LegacyFacts.
Local Open Scope string_scope.
Local Open Scope Z_scope.
Local Open Scope list_scope.

Lemma legacy_update_action_raises iso api env r :
  _perform_api_action iso api env r = (api, [], Raise TypeError).
Proof. reflexivity. Qed.

Lemma legacy_update_no_next iso (w : lworld trow) fe env :
  snd (worker_iteration iso w fe env) <> LNext.
Proof.
  unfold worker_iteration, claim_next.
  destruct (legacy_limit_reached (lw_proc w)); [discriminate|].
  destruct (fe_locked fe); [discriminate|].
  destruct (max_by id (filter is_ready (lw_db w))); [|discriminate].
  rewrite legacy_update_action_raises, print_progress_raises. discriminate.
Qed.

Lemma legacy_update_pass_silent iso (w : lworld trow) fe env :
  snd (fst (worker_iteration iso w fe env)) = [].
Proof.
  unfold worker_iteration, claim_next.
  destruct (legacy_limit_reached (lw_proc w)); [reflexivity|].
  destruct (fe_locked fe); [reflexivity|].
  destruct (max_by id (filter is_ready (lw_db w))); [|reflexivity].
  rewrite legacy_update_action_raises, print_progress_raises. reflexivity.
Qed.

(** Every pass of [TicketCategoryUpdater._ticket_update_worker] sends no
    HTTP request, leaves the client and [success_count] as they were, and
    never goes round again. Past the limit it breaks with nothing changed.
    Otherwise it adds one to [iteration_count]; a locked file ends the
    worker with [TypeError] and claims no row; with no [ready] row it
    breaks; otherwise it claims the [ready] row of greatest id, [update]
    (called with two positional arguments) raises [TypeError], the row is
    marked [failed] with no status code, [failure_count] goes up by one and
    [_print_progress] ends the worker with [AttributeError]. *)
Theorem legacy_update_iteration_outcome iso (w : lworld trow) fe env :
  let '(w', tr, ex) := worker_iteration iso w fe env in
  tr = [] /\ lw_api w' = lw_api w /\
  success_count (lw_proc w') = success_count (lw_proc w) /\ ex <> LNext /\
  (legacy_limit_reached (lw_proc w) = true -> w' = w /\ ex = LBreak) /\
  (legacy_limit_reached (lw_proc w) = false ->
   iteration_count (lw_proc w') = iteration_count (lw_proc w) + 1 /\
   (fe_locked fe = true ->
    lw_db w' = lw_db w /\ failure_count (lw_proc w') = failure_count (lw_proc w) /\
    ex = LRaise TypeError) /\
   (fe_locked fe = false ->
    match max_by id (filter is_ready (lw_db w)) with
    | None =>
        lw_db w' = lw_db w /\ failure_count (lw_proc w') = failure_count (lw_proc w) /\
        ex = LBreak
    | Some r =>
        lw_db w' = _handle_failure
                     (update_where_id id (id r) (set_in_progress (fe_now fe)) (lw_db w))
                     r None (Some (exc_str TypeError)) /\
        failure_count (lw_proc w') = failure_count (lw_proc w) + 1 /\
        ex = LRaise (AttributeError "controller")
    end)).
Proof.
  unfold worker_iteration.
  destruct (legacy_limit_reached (lw_proc w)) eqn:L.
  - cbv beta iota. repeat split; try discriminate; try reflexivity; try congruence.
  - unfold claim_next.
    destruct (fe_locked fe) eqn:Lk.
    + cbv beta iota. repeat split; try discriminate; try congruence.
    + destruct (max_by id (filter is_ready (lw_db w))) as [r|] eqn:M.
      * rewrite legacy_update_action_raises, print_progress_raises.
        cbv beta iota zeta. repeat split; try discriminate; try congruence.
      * cbv beta iota. repeat split; try discriminate; try congruence.
Qed.

(** Whatever the world supplies, [_ticket_update_worker] ends in its first
    pass: the outcome of a run is the outcome of that pass alone, and the
    worker sends no HTTP request. *)
Theorem legacy_update_worker_one_pass iso (w : lworld trow) fe env os :
  _ticket_update_worker iso w ((fe, env) :: os) = _ticket_update_worker iso w [(fe, env)] /\
  snd (fst (_ticket_update_worker iso w ((fe, env) :: os))) = [] /\
  snd (_ticket_update_worker iso w ((fe, env) :: os)) <> None.
Proof.
  unfold _ticket_update_worker.
  rewrite (worker_loop_one_pass _ w fe env os (legacy_update_no_next iso)).
  pose proof (legacy_update_no_next iso w fe env) as Hx.
  pose proof (legacy_update_pass_silent iso w fe env) as Ht.
  cbn [worker_loop].
  destruct (worker_iteration iso w fe env) as [[w1 tr1] ex].
  cbn in Hx, Ht. subst tr1.
  destruct ex; [congruence | | ]; cbn; (split; [reflexivity|split; [reflexivity|discriminate]]).
Qed.

End LegacyUpdaterFacts.

Module LegacyImporterFacts.
Import Py Client TicketObj Store Importer Worker Legacy LegacyImporter LegacyFacts ClientTrace.
Local Open Scope string_scope.
Local Open Scope Z_scope.
Local Open Scope list_scope.

Lemma request_loop_http_status (method url : string) (body : option json) (mr : Z)
    (env : Z -> attempt) :
  forall fuel api attempts tr s,
  snd (request_loop method url body mr env fuel api attempts tr) =
    Raise (FreshserviceHTTPError s) -> 400 <= s.
Proof.
  induction fuel as [|f IH]; intros api attempts tr s; cbn [request_loop].
  - discriminate.
  - destruct (negb (attempts <=? mr)); [discriminate|].
    match goal with
    | |- context [match ?P with (_, _) => _ end] => destruct P as [api1 tr1]
    end.
    repeat match goal with
           | |- context [match ?m with Ok _ => _ | Raise _ => _ end] => destruct m eqn:?
           | |- context [match ?m with Some _ => _ | None => _ end] => destruct m
           | |- context [if ?b then _ else _] => destruct b eqn:?
           end;
    cbn [snd]; try discriminate; try apply IH;
    intro H; inversion H; subst.
    all: first
      [ match goal with
        | E : andb _ _ = true |- _ =>
            apply andb_prop in E; destruct E as [E _]; apply Z.leb_le in E; exact E
        end
      | exfalso; clear H;
        match goal with
        | E : _ = Raise (FreshserviceHTTPError _) |- _ =>
            unfold header_int, py_int in E;
            repeat match type of E with
                   | context [match ?m with Some _ => _ | None => _ end] => destruct m
                   | context [if ?b then _ else _] => destruct b
                   end; discriminate
        end ].
Qed.

Lemma hydrate_items_status (iso : string -> option string) :
  forall kvs t e, hydrate_items iso t kvs = Raise e -> exc_status e = None.
Proof.
  induction kvs as [|[k v] rest IH]; intros t e H; cbn [hydrate_items] in H.
  - discriminate.
  - destruct (hasattr t k); [|exact (IH _ _ H)].
    destruct (if mem k date_fields then _parse_date iso v else Ok (PJson v)) as [val|e1] eqn:Ev;
      cbn in H.
    + unfold setattr in H.
      repeat match type of H with
             | context [if ?b then _ else _] => destruct b
             | context [match ?m with PJson _ => _ | _ => _ end] => destruct m
             end;
      cbn in H; try (inversion H; reflexivity); try exact (IH _ _ H);
      repeat match type of H with
             | context [match ?m with JObj _ => _ | _ => _ end] => destruct m
             end; cbn in H; try (inversion H; reflexivity); exact (IH _ _ H).
    + inversion H; subst. destruct (mem k date_fields); cbn in Ev; [|discriminate].
      destruct v; cbn in Ev; try discriminate.
      destruct (iso _); inversion Ev; reflexivity.
Qed.

Lemma import_payload_body (t : instance) (r : irow) :
  payload_body t (import_payload r) = Ok (import_payload r).
Proof. unfold import_payload. apply TicketFacts.payload_body_obj. Qed.

Lemma getattr_raise (t : instance) (k : string) (e : exc) :
  getattr t k = Raise e -> e = AttributeError k.
Proof. unfold getattr. destruct (lookup k t); [discriminate|]. destruct (mem k ticket_class_attrs); congruence. Qed.

Lemma import_action_status iso api env r e :
  snd (_perform_api_action iso api env r) = Raise e ->
  exc_status e = None \/ exists s, exc_status e = Some s /\ 400 <= s.
Proof.
  unfold _perform_api_action, create.
  replace (id_truthy (init_ticket None)) with (@Ok bool false) by reflexivity.
  rewrite import_payload_body.
  unfold request_then_hydrate.
  change (ticket_path (init_ticket None)) with (@Ok string "tickets"). cbv beta iota.
  destruct (_request api "POST" "tickets" 5 (Some (import_payload r)) env)
    as [[api' tr] rr] eqn:E.
  cbn [snd]. destruct rr as [data|e1]; cbn [bind].
  - intro H. left. unfold _hydrate in H.
    destruct (unwrap_ticket data); try discriminate.
    exact (hydrate_items_status iso _ _ _ H).
  - intro H. inversion H; subst. destruct e; try (left; reflexivity).
    right. exists status. split; [reflexivity|].
    unfold _request in E.
    apply (request_loop_http_status "POST" (make_url api "tickets")
             (Some (import_payload r)) 5 env (Z.to_nat (5 + 1)) api 0 []).
    rewrite E. reflexivity.
Qed.

(** A pass that claims the row [r]. *)
Lemma import_pass_claimed iso (w : lworld irow) fe env r :
  legacy_limit_reached (lw_proc w) = false -> fe_locked fe = false ->
  max_by id (filter is_unclaimed (lw_db w)) = Some r ->
  let '(w', tr, ex) := worker_iteration iso w fe env in
  let '(api', tr0, rr) := _perform_api_action iso (lw_api w) env r in
  lw_api w' = api' /\ tr = tr0 /\
  iteration_count (lw_proc w') = iteration_count (lw_proc w) + 1 /\
  success_count (lw_proc w') = success_count (lw_proc w) /\
  failure_count (lw_proc w') = failure_count (lw_proc w) + 1 /\
  ex = LRaise (AttributeError "controller") /\
  exists e,
    lw_db w' = _handle_failure
                 (update_where_id id (id r) (set_request_timestamp (Some (fe_now fe))) (lw_db w))
                 r (exc_status e) (Some (exc_str e)) /\
    (forall e', rr = Raise e' -> e = e') /\
    (forall resp, rr = Ok resp -> exc_status e = None) /\
    (exc_status e = None \/ exists s, exc_status e = Some s /\ 400 <= s).
Proof.
  intros L Lk M. unfold worker_iteration, claim_next. rewrite L, Lk, M.
  pose proof (import_action_status iso (lw_api w) env r) as HS.
  destruct (_perform_api_action iso (lw_api w) env r) as [[api' tr0] rr] eqn:P.
  rewrite print_progress_raises. cbn [snd] in HS.
  destruct rr as [resp|e].
  - destruct (getattr resp "status_code") as [v|e] eqn:G.
    + unfold _handle_success. destruct (getattr resp "json") as [v'|e] eqn:G2; cbn [bind].
      * cbv beta iota zeta. repeat split. exists TypeError.
        repeat split; [congruence | left; reflexivity].
      * apply getattr_raise in G2. subst e.
        cbv beta iota zeta. repeat split. exists (AttributeError "json").
        repeat split; [congruence | left; reflexivity].
    + apply getattr_raise in G. subst e.
      cbv beta iota zeta. repeat split. exists (AttributeError "status_code").
      repeat split; [congruence | left; reflexivity].
  - cbv beta iota zeta. repeat split. exists e.
    repeat split; [congruence | congruence | exact (HS e eq_refl)].
Qed.

Lemma import_action_sends_post iso api env r :
  exists rest, snd (fst (_perform_api_action iso api env r)) =
    pending_sleep api (now_before (env 0)) ++
    Send "POST" (make_url api "tickets") (Some (import_payload r)) :: rest.
Proof.
  unfold _perform_api_action, create.
  replace (id_truthy (init_ticket None)) with (@Ok bool false) by reflexivity.
  rewrite import_payload_body.
  unfold request_then_hydrate.
  change (ticket_path (init_ticket None)) with (@Ok string "tickets"). cbv beta iota.
  destruct (ClientFacts.request_first_send api "POST" "tickets" 5 (Some (import_payload r)) env
              ltac:(lia)) as [rest E].
  destruct (_request api "POST" "tickets" 5 (Some (import_payload r)) env) as [[api' tr] rr].
  exists rest. exact E.
Qed.

Lemma import_no_next iso (w : lworld irow) fe env :
  snd (worker_iteration iso w fe env) <> LNext.
Proof.
  destruct (legacy_limit_reached (lw_proc w)) eqn:L;
    [unfold worker_iteration; rewrite L; discriminate|].
  destruct (fe_locked fe) eqn:Lk;
    [unfold worker_iteration, claim_next; rewrite L, Lk; discriminate|].
  destruct (max_by id (filter is_unclaimed (lw_db w))) as [r|] eqn:M;
    [|unfold worker_iteration, claim_next; rewrite L, Lk, M; discriminate].
  pose proof (import_pass_claimed iso w fe env r L Lk M) as H.
  destruct (worker_iteration iso w fe env) as [[w' tr] ex].
  destruct (_perform_api_action iso (lw_api w) env r) as [[api' tr0] rr].
  destruct H as [_ [_ [_ [_ [_ [-> _]]]]]]. discriminate.
Qed.

Lemma in_update_where_id {R} (key : R -> Z) (i : Z) (f : R -> R) (l : list R) (y : R) :
  In y (update_where_id key i f l) -> key y = i -> (forall z, key (f z) = key z) ->
  exists z, In z l /\ key z = i /\ y = f z.
Proof.
  unfold update_where_id. intros Hy Hk Hf. apply in_map_iff in Hy.
  destruct Hy as [z [Hz Hin]]. destruct (key z =? i) eqn:E.
  - apply Z.eqb_eq in E. exists z. auto.
  - subst y. apply Z.eqb_neq in E. congruence.
Qed.

(** A pass of [TicketImporter._ticket_import_worker] never counts a
    success and never goes round again. Past the limit it breaks with
    nothing changed. Otherwise it adds one to [iteration_count]; a locked
    file ends the worker with [TypeError] and no request; with no row whose
    [request_timestamp] is [NULL] it breaks. Otherwise it claims the
    unclaimed row of greatest id and sends its [POST] as its first request
    (right after the [Retry-After] pause still pending in the client, if
    any); the row is then recorded as a failure
    and [failure_count] goes up by one, also when the server accepted the
    ticket: the code reads [response.status_code] on the [Ticket] that
    [create] returns, so the row gets no status code. [_print_progress]
    then ends the worker with [AttributeError]. *)
Theorem legacy_import_iteration_outcome iso (w : lworld irow) fe env :
  let '(w', tr, ex) := worker_iteration iso w fe env in
  success_count (lw_proc w') = success_count (lw_proc w) /\ ex <> LNext /\
  (legacy_limit_reached (lw_proc w) = true -> w' = w /\ tr = [] /\ ex = LBreak) /\
  (legacy_limit_reached (lw_proc w) = false ->
   iteration_count (lw_proc w') = iteration_count (lw_proc w) + 1 /\
   (fe_locked fe = true ->
    lw_db w' = lw_db w /\ lw_api w' = lw_api w /\ tr = [] /\
    failure_count (lw_proc w') = failure_count (lw_proc w) /\ ex = LRaise TypeError) /\
   (fe_locked fe = false ->
    match max_by id (filter is_unclaimed (lw_db w)) with
    | None =>
        lw_db w' = lw_db w /\ lw_api w' = lw_api w /\ tr = [] /\
        failure_count (lw_proc w') = failure_count (lw_proc w) /\ ex = LBreak
    | Some r =>
        (exists rest, tr = pending_sleep (lw_api w) (now_before (env 0)) ++
                           Send "POST" (make_url (lw_api w) "tickets") (Some (import_payload r)) :: rest) /\
        failure_count (lw_proc w') = failure_count (lw_proc w) + 1 /\
        ex = LRaise (AttributeError "controller") /\
        exists e,
          lw_db w' = _handle_failure
                       (update_where_id id (id r) (set_request_timestamp (Some (fe_now fe))) (lw_db w))
                       r (exc_status e) (Some (exc_str e)) /\
          (forall e', snd (_perform_api_action iso (lw_api w) env r) = Raise e' -> e = e') /\
          (forall resp, snd (_perform_api_action iso (lw_api w) env r) = Ok resp ->
                        exc_status e = None)
    end)).
Proof.
  pose proof (import_no_next iso w fe env) as Hx.
  destruct (legacy_limit_reached (lw_proc w)) eqn:L.
  - unfold worker_iteration in Hx |- *. rewrite L in Hx |- *. cbv beta iota.
    repeat split; try discriminate; try congruence.
  - destruct (fe_locked fe) eqn:Lk.
    + unfold worker_iteration, claim_next in Hx |- *. rewrite L, Lk in Hx |- *.
      cbv beta iota. repeat split; try discriminate; try congruence.
    + destruct (max_by id (filter is_unclaimed (lw_db w))) as [r|] eqn:M.
      * pose proof (import_pass_claimed iso w fe env r L Lk M) as H.
        pose proof (import_action_sends_post iso (lw_api w) env r) as Hp.
        destruct (worker_iteration iso w fe env) as [[w' tr] ex].
        destruct (_perform_api_action iso (lw_api w) env r) as [[api' tr0] rr].
        cbn [snd fst] in Hx, Hp |- *.
        destruct H as [_ [-> [Hc [Hs [Hf [He [e [Hdb [H1 [H2 _]]]]]]]]]].
        repeat split; try assumption; try congruence.
        exists e. repeat split; assumption.
      * unfold worker_iteration, claim_next in Hx |- *. rewrite L, Lk, M in Hx |- *.
        cbv beta iota. repeat split; try discriminate; try congruence.
Qed.

(** Whatever the world supplies, [_ticket_import_worker] ends in its first
    pass, so each worker thread imports at most one row. *)
Theorem legacy_import_worker_one_pass iso (w : lworld irow) fe env os :
  _ticket_import_worker iso w ((fe, env) :: os) = _ticket_import_worker iso w [(fe, env)] /\
  snd (_ticket_import_worker iso w ((fe, env) :: os)) <> None.
Proof.
  unfold _ticket_import_worker.
  rewrite (worker_loop_one_pass _ w fe env os (import_no_next iso)).
  pose proof (import_no_next iso w fe env) as Hx.
  cbn [worker_loop].
  destruct (worker_iteration iso w fe env) as [[w1 tr1] ex].
  cbn in Hx.
  destruct ex; [congruence | | ]; cbn; (split; [reflexivity|discriminate]).
Qed.

(** After a pass that claims the row [r], [TicketImporter.retry_failed]
    resets that row to unclaimed ([request_timestamp] and the status back
    to [NULL]), whatever came of its [POST]: also when the server created
    the ticket, so the next [run] sends it again. *)
Theorem legacy_import_retry_reclaims iso (w : lworld irow) fe env r :
  legacy_limit_reached (lw_proc w) = false -> fe_locked fe = false ->
  max_by id (filter is_unclaimed (lw_db w)) = Some r ->
  Forall (fun x => id x = id r -> request_timestamp x = None /\ response_status_code x = None)
    (fst (script_retry_failed_reset (lw_db (fst (fst (worker_iteration iso w fe env)))))).
Proof.
  intros L Lk M.
  pose proof (import_pass_claimed iso w fe env r L Lk M) as H.
  destruct (worker_iteration iso w fe env) as [[w' tr] ex].
  destruct (_perform_api_action iso (lw_api w) env r) as [[api' tr0] rr].
  destruct H as [_ [_ [_ [_ [_ [_ [e [Hdb [_ [_ Hst]]]]]]]]]].
  cbn [fst]. rewrite Hdb. unfold script_retry_failed_reset. cbn [fst].
  apply Forall_forall. intros x Hx Hid.
  apply in_map_iff in Hx. destruct Hx as [y [Hxy Hy]].
  assert (Hyid : id y = id r).
  { subst x. destruct (script_retry_target y); [|exact Hid]. exact Hid. }
  unfold _handle_failure in Hy.
  destruct (in_update_where_id id (id r) _ _ y Hy Hyid (fun z => eq_refl)) as [z [Hz [Hzid ->]]].
  assert (Ht : script_retry_target
                 (set_response (exc_status e) (Some (exc_str e)) z) = true).
  { unfold script_retry_target. cbn [response_status_code set_response].
    destruct Hst as [-> | [s [-> Hs]]]; [reflexivity|].
    apply negb_true_iff, Z.eqb_neq. lia. }
  rewrite Ht in Hxy. subst x. split; reflexivity.
Qed.

(** The server creates the ticket (a [201] with the new ticket), and the
    row is reset all the same. *)
Lemma legacy_import_retry_reclaims_witness :
  let w := mkLWorld (mkProc 0 None 0 0 None) [WorkerTrace.import_row_1]
             (init_api "acme.freshservice.com") in
  let fe := mkFetchEnv 100 false 0 in
  let env := fun _ : Z =>
    mkAttempt 0 (mkResponse 201 [] (Some (JObj [("ticket", JObj [("id", JNum 42)])]))) 0 in
  legacy_limit_reached (lw_proc w) = false /\ fe_locked fe = false /\
  max_by id (filter is_unclaimed (lw_db w)) = Some WorkerTrace.import_row_1 /\
  Forall (fun x => id x = id WorkerTrace.import_row_1 ->
                   request_timestamp x = None /\ response_status_code x = None)
    (fst (script_retry_failed_reset
            (lw_db (fst (fst (worker_iteration (fun s => Some s) w fe env)))))).
Proof.
  intros w fe env.
  split; [reflexivity|]. split; [reflexivity|]. split; [reflexivity|].
  apply (legacy_import_retry_reclaims (fun s => Some s) w fe env WorkerTrace.import_row_1);
    reflexivity.
Defined.

End LegacyImporterFacts.

Module LimitZeroFacts.
Import Py Client TicketObj Store Worker ClientTrace WorkerTrace.
Local Open Scope string_scope.
Local Open Scope Z_scope.
Local Open Scope list_scope.

Lemma max_by_some {R} (key : R -> Z) (l : list R) :
  l <> [] -> exists r, max_by key l = Some r /\ In r l.
Proof.
  induction l as [|x t IH]; intros H; [congruence|]. cbn [max_by].
  destruct (max_by key t) as [m|] eqn:E.
  - destruct t as [|y t']; [discriminate E|].
    destruct (IH ltac:(discriminate)) as [m' [Em Hm]].
    injection Em as <-.
    destruct (key m <=? key x); eexists; (split; [reflexivity|]);
      [left; reflexivity | right; exact Hm].
  - exists x. split; [reflexivity | left; reflexivity].
Qed.

Lemma pick_random_some {R} (k : nat) (l : list R) :
  l <> [] -> exists r, pick_random k l = Some r /\ In r l.
Proof.
  intros H. unfold pick_random.
  destruct (nth_error l (Nat.modulo k (length l))) as [r|] eqn:E.
  - exists r. split; [reflexivity | eapply nth_error_In; exact E].
  - apply nth_error_None in E. destruct l as [|x l']; [congruence|].
    pose proof (Nat.mod_upper_bound k (length (x :: l')) ltac:(cbn; lia)). lia.
Qed.

(** Either order of [_fetch_and_lock_next_item] finds a row when one
    passes the filter. *)
Lemma choose_some {R} (f : R -> bool) (key : R -> Z) (k : nat) (ro : bool) (l : list R) :
  (exists r, In r l /\ f r = true) ->
  exists r, (if ro then pick_random k (filter f l) else max_by key (filter f l)) = Some r /\
            In r l /\ f r = true.
Proof.
  intros [r0 [Hin Hf]].
  assert (Hne : filter f l <> []).
  { intros E. assert (Hr0 : In r0 (filter f l)) by (apply filter_In; auto).
    rewrite E in Hr0. contradiction. }
  destruct ro;
    [destruct (pick_random_some k _ Hne) as [r [E Hr]]
    | destruct (max_by_some key _ Hne) as [r [E Hr]]];
    apply filter_In in Hr; exists r; rewrite E; tauto.
Qed.

Lemma updater_fetch_claims p ro db fe :
  random_order p = Some ro -> fe_locked fe = false ->
  (exists r, In r db /\ Updater.is_ready r = true) ->
  exists r db', Updater._fetch_and_lock_next_item p db fe = Ok (Some r, db') /\
                In r db /\ Updater.is_ready r = true.
Proof.
  intros Hr Hl Hex. unfold Updater._fetch_and_lock_next_item. rewrite Hr, Hl.
  destruct (choose_some Updater.is_ready Updater.id (fe_rand fe) ro db Hex) as [r [E [Hin Hf]]].
  cbv zeta. rewrite E. eauto.
Qed.

Lemma importer_fetch_claims p ro db fe :
  random_order p = Some ro -> fe_locked fe = false ->
  (exists r, In r db /\ Importer.is_unclaimed r = true) ->
  exists r db', Importer._fetch_and_lock_next_item p db fe = Ok (Some r, db') /\
                In r db /\ Importer.is_unclaimed r = true.
Proof.
  intros Hr Hl Hex. unfold Importer._fetch_and_lock_next_item. rewrite Hr, Hl.
  destruct (choose_some Importer.is_unclaimed Importer.id (fe_rand fe) ro db Hex)
    as [r [E [Hin Hf]]].
  cbv zeta. rewrite E. eauto.
Qed.

(** [run(limit=0)] on a processor with no limit yet: the integer 0 leaves
    [iteration_limit] at [None], the string ["0"] sets it to 0; either way
    no count reaches it. *)
Lemma run_start_limit_zero {Row} p ro limit n :
  random_order p = Some ro -> iteration_limit p = None ->
  limit = LimInt 0 \/ limit = LimStr "0" -> n <> 0%nat ->
  exists p1, run_start (Row := Row) p limit n = Ok (p1, repeat AtCheck n) /\
             (forall k, limit_reached (set_count p1 k) = false) /\
             random_order (set_count p1 (iteration_count p1 + 1)) = Some ro.
Proof.
  intros Hr Hl Hlim Hn. apply Nat.eqb_neq in Hn.
  destruct p as [c l s f r]; cbn in Hr, Hl; subst.
  unfold run_start. destruct Hlim as [-> | ->]; cbn; rewrite Hn;
    eexists; (split; [reflexivity|]); split; reflexivity.
Qed.

Section Generic.
Context {Row : Type} `{Strat : Strategy Row}.

(** Worker 0 passes its limit check and claims [r]. *)
Lemma exec_first_claim p1 n' db api o sched r db' :
  limit_reached p1 = false ->
  fetch_and_lock_next_item (set_count p1 (iteration_count p1 + 1)) db (o_fetch o)
    = Ok (Some r, db') ->
  exec (repeat AtCheck (S n')) (mkWorld p1 db api []) ((0%nat, o) :: (0%nat, o) :: sched) =
  exec (AtAct r :: repeat AtCheck n')
    (mkWorld (set_count p1 (iteration_count p1 + 1)) db' api [WClaim 0 (row_id r)]) sched.
Proof.
  intros Hl Hf. cbn [exec repeat nth_error worker_step w_proc]. rewrite Hl.
  cbn [exec replace_nth nth_error worker_step w_proc w_db w_api w_log]. rewrite Hf.
  reflexivity.
Qed.

(** Worker 0 at its [try] block takes one step. *)
Lemma exec_act_step r pcs w o :
  snd (exec (AtAct r :: pcs) w [(0%nat, o)]) = fst (act 0 w (o_http o) r).
Proof.
  cbn [exec nth_error worker_step]. destruct (act 0 w (o_http o) r) as [w' st]. reflexivity.
Qed.

(** The HTTP events of the action are logged first, whatever follows. *)
Lemma act_log_http i w env r :
  exists suffix, w_log (fst (act i w env r)) =
    w_log w ++ log_http i (snd (fst (perform_api_action (w_api w) env r))) ++ suffix.
Proof.
  unfold act. destruct (perform_api_action (w_api w) env r) as [[api' tr] rr].
  cbn [fst snd].
  destruct rr as [response|e].
  2:{ eexists. cbn. rewrite <- app_assoc. reflexivity. }
  destruct (getattr response "status_code").
  2:{ eexists. cbn. rewrite <- app_assoc. reflexivity. }
  destruct (handle_success (w_db w) r response);
    (eexists; cbn; rewrite <- !app_assoc; reflexivity).
Qed.

End Generic.

(** C4 (code bug): [limit = 0] is no cap. [run] sets the limit only
    [if limit:], and [_worker_loop] stops only [if self.iteration_limit and
    ...]; both read 0 as false. Take a processor with [random_order]
    assigned and no limit yet ([__init__] sets [None]), [limit] the integer
    0 or the command-line string ["0"], and any number of workers. Then no
    iteration count ever reaches the limit. For any database with a
    claimable row and a claim that gets the write lock, worker 0 claims a
    row in its first iteration: the updater claims a [ready] row, and the
    importer claims an unclaimed row and then sends its [POST] to
    [tickets]. *)
Theorem run_limit_zero_claims_and_sends (p : proc) (ro : bool)
  (Hp : random_order p = Some ro) (Hl : iteration_limit p = None)
  (limit : limit_arg) (Hlim : limit = LimInt 0 \/ limit = LimStr "0")
  (n : nat) (Hn : n <> 0%nat) :
  (forall Row, match run_start (Row := Row) p limit n with
   | Ok (p1, pcs) => pcs = repeat AtCheck n /\ forall k, limit_reached (set_count p1 k) = false
   | Raise _ => False
   end) /\
  (forall iso (db : list Updater.trow) api o,
   fe_locked (o_fetch o) = false -> (exists r, In r db /\ Updater.is_ready r = true) ->
   match run_start p limit n with
   | Ok (p1, pcs) =>
       exists r, In r db /\ Updater.is_ready r = true /\
       let '(pcs', w') := exec (Strat := updater_strategy iso) pcs (mkWorld p1 db api [])
                            [(0%nat, o); (0%nat, o)] in
       nth_error pcs' 0 = Some (AtAct r) /\ w_log w' = [WClaim 0 (Updater.id r)]
   | Raise _ => False
   end) /\
  (forall iso (db : list Importer.irow) api o,
   fe_locked (o_fetch o) = false -> (exists r, In r db /\ Importer.is_unclaimed r = true) ->
   match run_start p limit n with
   | Ok (p1, pcs) =>
       exists r tail, In r db /\ Importer.is_unclaimed r = true /\
       w_log (snd (exec (Strat := importer_strategy iso) pcs (mkWorld p1 db api [])
                     [(0%nat, o); (0%nat, o); (0%nat, o)])) =
       WClaim 0 (Importer.id r) ::
         map (WHttp 0) (pending_sleep api (now_before (o_http o 0))) ++
         WHttp 0 (Send "POST" (make_url api "tickets") (Some (Importer.import_payload r))) :: tail
   | Raise _ => False
   end).
Proof.
  destruct n as [|n']; [congruence|].
  split; [|split].
  - intros Row. destruct (run_start_limit_zero (Row := Row) p ro limit (S n') Hp Hl Hlim Hn)
      as [p1 [-> [Hk _]]].
    split; [reflexivity | exact Hk].
  - intros iso db api o Hlk Hex.
    destruct (run_start_limit_zero (Row := Updater.trow) p ro limit (S n') Hp Hl Hlim Hn)
      as [p1 [-> [Hk Hr]]].
    destruct (updater_fetch_claims _ ro db (o_fetch o) Hr Hlk Hex) as [r [db' [Hf [Hin Hrd]]]].
    exists r. split; [exact Hin|]. split; [exact Hrd|].
    assert (Hk0 : limit_reached p1 = false).
    { specialize (Hk (iteration_count p1)). destruct p1; exact Hk. }
    rewrite (exec_first_claim (Strat := updater_strategy iso) p1 n' db api o [] r db' Hk0 Hf).
    split; reflexivity.
  - intros iso db api o Hlk Hex.
    destruct (run_start_limit_zero (Row := Importer.irow) p ro limit (S n') Hp Hl Hlim Hn)
      as [p1 [-> [Hk Hr]]].
    destruct (importer_fetch_claims _ ro db (o_fetch o) Hr Hlk Hex) as [r [db' [Hf [Hin Hu]]]].
    assert (Hk0 : limit_reached p1 = false).
    { specialize (Hk (iteration_count p1)). destruct p1; exact Hk. }
    rewrite (exec_first_claim (Strat := importer_strategy iso) p1 n' db api o [(0%nat, o)] r db'
               Hk0 Hf).
    set (w1 := mkWorld (set_count p1 (iteration_count p1 + 1)) db' api
                 [WClaim 0 (row_id (Strategy := importer_strategy iso) r)]).
    destruct (act_log_http (Strat := importer_strategy iso) 0 w1 (o_http o) r) as [suffix Hs].
    destruct (LegacyImporterFacts.import_action_sends_post iso api (o_http o) r) as [rest Hpost].
    rewrite (exec_act_step (Strat := importer_strategy iso)), Hs.
    cbn [perform_api_action importer_strategy w_api w1 w_log].
    rewrite Hpost. unfold log_http. rewrite map_app. cbn [map].
    exists r, (map (WHttp 0) rest ++ suffix). split; [exact Hin|]. split; [exact Hu|].
    cbn [app]. rewrite <- app_assoc. reflexivity.
Qed.

Lemma run_limit_zero_claims_and_sends_witness :
  random_order (mkProc 0 None 0 0 (Some false)) = Some false /\
  iteration_limit (mkProc 0 None 0 0 (Some false)) = None /\
  (LimStr "0" = LimInt 0 \/ LimStr "0" = LimStr "0") /\ (2 <> 0)%nat /\
  match run_start (Row := Updater.trow) (mkProc 0 None 0 0 (Some false)) (LimStr "0") 2 with
  | Ok (p1, pcs) =>
      exists r, In r [Updater.mkTrow 1 (Some "Hardware") None None (Some "Hardware") None None
                        (Some "ready") None None None] /\ Updater.is_ready r = true /\
      let '(pcs', w') := exec (Strat := updater_strategy (fun s => Some s)) pcs
                           (mkWorld p1 [Updater.mkTrow 1 (Some "Hardware") None None
                                          (Some "Hardware") None None (Some "ready") None None None]
                              (init_api "example.freshservice.com") [])
                           [(0%nat, default_oracle); (0%nat, default_oracle)] in
      nth_error pcs' 0 = Some (AtAct r) /\ w_log w' = [WClaim 0 (Updater.id r)]
  | Raise _ => False
  end /\
  match run_start (Row := Importer.irow) (mkProc 0 None 0 0 (Some false)) (LimStr "0") 2 with
  | Ok (p1, pcs) =>
      exists r tail, In r [import_row_1] /\ Importer.is_unclaimed r = true /\
      w_log (snd (exec (Strat := importer_strategy (fun s => Some s)) pcs
                    (mkWorld p1 [import_row_1] (init_api "example.freshservice.com") [])
                    [(0%nat, default_oracle); (0%nat, default_oracle); (0%nat, default_oracle)])) =
      WClaim 0 (Importer.id r) ::
        map (WHttp 0) (pending_sleep (init_api "example.freshservice.com")
                         (now_before (o_http default_oracle 0))) ++
        WHttp 0 (Send "POST" (make_url (init_api "example.freshservice.com") "tickets")
                   (Some (Importer.import_payload r))) :: tail
  | Raise _ => False
  end.
Proof.
  split; [reflexivity|]. split; [reflexivity|]. split; [right; reflexivity|].
  split; [lia|].
  pose proof (run_limit_zero_claims_and_sends (mkProc 0 None 0 0 (Some false)) false eq_refl
                eq_refl (LimStr "0") (or_intror eq_refl) 2 ltac:(lia)) as [_ [HU HI]].
  split.
  - apply HU; [reflexivity|].
    eexists. split; [left; reflexivity | reflexivity].
  - apply HI; [reflexivity|].
    exists import_row_1. split; [left; reflexivity | reflexivity].
Defined.

End LimitZeroFacts.
